(** * Arc.cpp: the arc (edge) between two fiducial tags

    A shallow embedding of [Arc.cpp] and the properties of its routines:
    canonical construction, the two comparators, the goodness-gated load
    done by [Arc__read], the XML writer and the SVG drawing.

    Conventions of the embedding:
    - a C [double] is an IEEE-754 binary64 value, given by the Standard
      Library's [spec_float] at precision 53 and maximal exponent 1024;
    - an [unsigned int] is a [Z] in the range 0 .. 2^32 - 1; the one cast
      to [unsigned int] in the file is written out as a reduction modulo
      2^32;
    - a [Tag] is a pointer: [None] is the null pointer, [Some t] points to
      the tag structure [t];
    - a routine that changes the arc it is given returns the new contents
      of that arc;
    - a failed [assert] and a null dereference stop the routine: such
      routines return a [Result];
    - calls to routines of the other files (Tag, Map, SVG, File) are
      recorded, in order, in a log of [Call]s. *)

From Stdlib Require Import ZArith Bool List String Lia.
From Stdlib Require Import Floats.SpecFloat.
Import ListNotations.
Open Scope string_scope.
Open Scope Z_scope.

(** ** C doubles *)

Module Double.

Definition prec : Z := 53.
Definition emax : Z := 1024.

Definition double : Type := spec_float.

(** The double nearest to an integer constant such as [180.0]. *)
Definition of_Z (z : Z) : double := binary_normalize prec emax z 0 false.

Definition zero : double := S754_zero false.

Definition mul : double -> double -> double := SFmul prec emax.
Definition div : double -> double -> double := SFdiv prec emax.

(** The comparisons of C: all of them are false on a NaN. *)
Definition ltb (a b : double) : bool := SFltb a b.
Definition gtb (a b : double) : bool := SFltb b a.
Definition leb (a b : double) : bool := SFleb a b.
Definition geb (a b : double) : bool := SFleb b a.
Definition eqb (a b : double) : bool := SFeqb a b.

(** [std::min(a, b)] is [(b < a) ? b : a]. *)
Definition min (a b : double) : double := if ltb b a then b else a.

Definition is_nan (a : double) : bool :=
  match a with S754_nan => true | _ => false end.

Definition is_finite (a : double) : bool :=
  match a with S754_zero _ | S754_finite _ _ _ => true | _ => false end.

(** A value that a binary64 can hold: the mantissa and the exponent of
    a finite value are in range and normalised. *)
Definition valid (a : double) : bool := valid_binary prec emax a.

(** The value of a finite double as the numerator of the fraction
    [scaled a / 2^1074]: every finite binary64 value is a multiple of
    [2^-1074]. *)
Definition scaled (a : double) : Z :=
  match a with
  | S754_finite s m e =>
      let v := Z.shiftl (Zpos m) (e + 1074) in if s then - v else v
  | _ => 0
  end.

(** [|a| <= 1024], for a finite [a]. *)
Definition at_most_1024 (a : double) : Prop :=
  is_finite a = true /\ Z.abs (scaled a) <= 1024 * 2 ^ 1074.

(** Two finite doubles that differ by at most [10^-9]. *)
Definition within_1e9 (a b : double) : Prop :=
  is_finite a = true /\ is_finite b = true /\
  10 ^ 9 * Z.abs (scaled a - scaled b) <= 2 ^ 1074.

End Double.

Import Double.

(** ** Unsigned integers *)

Definition UINT_MODULUS : Z := 2 ^ 32.

(** The cast [(unsigned int)z] of a signed integer. *)
Definition to_unsigned (z : Z) : Z := z mod UINT_MODULUS.

(** ** Results of routines that can stop *)

Inductive Fault : Type :=
| Assertion_failed (expression : string)
| Null_dereference.

Inductive Result (A : Type) : Type :=
| Ok (a : A)
| Stop (f : Fault).

Arguments Ok {A} a.
Arguments Stop {A} f.

Definition bind {A B : Type} (r : Result A) (k : A -> Result B) : Result B :=
  match r with
  | Ok a => k a
  | Stop f => Stop f
  end.

Notation "x <- r ;; k" := (bind r (fun x => k))
  (at level 61, r at next level, right associativity).

Definition assert (b : bool) (expression : string) : Result unit :=
  if b then Ok tt else Stop (Assertion_failed expression).

(** ** The structures *)

(** A [Map] is only handed on by [Arc.cpp]: it is an opaque handle. *)
Definition Map : Type := Z.

(** Modelled from the spec: [Tag.hpp] is missing. The node has a unique
    integer id, a 2-D position and a hop count; [map] is the owning
    collection that [Arc__create] reaches through [from_tag->map]. *)
Record Tag__Struct : Type := {
  id : Z;
  hop_count : Z;
  x : double;
  y : double;
  map : Map
}.

Definition Tag : Type := option Tag__Struct.

(** The fields that [Arc.cpp] reads and writes, in the order of
    [Arc__new]. *)
Record Arc__Struct : Type := {
  distance : double;
  from_tag : Tag;
  from_twist : double;
  goodness : double;
  in_tree : bool;
  to_tag : Tag;
  to_twist : double;
  visit : Z
}.

Definition Arc : Type := Arc__Struct.

(** [tag->field] *)
Definition deref (tag : Tag) : Result Tag__Struct :=
  match tag with
  | Some t => Ok t
  | None => Stop Null_dereference
  end.

(** ** Calls to the other files *)

Inductive Format_Argument : Type :=
| No_Argument
| Integer_Argument (z : Z)
| Double_Argument (d : double).

Inductive Call : Type :=
| Tag__arc_append (tag : Tag) (arc : Arc)
| Map__arc_append (map : Map) (arc : Arc)
| Map__arc_announce (map : Map) (arc : Arc)
| SVG__line (x1 y1 x2 y2 : double) (color : string)
| File__format (format : string) (argument : Format_Argument).

(** A routine that calls out: its result and the calls it made. *)
Definition Run (A : Type) : Type := Result (A * list Call).

(** Modelled from the spec: [Tag.cpp] is missing. Two nodes are compared
    by identity, the unique integer id. *)
Definition Tag__equal (tag1 tag2 : Tag) : Result bool :=
  t1 <- deref tag1 ;;
  t2 <- deref tag2 ;;
  Ok (id t1 =? id t2).

(** Modelled from the spec: [Tag.cpp] is missing. Two nodes are ordered
    by identity, the unique integer id. *)
Definition Tag__less (tag1 tag2 : Tag) : Result bool :=
  t1 <- deref tag1 ;;
  t2 <- deref tag2 ;;
  Ok (id t1 <? id t2).

(** ** The routines of [Arc.cpp] *)

(** [Arc__equal]: [&&] evaluates its right operand only when the left one
    is true. *)
Definition Arc__equal (arc1 arc2 : Arc) : Result bool :=
  b <- Tag__equal (from_tag arc1) (from_tag arc2) ;;
  if b then Tag__equal (to_tag arc1) (to_tag arc2) else Ok false.

Definition Arc__less (arc1 arc2 : Arc) : Result bool :=
  l <- Tag__less (from_tag arc1) (from_tag arc2) ;;
  if l then Ok true
  else
    e <- Tag__equal (from_tag arc1) (from_tag arc2) ;;
    if e then Tag__less (to_tag arc1) (to_tag arc2)
    else Ok false.

Definition SENTINEL_GOODNESS : double := of_Z 123456789.

(** [from] names the caller for [Memory__new]; the storage itself is not
    modelled. *)
Definition Arc__new (from : string) : Arc := {|
  distance := of_Z (-1);
  from_tag := None;
  from_twist := zero;
  goodness := SENTINEL_GOODNESS;
  in_tree := false;
  to_tag := None;
  to_twist := zero;
  visit := 0
|}.

(** The arc that [Arc__create] loads, once the two ends are in order. *)
Definition Arc__create_load (from_tag0 : Tag) (from_twist0 distance0 : double)
    (to_tag0 : Tag) (to_twist0 goodness0 : double) : Arc :=
  let arc := Arc__new "Arc__create:Arc__new:arc" in {|
    distance := distance0;
    from_tag := from_tag0;
    from_twist := from_twist0;
    goodness := goodness0;
    in_tree := in_tree arc;
    to_tag := to_tag0;
    to_twist := to_twist0;
    visit := visit arc
  |}.

Definition Arc__create (from_tag0 : Tag) (from_twist0 distance0 : double)
    (to_tag0 : Tag) (to_twist0 goodness0 : double) : Run Arc :=
  f <- deref from_tag0 ;;
  t <- deref to_tag0 ;;
  let '(from_tag1, from_twist1, to_tag1, to_twist1) :=
    if id f >? id t
    then (to_tag0, to_twist0, from_tag0, from_twist0)
    else (from_tag0, from_twist0, to_tag0, to_twist0) in
  let arc :=
    Arc__create_load from_tag1 from_twist1 distance0 to_tag1 to_twist1
      goodness0 in
  f1 <- deref from_tag1 ;;
  Ok (arc, [Tag__arc_append from_tag1 arc;
            Tag__arc_append to_tag1 arc;
            Map__arc_append (map f1) arc]).

(** [std::min] on [unsigned int]. *)
Definition std_min (a b : Z) : Z := if b <? a then b else a.

Definition Arc__distance_less (arc1 arc2 : Arc) : Result bool :=
  if gtb (distance arc1) (distance arc2) then Ok true
  else if eqb (distance arc1) (distance arc2) then
    f1 <- deref (from_tag arc1) ;;
    t1 <- deref (to_tag arc1) ;;
    let arc1_lowest_hop_count := std_min (hop_count f1) (hop_count t1) in
    f2 <- deref (from_tag arc2) ;;
    t2 <- deref (to_tag arc2) ;;
    let arc2_lowest_hop_count := std_min (hop_count f2) (hop_count t2) in
    if arc1_lowest_hop_count >? arc2_lowest_hop_count then Ok true
    else Ok false
  else Ok false.

Definition Arc__update (arc : Arc)
    (from_twist0 distance0 to_twist0 goodness0 : double) : Result Arc :=
  f <- deref (from_tag arc) ;;
  t <- deref (to_tag arc) ;;
  _ <- assert (id f <? id t) "arc->from_tag->id < arc->to_tag->id" ;;
  _ <- assert (gtb distance0 zero) "distance > 0.0" ;;
  Ok {|
    distance := distance0;
    from_tag := from_tag arc;
    from_twist := from_twist0;
    goodness := goodness0;
    in_tree := in_tree arc;
    to_tag := to_tag arc;
    to_twist := to_twist0;
    visit := visit arc
  |}.

(** [arc->in_tree = in_tree] *)
Definition set_in_tree (arc : Arc) (b : bool) : Arc := {|
  distance := distance arc;
  from_tag := from_tag arc;
  from_twist := from_twist arc;
  goodness := goodness arc;
  in_tree := b;
  to_tag := to_tag arc;
  to_twist := to_twist arc;
  visit := visit arc
|}.

(** [(double)3.14159265358979323846264]: the binary64 value
    [0x400921FB54442D18]. *)
Definition pi : double := S754_finite false 7074237752028440 (-51).

Definition degrees_to_radians : double := div pi (of_Z 180).
Definition radians_to_degrees : double := div (of_Z 180) pi.

(** What the attribute reads of [Arc__read] return, in the order of the
    reads. *)
Record Arc__Attributes : Type := {
  From_Tag_Id : Z;
  From_Twist : double;
  Distance : double;
  To_Tag_Id : Z;
  To_Twist : double;
  Goodness : double;
  In_Tree : Z
}.

(** The cast [(bool)z]. *)
Definition to_bool (z : Z) : bool := negb (z =? 0).

Section Reading.

(** Modelled from the spec: [Map.cpp] is missing. The owning graph
    gives node lookup-by-id and edge lookup-by-node-pair. *)
Variable Map__tag_lookup : Map -> Z -> Tag.
Variable Map__arc_lookup : Map -> Tag -> Tag -> Arc.

Definition Arc__read (in_file : Arc__Attributes) (map0 : Map) : Run Arc :=
  let from_tag_id := to_unsigned (From_Tag_Id in_file) in
  let from_twist0 := From_Twist in_file in
  let distance0 := Distance in_file in
  let to_tag_id := to_unsigned (To_Tag_Id in_file) in
  let to_twist0 := To_Twist in_file in
  let goodness0 := Goodness in_file in
  let in_tree0 := to_bool (In_Tree in_file) in
  let from_twist1 := mul from_twist0 degrees_to_radians in
  let to_twist1 := mul to_twist0 degrees_to_radians in
  let from_tag0 := Map__tag_lookup map0 from_tag_id in
  let to_tag0 := Map__tag_lookup map0 to_tag_id in
  let arc := Map__arc_lookup map0 from_tag0 to_tag0 in
  if gtb (goodness arc) goodness0 then
    arc1 <- Arc__update arc from_twist1 distance0 to_twist1 goodness0 ;;
    let arc2 := set_in_tree arc1 in_tree0 in
    Ok (arc2, [Map__arc_announce map0 arc2])
  else Ok (arc, []).

End Reading.

Definition Arc__svg_write (arc : Arc) : Run unit :=
  f <- deref (from_tag arc) ;;
  t <- deref (to_tag arc) ;;
  let color := if in_tree arc then "red" else "green" in
  Ok (tt, [SVG__line (x f) (y f) (x t) (y t) color]).

(** The format strings are those of the source without the escaped
    quote characters around each value and without the final newline. *)
Definition Arc__write (arc : Arc) : Run unit :=
  let from_twist_degrees := mul (from_twist arc) radians_to_degrees in
  let to_twist_degrees := mul (to_twist arc) radians_to_degrees in
  f <- deref (from_tag arc) ;;
  t <- deref (to_tag arc) ;;
  Ok (tt,
      [File__format " <Arc" No_Argument;
       File__format " From_Tag_Id=%d" (Integer_Argument (id f));
       File__format " From_Twist=%f" (Double_Argument from_twist_degrees);
       File__format " Distance=%f" (Double_Argument (distance arc));
       File__format " To_Tag_Id=%d" (Integer_Argument (id t));
       File__format " To_Twist=%f" (Double_Argument to_twist_degrees);
       File__format " Goodness=%f" (Double_Argument (goodness arc));
       File__format " In_Tree=%d"
         (Integer_Argument (if in_tree arc then 1 else 0));
       File__format "/>" No_Argument]).


(** Modelled from the spec: [File.cpp] is missing. The record that
    [Arc__write] formats, read back attribute by attribute; [reread d] is
    what [File__double_attribute_read] returns on the text that
    [File__format] wrote for the double [d], and an integer is read back
    as it was written. *)
Definition File__reread (reread : double -> double) (calls : list Call)
    : option Arc__Attributes :=
  match calls with
  | [File__format _ No_Argument;
     File__format _ (Integer_Argument from_tag_id);
     File__format _ (Double_Argument from_twist_degrees);
     File__format _ (Double_Argument distance0);
     File__format _ (Integer_Argument to_tag_id);
     File__format _ (Double_Argument to_twist_degrees);
     File__format _ (Double_Argument goodness0);
     File__format _ (Integer_Argument in_tree0);
     File__format _ No_Argument] =>
      Some {|
        From_Tag_Id := from_tag_id;
        From_Twist := reread from_twist_degrees;
        Distance := reread distance0;
        To_Tag_Id := to_tag_id;
        To_Twist := reread to_twist_degrees;
        Goodness := reread goodness0;
        In_Tree := in_tree0
      |}
  | _ => None
  end.

(** ** Notions used in the statements *)

(** [ends arc f t]: the two tag pointers of [arc] are not null and point
    to [f] and [t]. *)
Definition ends (arc : Arc) (f t : Tag__Struct) : Prop :=
  from_tag arc = Some f /\ to_tag arc = Some t.

(** The statement about [Arc__create] on the tags [a] and [b]: the call
    returns an arc whose from id is strictly below its to id, and the call
    with the two tags and their twists exchanged returns the same arc. *)
Definition create_canonical_symmetric (a b : Tag__Struct)
    (ta d tb q : double) : Prop :=
  exists arc calls arc' calls',
    Arc__create (Some a) ta d (Some b) tb q = Ok (arc, calls) /\
    Arc__create (Some b) tb d (Some a) ta q = Ok (arc', calls') /\
    (exists f t, ends arc f t /\ id f < id t) /\
    arc' = arc.

(** The contents of [arc] once the four measurements are loaded. *)
Definition loaded (arc : Arc) (ft d tt g : double) : Arc := {|
  distance := d;
  from_tag := from_tag arc;
  from_twist := ft;
  goodness := g;
  in_tree := in_tree arc;
  to_tag := to_tag arc;
  to_twist := tt;
  visit := visit arc
|}.

(** The arc that [Arc__read] looks up in the map for a record. *)
Definition stored_arc (tag_lookup : Map -> Z -> Tag)
    (arc_lookup : Map -> Tag -> Tag -> Arc)
    (in_file : Arc__Attributes) (map0 : Map) : Arc :=
  arc_lookup map0
    (tag_lookup map0 (to_unsigned (From_Tag_Id in_file)))
    (tag_lookup map0 (to_unsigned (To_Tag_Id in_file))).

(** The arc that [Arc__read] leaves when the gate is passed. *)
Definition merged (arc : Arc) (in_file : Arc__Attributes) : Arc :=
  set_in_tree
    (loaded arc
       (mul (From_Twist in_file) degrees_to_radians) (Distance in_file)
       (mul (To_Twist in_file) degrees_to_radians) (Goodness in_file))
    (to_bool (In_Tree in_file)).

(** The colour that [Arc__svg_write] picks. *)
Definition color_of (b : bool) : string := if b then "red" else "green".

(** The statement about writing [e] and reading the record back into the
    map [map0]: both calls return, the arc read has the distance and the
    goodness of [e], and its twists are within [10^-9] of those of [e]. *)
Definition round_trip_reproduces (reread : double -> double)
    (tag_lookup : Map -> Z -> Tag) (arc_lookup : Map -> Tag -> Tag -> Arc)
    (map0 : Map) (e : Arc) : Prop :=
  exists calls in_file arc' calls',
    Arc__write e = Ok (tt, calls) /\
    File__reread reread calls = Some in_file /\
    Arc__read tag_lookup arc_lookup in_file map0 = Ok (arc', calls') /\
    distance arc' = distance e /\
    goodness arc' = goodness e /\
    within_1e9 (from_twist arc') (from_twist e) /\
    within_1e9 (to_twist arc') (to_twist e).

(** The attributes read back from the record written for an arc whose
    ends are [f] and [t]. *)
Definition record_of (reread : double -> double) (e : Arc)
    (f t : Tag__Struct) : Arc__Attributes := {|
  From_Tag_Id := id f;
  From_Twist := reread (mul (from_twist e) radians_to_degrees);
  Distance := reread (distance e);
  To_Tag_Id := id t;
  To_Twist := reread (mul (to_twist e) radians_to_degrees);
  Goodness := reread (goodness e);
  In_Tree := if in_tree e then 1 else 0
|}.

(** ** Sample tags, arcs and records *)

Definition tag_at (i : Z) (x0 y0 : double) (h m : Z) : Tag__Struct :=
  {| id := i; hop_count := h; x := x0; y := y0; map := m |}.

Definition tag_of_id (i : Z) : Tag__Struct := tag_at i zero zero 0 0.

Definition tag_of_hops (i h : Z) : Tag__Struct := tag_at i zero zero h 0.

(** An arc from tag 2 to tag 5 with distance 2 and goodness 50. *)
Definition arc_2_5 : Arc :=
  Arc__create_load (Some (tag_of_id 2)) (of_Z 1) (of_Z 2)
    (Some (tag_of_id 5)) (of_Z 3) (of_Z 50).

Definition arc_2_7 : Arc :=
  Arc__create_load (Some (tag_of_id 2)) (of_Z 9) (of_Z 8)
    (Some (tag_of_id 7)) (of_Z 7) (of_Z 6).

Definition arc_of_hops (d : double) (h1 h2 : Z) : Arc :=
  Arc__create_load (Some (tag_of_hops 1 h1)) zero d
    (Some (tag_of_hops 2 h2)) zero (of_Z 50).

(** A map whose tags are all there and that holds [arc] for every pair
    of tags. *)
Definition lookup_tag (_ : Map) (i : Z) : Tag := Some (tag_of_id i).
Definition lookup_arc (arc : Arc) (_ : Map) (_ _ : Tag) : Arc := arc.

Definition record_2_5 (d q : double) (flag : Z) : Arc__Attributes := {|
  From_Tag_Id := 2; From_Twist := of_Z 10; Distance := d;
  To_Tag_Id := 5; To_Twist := of_Z 30; Goodness := q; In_Tree := flag
|}.

(** 45 degrees in radians: [pi / 4]. *)
Definition quarter_pi : double := div pi (of_Z 4).

(** An arc from tag 2 to tag 5, twisted by 45 degrees at both ends, of
    distance 2 and goodness 10, in the tree. *)
Definition arc_45 : Arc :=
  set_in_tree
    (Arc__create_load (Some (tag_of_id 2)) quarter_pi (of_Z 2)
       (Some (tag_of_id 5)) quarter_pi (of_Z 10))
    true.

(** The arc between the same two tags as a map holds it with a better
    observation, of distance 3 and goodness 4. *)
Definition arc_better : Arc :=
  Arc__create_load (Some (tag_of_id 2)) zero (of_Z 3)
    (Some (tag_of_id 5)) zero (of_Z 4).

(** What reading back does to a double when the text is exact. *)
Definition exact_text (d : double) : double := d.

(** ** Notions used in the rounding proofs *)

(** The magnitude of a finite double as the numerator of a fraction over
    [2^K]. *)
Definition magnitude (K : Z) (a : double) : Z :=
  match a with
  | S754_finite _ m e => Zpos m * 2 ^ (e + K)
  | _ => 0
  end.

(** A zero or a finite value of sign [s] whose exponent is at most
    [top]. *)
Definition finite_below (s : bool) (top : Z) (a : double) : Prop :=
  match a with
  | S754_zero s' => s' = s
  | S754_finite s' _ e => s' = s /\ -1074 <= e <= top
  | _ => False
  end.

(** The exponent of the last place of a value below [2^k]. *)
Definition last_place (k : Z) : Z := Z.max (k - 53) (-1074).

(** ** Notions used in the further properties *)

(** The state that the two assertions of [Arc__update] check: the ends
    are set, the from id is below the to id, the distance is positive. *)
Definition well_formed (arc : Arc) : Prop :=
  exists f t, ends arc f t /\ id f < id t /\ gtb (distance arc) zero = true.

(** [|a| <= 65536], for a finite [a]. *)
Definition at_most_65536 (a : double) : Prop :=
  is_finite a = true /\ Z.abs (scaled a) <= 65536 * 2 ^ 1074.

(** The double argument that a log of calls gives to [format], if any. *)
Fixpoint written_double (format : string) (calls : list Call)
    : option double :=
  match calls with
  | [] => None
  | File__format format' (Double_Argument d) :: rest =>
      if String.eqb format format' then Some d
      else written_double format rest
  | _ :: rest => written_double format rest
  end.

(** Tag 5 owned by another map than tag 2. *)
Definition tag_5_elsewhere : Tag__Struct := tag_at 5 zero zero 0 3.

(** An arc from tag 3 to tag 3. *)
Definition arc_3_3 : Arc :=
  Arc__create_load (Some (tag_of_id 3)) (of_Z 1) (of_Z 2)
    (Some (tag_of_id 3)) (of_Z 3) (of_Z 50).

(** An arc without ends, as [Arc__new] leaves it, with a given
    distance. *)
Definition arc_without_ends (d : double) : Arc :=
  loaded (Arc__new "Arc__create:Arc__new:arc") zero d zero (of_Z 50).

(** ** The text of a double *)

(** [N / D] rounded to the nearest integer, ties to the even one. *)
Definition round_half_even (N D : Z) : Z :=
  let q := N / D in
  match 2 * (N mod D) ?= D with
  | Lt => q
  | Gt => q + 1
  | Eq => if Z.even q then q else q + 1
  end.

(** Modelled from the spec: [File.cpp] is missing, and the spec leaves
    the text primitives to a collaborator. [File__format] is taken to
    format as the C library's [printf] does: under the [%f] that
    [Arc__write] gives it, a finite double is written with six digits
    after the decimal point, its exact value rounded to the nearest
    multiple of [10^-6], ties to even. [micro_of m e] is the number written
    for [m * 2^e], counted in millionths. *)
Definition micro_of (m : positive) (e : Z) : Z :=
  match e with
  | Zneg p => round_half_even (Zpos m * 10 ^ 6) (2 ^ Zpos p)
  | _ => Zpos m * 2 ^ e * 10 ^ 6
  end.

(** Modelled from the spec: [File.cpp] is missing, and the spec leaves
    the text primitives to a collaborator. [File__double_attribute_read]
    is taken to return the double nearest to the decimal number it reads,
    ties to even, here [micro / 10^6] with its sign, a zero keeping its
    sign. *)
Definition decimal_to_double (s : bool) (micro : Z) : double :=
  match micro with
  | Zpos n => div (S754_finite s n 0) (S754_finite false 1000000 0)
  | _ => S754_zero s
  end.

(** What comes back of a double that is written under [%f] and read. An
    infinity or a NaN is left as it is: its text is not modelled. *)
Definition six_decimals (d : double) : double :=
  match d with
  | S754_finite s m e => decimal_to_double s (micro_of m e)
  | _ => d
  end.

(** Two finite doubles that differ by at most [10^-6]. *)
Definition within_1e6 (a b : double) : Prop :=
  is_finite a = true /\ is_finite b = true /\
  10 ^ 6 * Z.abs (scaled a - scaled b) <= 2 ^ 1074.

(** Two finite doubles that differ by at most [10^-8]. *)
Definition within_1e8 (a b : double) : Prop :=
  is_finite a = true /\ is_finite b = true /\
  10 ^ 8 * Z.abs (scaled a - scaled b) <= 2 ^ 1074.

(** [a > 0.0000005]: what is written under [%f] is not [0.000000]. *)
Definition above_half_millionth (a : double) : Prop :=
  2 ^ 1074 < 2 * 10 ^ 6 * scaled a.

(** The statement about writing [e] and reading the record back into the
    map [map0], to the six decimals of the text: both calls return, the
    arc read has the distance and the goodness of [e] within [10^-6], and
    its twists are within [10^-8] of those of [e]. *)
Definition round_trip_to_six_decimals (reread : double -> double)
    (tag_lookup : Map -> Z -> Tag) (arc_lookup : Map -> Tag -> Tag -> Arc)
    (map0 : Map) (e : Arc) : Prop :=
  exists calls in_file arc' calls',
    Arc__write e = Ok (tt, calls) /\
    File__reread reread calls = Some in_file /\
    Arc__read tag_lookup arc_lookup in_file map0 = Ok (arc', calls') /\
    within_1e6 (distance arc') (distance e) /\
    within_1e6 (goodness arc') (goodness e) /\
    within_1e8 (from_twist arc') (from_twist e) /\
    within_1e8 (to_twist arc') (to_twist e).

(** An arc from tag 2 to tag 5 of distance 1.2345678 and goodness 10,
    twisted by one radian at both ends. *)
Definition arc_fine : Arc :=
  Arc__create_load (Some (tag_of_id 2)) (of_Z 1)
    (div (of_Z 12345678) (of_Z 10000000))
    (Some (tag_of_id 5)) (of_Z 1) (of_Z 10).

(** The same arc with the distance 2. *)
Definition arc_one_radian : Arc :=
  Arc__create_load (Some (tag_of_id 2)) (of_Z 1) (of_Z 2)
    (Some (tag_of_id 5)) (of_Z 1) (of_Z 10).

(** The same arc with the distance 0.0000004. *)
Definition arc_tiny : Arc :=
  Arc__create_load (Some (tag_of_id 2)) (of_Z 1)
    (div (of_Z 4) (of_Z 10000000))
    (Some (tag_of_id 5)) (of_Z 1) (of_Z 10).

(** An arc of distance 2 that is twisted by 1000000001 radians. *)
Definition arc_far : Arc :=
  Arc__create_load (Some (tag_of_id 2)) (of_Z 1000000001) (of_Z 2)
    (Some (tag_of_id 5)) (of_Z 1000000001) (of_Z 10).

(** ** Notions used in the proofs about the text *)

(** Where [X / Y] lies between two integers: on one, below the middle, in
    the middle or above it. *)
Definition location_of (X Y : Z) : location :=
  if X mod Y =? 0 then loc_Exact else loc_Inexact (2 * (X mod Y) ?= Y).

(** A shifted mantissa with its round and sticky bits that stands for
    the quotient [X / Y]. *)
Definition located (X Y : Z) (mrs : shr_record) : Prop :=
  shr_m mrs = X / Y /\ loc_of_shr_record mrs = location_of X Y.

(** The last step of [binary_round_aux]: the rounded mantissa [M] at the
    exponent [e] is brought to its canonical form. *)
Definition renormalized (s : bool) (M e : Z) : double :=
  let '(mrs, e') := shr_fexp prec emax M e loc_Exact in
  match shr_m mrs with
  | Z0 => S754_zero s
  | Zpos m => if e' <=? emax - prec then S754_finite s m e' else S754_infinity s
  | Zneg _ => S754_nan
  end.

(** * Properties *)

(** ** Order facts on doubles *)

Module DoubleFacts.

Lemma compare_antisym (a b : double) :
  SFcompare b a = option_map CompOpp (SFcompare a b).
Proof.
  destruct a as [sa|sa| |sa ma ea], b as [sb|sb| |sb mb eb]; simpl;
    try reflexivity;
    try (destruct sa; reflexivity);
    try (destruct sb; reflexivity);
    try (destruct sa, sb; reflexivity).
  destruct sa, sb; simpl; try reflexivity;
    rewrite (Z.compare_antisym ea eb);
    destruct (ea ?= eb) eqn:E; simpl; try reflexivity;
    rewrite (Pos.compare_cont_antisym ma mb Eq); simpl;
    try rewrite CompOpp_involutive; reflexivity.
Qed.

Lemma compare_refl (a : double) :
  is_nan a = false -> SFcompare a a = Some Eq.
Proof.
  destruct a as [s|s| |s m e]; simpl; intros H; try discriminate;
    try (destruct s; reflexivity).
  destruct s; rewrite Z.compare_refl, Pos.compare_cont_refl; reflexivity.
Qed.

Lemma compare_defined (a b : double) :
  is_nan a = false -> is_nan b = false -> exists c, SFcompare a b = Some c.
Proof.
  destruct a, b; simpl; intros; try discriminate; eauto.
Qed.

(** [a <= b] rules out [a > b]. *)
Lemma leb_not_gtb (a b : double) : leb a b = true -> gtb a b = false.
Proof.
  unfold leb, gtb, SFleb, SFltb. rewrite (compare_antisym a b).
  destruct (SFcompare a b) as [[]|]; simpl; congruence.
Qed.

(** [q >= old] rules out [old > q]. *)
Lemma geb_not_gtb (q old : double) : geb q old = true -> gtb old q = false.
Proof. exact (leb_not_gtb old q). Qed.

(** [Double.min] is one of its arguments, and below both, NaN apart. *)
Lemma min_cases (a b : double) : min a b = a \/ min a b = b.
Proof. unfold min. destruct (ltb b a); auto. Qed.

Lemma min_leb_l (a b : double) :
  is_nan a = false -> is_nan b = false -> leb (min a b) a = true.
Proof.
  intros Ha Hb. unfold min, ltb, leb, SFltb, SFleb.
  destruct (SFcompare b a) as [[]|] eqn:E; try rewrite E; trivial;
    rewrite (compare_refl a Ha); reflexivity.
Qed.

Lemma min_leb_r (a b : double) :
  is_nan a = false -> is_nan b = false -> leb (min a b) b = true.
Proof.
  intros Ha Hb. unfold min, ltb, leb, SFltb, SFleb.
  destruct (compare_defined b a Hb Ha) as [c E]. rewrite E.
  destruct c.
  - rewrite (compare_antisym b a), E. reflexivity.
  - rewrite (compare_refl b Hb). reflexivity.
  - rewrite (compare_antisym b a), E. reflexivity.
Qed.

End DoubleFacts.

(** ** Rounding of a product

    [SFmul] rounds the exact product by shifting its mantissa right. The
    lemmas below bound the rounding error with integers only: a value
    [m * 2^e] is handled as the integer [m * 2^(e + K)] for a [K] large
    enough. *)

Module Rounding.

Lemma shr_1_m (mrs : shr_record) :
  0 <= shr_m mrs -> shr_m (shr_1 mrs) = shr_m mrs / 2.
Proof.
  destruct mrs as [m r s]. cbn [shr_m]. intros H.
  destruct m as [|[p|p|]|p]; cbn [shr_1 shr_m]; try lia.
  - reflexivity.
  - apply Z.div_unique with 1; lia.
  - apply Z.div_unique with 0; lia.
  - reflexivity.
Qed.

Lemma iter_pos_shr_m (p : positive) :
  forall mrs, 0 <= shr_m mrs ->
  shr_m (iter_pos shr_1 p mrs) = shr_m mrs / 2 ^ Zpos p.
Proof.
  induction p as [p IH|p IH|]; intros mrs H; simpl iter_pos.
  - assert (H1 : 0 <= shr_m (shr_1 mrs)).
    { rewrite shr_1_m by trivial. apply Z.div_pos; lia. }
    assert (H2 : 0 <= shr_m (iter_pos shr_1 p (shr_1 mrs))).
    { rewrite IH by trivial. apply Z.div_pos; lia. }
    rewrite IH, IH, shr_1_m by trivial.
    rewrite !Z.div_div by lia. f_equal.
    rewrite (Pos2Z.inj_xI p).
    replace (2 * Zpos p + 1) with (Zpos p + Zpos p + 1) by lia.
    rewrite !Z.pow_add_r by lia. change (2 ^ 1) with 2. ring.
  - assert (H2 : 0 <= shr_m (iter_pos shr_1 p mrs)).
    { rewrite IH by trivial. apply Z.div_pos; lia. }
    rewrite IH, IH by trivial.
    rewrite !Z.div_div by lia. f_equal.
    rewrite (Pos2Z.inj_xO p).
    replace (2 * Zpos p) with (Zpos p + Zpos p) by lia.
    rewrite !Z.pow_add_r by lia. ring.
  - rewrite shr_1_m by trivial. reflexivity.
Qed.

Lemma digits2_pos_bounds (m : positive) :
  2 ^ (Zpos (digits2_pos m) - 1) <= Zpos m < 2 ^ Zpos (digits2_pos m).
Proof.
  induction m as [m IH|m IH|]; simpl digits2_pos.
  - rewrite Pos2Z.inj_succ, (Pos2Z.inj_xI m).
    replace (Z.succ (Zpos (digits2_pos m)) - 1)
      with (Z.succ (Zpos (digits2_pos m) - 1)) by lia.
    rewrite !Z.pow_succ_r by lia. lia.
  - rewrite Pos2Z.inj_succ, (Pos2Z.inj_xO m).
    replace (Z.succ (Zpos (digits2_pos m)) - 1)
      with (Z.succ (Zpos (digits2_pos m) - 1)) by lia.
    rewrite !Z.pow_succ_r by lia. lia.
  - simpl. lia.
Qed.

Lemma fexp_eq (z : Z) : fexp prec emax z = Z.max (z - 53) (-1074).
Proof. reflexivity. Qed.

(** One [shr_fexp]: the exponent it reaches and the mantissa it leaves. *)
Lemma shr_fexp_spec (m e : Z) (l : location) :
  0 <= m ->
  let e' := Z.max e (fexp prec emax (Zdigits2 m + e)) in
  snd (shr_fexp prec emax m e l) = e' /\
  shr_m (fst (shr_fexp prec emax m e l)) = m / 2 ^ (e' - e).
Proof.
  intros Hm e'. unfold shr_fexp, shr.
  assert (R : shr_m (shr_record_of_loc m l) = m).
  { destruct l as [|[]]; reflexivity. }
  destruct (fexp prec emax (Zdigits2 m + e) - e) as [|p|p] eqn:N;
    simpl fst; simpl snd.
  - replace e' with e by lia. rewrite Z.sub_diag, Z.div_1_r. auto.
  - replace e' with (e + Zpos p) by lia. split; [reflexivity|].
    rewrite iter_pos_shr_m by lia. rewrite R. f_equal. f_equal. lia.
  - replace e' with e by lia. rewrite Z.sub_diag, Z.div_1_r. auto.
Qed.

Lemma round_nearest_even_cases (m : Z) (l : location) :
  round_nearest_even m l = m \/ round_nearest_even m l = m + 1.
Proof.
  destruct l as [|[]]; simpl; auto. destruct (Z.even m); auto.
Qed.

Lemma digits_scaled (m a b : Z) :
  0 < m -> 0 <= a -> m * 2 ^ a < 2 ^ b -> Zdigits2 m + a <= b.
Proof.
  intros Hm Ha H. destruct m as [|p|p]; try lia. cbn [Zdigits2].
  pose proof (digits2_pos_bounds p) as [L _].
  assert (0 < 2 ^ a) by (apply Z.pow_pos_nonneg; lia).
  assert (0 <= b).
  { destruct (Z.le_gt_cases 0 b); trivial.
    rewrite (Z.pow_neg_r 2 b) in H by lia.
    assert (0 < Zpos p * 2 ^ a) by (apply Z.mul_pos_pos; lia). lia. }
  assert (T : 2 ^ (Zpos (digits2_pos p) - 1 + a) < 2 ^ b).
  { rewrite Z.pow_add_r by lia.
    apply Z.le_lt_trans with (Zpos p * 2 ^ a); trivial.
    apply Z.mul_le_mono_nonneg_r; lia. }
  apply Z.pow_lt_mono_r_iff in T; lia.
Qed.

Lemma floor_scaled (m B : Z) :
  0 <= m -> 0 < B -> m / B * B <= m < (m / B + 1) * B /\ 0 <= m / B.
Proof.
  intros Hm HB. pose proof (Z.mul_div_le m B HB).
  pose proof (Z.mul_succ_div_gt m B HB).
  pose proof (Z.div_pos m B Hm HB). lia.
Qed.

(** Two floors in a row, with a step up in between. *)
Lemma two_floors (m0 A B C m1 M m2 : Z) :
  0 < A -> 0 < B -> 0 < C ->
  m1 * B <= m0 < (m1 + 1) * B ->
  M = m1 \/ M = m1 + 1 ->
  m2 * C <= M < (m2 + 1) * C ->
  Z.abs (m2 * (A * B * C) - m0 * A) <= A * B + A * B * C.
Proof.
  intros PA PB PC F1 HM F2.
  assert (PAB : 0 < A * B) by (apply Z.mul_pos_pos; trivial).
  assert (X1 : m1 * (A * B) <= m0 * A < (m1 + 1) * (A * B)) by nia.
  assert (X2 : m2 * (A * B * C) <= M * (A * B) < (m2 + 1) * (A * B * C)) by nia.
  assert (X3 : M * (A * B) = m1 * (A * B) \/ M * (A * B) = m1 * (A * B) + A * B).
  { destruct HM as [-> | ->]; [left | right]; ring. }
  clear - X1 X2 X3 PAB.
  set (AB := A * B) in *. set (ABC := AB * C) in *.
  set (x := m2 * ABC) in *. set (y := M * AB) in *.
  set (z := m1 * AB) in *. set (v := m0 * A) in *.
  replace ((m2 + 1) * ABC) with (x + ABC) in X2 by (unfold x; ring).
  replace ((m1 + 1) * AB) with (z + AB) in X1 by (unfold z; ring).
  clearbody x y z v AB ABC. lia.
Qed.

Lemma rounded_up_bound (m0 A B m1 M Pk PE : Z) :
  0 < A -> 0 < B -> m1 * B <= m0 -> M = m1 \/ M = m1 + 1 ->
  m0 * A < Pk -> A * B <= PE -> PE <= Pk ->
  M * (A * B) < 2 * Pk.
Proof.
  intros PA PB F HM V L1 L2.
  assert (X : m1 * (A * B) <= m0 * A).
  { replace (m1 * (A * B)) with (m1 * B * A) by ring.
    apply Z.mul_le_mono_nonneg_r; lia. }
  assert (Y : M * (A * B) = m1 * (A * B) \/ M * (A * B) = m1 * (A * B) + A * B).
  { destruct HM as [-> | ->]; [left | right]; ring. }
  assert (PAB : 0 < A * B) by (apply Z.mul_pos_pos; trivial).
  clear - X Y V L1 L2 PAB.
  set (AB := A * B) in *. set (y := M * AB) in *. set (z := m1 * AB) in *.
  set (v := m0 * A) in *. clearbody AB y z v. lia.
Qed.

Lemma pow2_succ (n : Z) : 0 <= n -> 2 ^ (n + 1) = 2 * 2 ^ n.
Proof. intros H. rewrite Z.pow_add_r by lia. change (2 ^ 1) with 2. ring. Qed.

(** The rounding of an exact product [m * 2^e] below [2^k]: the result is
    zero or finite, of the sign given, and within three units of the last
    place of [2^k]. *)
Lemma binary_round_aux_bound (s : bool) (m : positive) (e k K : Z) :
  - K <= e -> -1074 <= k <= 1000 -> e <= last_place k ->
  Zpos m * 2 ^ (e + K) < 2 ^ (k + K) ->
  let r := binary_round_aux prec emax s (Zpos m) e loc_Exact in
  finite_below s (last_place k + 1) r /\
  Z.abs (magnitude K r - Zpos m * 2 ^ (e + K)) <= 3 * 2 ^ (last_place k + K).
Proof.
  intros HK Hk He HV. unfold binary_round_aux.
  assert (HE : last_place k = Z.max (k - 53) (-1074)) by reflexivity.
  (* the first shift *)
  pose proof (shr_fexp_spec (Zpos m) e loc_Exact ltac:(lia)) as S1.
  destruct (shr_fexp prec emax (Zpos m) e loc_Exact) as [mrs1 e1].
  simpl fst in S1; simpl snd in S1. destruct S1 as [He1 Hm1].
  rewrite <- He1 in Hm1. rewrite fexp_eq in He1.
  assert (D1 : Zdigits2 (Zpos m) + (e + K) <= k + K).
  { apply digits_scaled; [lia | lia | exact HV]. }
  assert (B1 : e <= e1 /\ -1074 <= e1 /\ e1 <= last_place k)
    by (clear - He1 D1 He HE Hk; lia).
  clear He1 D1.
  set (B := 2 ^ (e1 - e)) in *.
  assert (PB : 0 < B) by (apply Z.pow_pos_nonneg; lia).
  destruct (floor_scaled (Zpos m) B ltac:(lia) PB) as [F1 P1].
  rewrite <- Hm1 in F1, P1. clear Hm1.
  set (M := round_nearest_even (shr_m mrs1) (loc_of_shr_record mrs1)).
  assert (HM : M = shr_m mrs1 \/ M = shr_m mrs1 + 1)
    by apply round_nearest_even_cases.
  assert (PM : 0 <= M) by (clear - HM P1; lia).
  clearbody M.
  (* the second shift *)
  pose proof (shr_fexp_spec M e1 loc_Exact PM) as S2.
  destruct (shr_fexp prec emax M e1 loc_Exact) as [mrs2 e2].
  simpl fst in S2; simpl snd in S2. destruct S2 as [He2 Hm2].
  rewrite <- He2 in Hm2. rewrite fexp_eq in He2.
  set (A := 2 ^ (e + K)) in *.
  assert (PA : 0 < A) by (apply Z.pow_pos_nonneg; lia).
  assert (AB : A * B = 2 ^ (e1 + K)).
  { unfold A, B. rewrite <- Z.pow_add_r by lia. f_equal. lia. }
  assert (TE : 2 ^ (e1 + K) <= 2 ^ (last_place k + K))
    by (apply Z.pow_le_mono_r; lia).
  assert (Tk : 2 ^ (last_place k + K) <= 2 ^ (k + K))
    by (apply Z.pow_le_mono_r; lia).
  assert (VM : M * (A * B) < 2 * 2 ^ (k + K)).
  { apply (rounded_up_bound (Zpos m) A B (shr_m mrs1) M _ (2 ^ (last_place k + K)));
      trivial; [apply F1 | rewrite AB; exact TE]. }
  rewrite <- pow2_succ in VM by lia. rewrite AB in VM.
  assert (D2 : e2 <= last_place k + 1).
  { destruct (Z.eq_dec M 0) as [Z0|NZ].
    - rewrite Z0 in He2. simpl Zdigits2 in He2. clear - He2 B1. lia.
    - assert (Zdigits2 M + (e1 + K) <= k + K + 1)
        by (apply digits_scaled; [lia | lia | exact VM]).
      clear - H He2 B1 HE Hk. lia. }
  assert (B2 : e1 <= e2) by (clear - He2; lia).
  clear He2 VM.
  set (C := 2 ^ (e2 - e1)) in *.
  assert (PC : 0 < C) by (apply Z.pow_pos_nonneg; lia).
  destruct (floor_scaled M C PM PC) as [F2 P2].
  rewrite <- Hm2 in F2, P2. clear Hm2.
  assert (ABC : A * B * C = 2 ^ (e2 + K)).
  { rewrite AB. unfold C. rewrite <- Z.pow_add_r by lia. f_equal. lia. }
  assert (TE2 : 2 ^ (e2 + K) <= 2 ^ (last_place k + 1 + K))
    by (apply Z.pow_le_mono_r; lia).
  replace (last_place k + 1 + K) with (last_place k + K + 1) in TE2 by lia.
  rewrite pow2_succ in TE2 by lia.
  pose proof (two_floors (Zpos m) A B C (shr_m mrs1) M (shr_m mrs2)
                PA PB PC F1 HM F2) as Err.
  rewrite ABC, AB in Err.
  assert (Top : e2 <= 971) by (clear - D2 HE Hk; lia).
  assert (Bot : -1074 <= e2) by (clear - B1 B2; lia).
  set (PE := 2 ^ (last_place k + K)) in *.
  set (P1' := 2 ^ (e1 + K)) in *. set (P2' := 2 ^ (e2 + K)) in *.
  fold A.
  destruct (shr_m mrs2) as [|m2|m2] eqn:R2.
  - cbn [finite_below magnitude]. split; [reflexivity|].
    rewrite Z.mul_0_l in Err. clear - Err TE TE2.
    set (v := Zpos m * A) in *. clearbody v PE P1' P2'. lia.
  - assert ((e2 <=? emax - prec) = true) as -> by (apply Z.leb_le; exact Top).
    cbn [finite_below magnitude]. split; [split; [reflexivity | lia]|].
    fold P2'. clear - Err TE TE2.
    set (v := Zpos m * A) in *. set (w := Zpos m2 * P2') in *.
    clearbody v w PE P1' P2'. lia.
  - exfalso. clear - P2. lia.
Qed.

Lemma magnitude_scaled (s : bool) (top : Z) (a : double) :
  finite_below s top a ->
  magnitude 1179 a = 2 ^ 105 * Z.abs (scaled a) /\
  scaled a = (if s then - Z.abs (scaled a) else Z.abs (scaled a)).
Proof.
  destruct a as [s'|s'| |s' m e]; cbn [finite_below magnitude scaled];
    try contradiction.
  - intros _. destruct s; simpl; lia.
  - intros [-> [L _]]. rewrite Z.shiftl_mul_pow2 by lia.
    assert (0 < 2 ^ (e + 1074)) by (apply Z.pow_pos_nonneg; lia).
    replace (e + 1179) with (e + 1074 + 105) by lia.
    rewrite Z.pow_add_r by lia.
    assert (0 < Zpos m * 2 ^ (e + 1074)) by (apply Z.mul_pos_pos; lia).
    destruct s; split; lia.
Qed.

Lemma valid_exponent (s : bool) (m : positive) (e n : Z) :
  valid (S754_finite s m e) = true ->
  Zpos m * 2 ^ (e + 1074) < 2 ^ (n + 1074) -> 0 <= n + 1074 ->
  -1074 <= e <= Z.max (n - 53) (-1074).
Proof.
  unfold valid. cbn [valid_binary]. unfold bounded, canonical_mantissa.
  intros V H Hn. apply andb_prop in V. destruct V as [V _].
  apply Z.eqb_eq in V. rewrite fexp_eq in V.
  assert (-1074 <= e) by lia. split; trivial.
  pose proof (digits_scaled (Zpos m) (e + 1074) (n + 1074)) as D.
  cbn [Zdigits2] in D. lia.
Qed.

(** [pi] is the binary64 value nearest to the decimal constant of the
    source: it is within half a unit of its last place, [2^-52]. *)
Lemma pi_nearest_to_literal :
  2 * Z.abs (7074237752028440 * 10 ^ 23 - 314159265358979323846264 * 2 ^ 51)
  <= 10 ^ 23
  /\ pi = S754_finite false 7074237752028440 (-51)
  /\ valid pi = true.
Proof.
  split; [apply Z.leb_le; vm_compute | split]; reflexivity.
Qed.

(** The two conversion factors, as binary64 values. *)
Lemma radians_to_degrees_value :
  radians_to_degrees = S754_finite false 8063664102031864 (-47).
Proof. vm_compute. reflexivity. Qed.

Lemma degrees_to_radians_value :
  degrees_to_radians = S754_finite false 5030569068109113 (-58).
Proof. vm_compute. reflexivity. Qed.

(** A twist of at most 1024 radians that goes to degrees and back, as
    [Arc__write] and [Arc__read] convert it, comes back within [10^-9]. *)
Lemma twist_round_trip (t : double) :
  valid t = true -> at_most_1024 t ->
  within_1e9 (mul (mul t radians_to_degrees) degrees_to_radians) t.
Proof.
  rewrite radians_to_degrees_value, degrees_to_radians_value.
  intros V [F B]. unfold within_1e9. rewrite F.
  destruct t as [s|s| |s mt et]; try discriminate.
  { simpl. repeat split. lia. }
  clear F. cbn [scaled] in B.
  assert (Le : -1074 <= et).
  { pose proof V as V'. unfold valid in V'. cbn [valid_binary] in V'.
    unfold bounded, canonical_mantissa in V'.
    apply andb_prop in V'. destruct V' as [V' _].
    apply Z.eqb_eq in V'. rewrite fexp_eq in V'. lia. }
  rewrite Z.shiftl_mul_pow2 in B by lia.
  set (T := Zpos mt * 2 ^ (et + 1074)) in *.
  assert (PT : 0 < T).
  { apply Z.mul_pos_pos; [lia | apply Z.pow_pos_nonneg; lia]. }
  change (1024 * 2 ^ 1074) with (2 ^ 1084) in B.
  assert (BT : T <= 2 ^ 1084) by (destruct s; lia).
  assert (Et : -1074 <= et <= -42).
  { assert (X : T < 2 ^ (11 + 1074)).
    { apply Z.le_lt_trans with (2 ^ 1084); trivial.
      apply Z.pow_lt_mono_r; lia. }
    pose proof (valid_exponent s mt et 11 V X). lia. }
  (* the product with radians_to_degrees *)
  set (mr := 8063664102031864%positive).
  set (md := 5030569068109113%positive).
  set (P := 2 ^ 1137).
  assert (PP : 0 < P) by (apply Z.pow_pos_nonneg; lia).
  assert (T' : Zpos mt * 2 ^ (et + 1179) = 2 ^ 105 * T).
  { unfold T. replace (et + 1179) with (et + 1074 + 105) by lia.
    rewrite Z.pow_add_r by lia. ring. }
  assert (p1084 : 2 ^ 1084 * 2 ^ 105 = 2 ^ 52 * P).
  { unfold P. rewrite <- !Z.pow_add_r by lia. reflexivity. }
  assert (V1 : 2 ^ 47 * (Zpos (mt * mr) * 2 ^ (et - 47 + 1179))
               = 2 ^ 105 * T * Zpos mr).
  { rewrite <- T'. rewrite Pos2Z.inj_mul.
    replace (et + 1179) with (et - 47 + 1179 + 47) by lia.
    rewrite (Z.pow_add_r 2 (et - 47 + 1179) 47) by lia. ring. }
  set (u := mul (S754_finite s mt et) (S754_finite false mr (-47))).
  assert (R1 : finite_below s (-36) u /\
               Z.abs (magnitude 1179 u - Zpos (mt * mr) * 2 ^ (et - 47 + 1179))
               <= 3 * (32 * P)).
  { assert (p : 32 * P = 2 ^ (last_place 16 + 1179)).
    { unfold P. change 32 with (2 ^ 5). rewrite <- Z.pow_add_r by lia.
      reflexivity. }
    rewrite p. unfold u, mul, SFmul. rewrite xorb_false_r.
    apply (binary_round_aux_bound s (mt * mr) (et - 47) 16 1179).
    - lia.
    - lia.
    - change (last_place 16) with (-37). lia.
    - assert (q : 2 ^ 47 * 2 ^ (16 + 1179) = 2 ^ 53 * (2 ^ 52 * P)).
      { unfold P. rewrite <- !Z.pow_add_r by lia. reflexivity. }
      unfold mr in V1. rewrite Pos2Z.inj_mul. unfold mr.
      assert (2 ^ 105 * T <= 2 ^ 52 * P) by lia.
      lia. }
  destruct R1 as [F1 D1].
  set (Q := 2 ^ 1074) in *.
  assert (PQ : P = 2 ^ 63 * Q).
  { unfold P, Q. rewrite <- Z.pow_add_r by lia. reflexivity. }
  assert (BQ : T <= 2 ^ 10 * Q).
  { unfold Q. rewrite <- Z.pow_add_r by lia. exact BT. }
  assert (St : scaled (S754_finite s mt et) = if s then - T else T).
  { cbn [scaled]. rewrite Z.shiftl_mul_pow2 by lia. reflexivity. }
  rewrite St. clear St.
  unfold mr in V1.
  set (X := Zpos (mt * 8063664102031864) * 2 ^ (et - 47 + 1179)) in *.
  destruct u as [su|su| |su mu eu]; cbn [finite_below] in F1;
    try contradiction.
  - (* the first product is rounded to zero *)
    cbn [magnitude] in D1. simpl mul. cbn [scaled is_finite].
    repeat split. destruct s; lia.
  - destruct F1 as [-> Eu].
    set (U := magnitude 1179 (S754_finite s mu eu)) in *.
    assert (V2 : 2 ^ 58 * (Zpos (mu * md) * 2 ^ (eu - 58 + 1179))
                 = U * Zpos md).
    { unfold U. cbn [magnitude]. rewrite Pos2Z.inj_mul.
      replace (eu + 1179) with (eu - 58 + 1179 + 58) by lia.
      rewrite (Z.pow_add_r 2 (eu - 58 + 1179) 58) by lia. ring. }
    unfold md in V2.
    set (Y := Zpos (mu * 5030569068109113) * 2 ^ (eu - 58 + 1179)) in *.
    set (w := mul (S754_finite s mu eu) (S754_finite false md (-58))).
    assert (R2 : finite_below s (-41) w /\
                 Z.abs (magnitude 1179 w - Y) <= 3 * P).
    { assert (p : P = 2 ^ (last_place 11 + 1179)) by reflexivity.
      rewrite p. unfold w, mul, SFmul. rewrite xorb_false_r.
      apply (binary_round_aux_bound s (mu * md) (eu - 58) 11 1179).
      - lia.
      - lia.
      - change (last_place 11) with (-42). lia.
      - fold Y.
        assert (q : 2 ^ (11 + 1179) = 2 ^ 53 * P).
        { unfold P. rewrite <- Z.pow_add_r by lia. reflexivity. }
        rewrite q. lia. }
    destruct R2 as [F2 D2].
    destruct (magnitude_scaled s (-41) w F2) as [W Sw].
    split; [|split; [reflexivity|]].
    + destruct w; cbn [finite_below] in F2; try contradiction; reflexivity.
    + rewrite Sw. rewrite W in D2.
      assert (0 <= Z.abs (scaled w)) by apply Z.abs_nonneg.
      destruct s; lia.
Qed.

End Rounding.

(** ** Arcs whose two ends are set *)

Lemma Arc__equal_ends (arc1 arc2 : Arc) (f1 t1 f2 t2 : Tag__Struct) :
  ends arc1 f1 t1 -> ends arc2 f2 t2 ->
  Arc__equal arc1 arc2 = Ok ((id f1 =? id f2) && (id t1 =? id t2)).
Proof.
  intros [Hf1 Ht1] [Hf2 Ht2]. unfold Arc__equal, Tag__equal.
  rewrite Hf1, Ht1, Hf2, Ht2. simpl.
  destruct (id f1 =? id f2); reflexivity.
Qed.

Lemma Arc__equal_true_ends (arc1 arc2 : Arc) :
  Arc__equal arc1 arc2 = Ok true ->
  exists f1 t1 f2 t2, ends arc1 f1 t1 /\ ends arc2 f2 t2.
Proof.
  unfold Arc__equal, Tag__equal, ends.
  destruct (from_tag arc1) as [f1|], (from_tag arc2) as [f2|]; simpl;
    try discriminate.
  destruct (id f1 =? id f2); try discriminate.
  destruct (to_tag arc1) as [t1|], (to_tag arc2) as [t2|]; simpl;
    try discriminate.
  intros _. exists f1, t1, f2, t2. auto.
Qed.

Lemma Arc__less_ends (arc1 arc2 : Arc) (f1 t1 f2 t2 : Tag__Struct) :
  ends arc1 f1 t1 -> ends arc2 f2 t2 ->
  Arc__less arc1 arc2 =
  Ok ((id f1 <? id f2) || (id f1 =? id f2) && (id t1 <? id t2)).
Proof.
  intros [Hf1 Ht1] [Hf2 Ht2]. unfold Arc__less, Tag__less, Tag__equal.
  rewrite Hf1, Ht1, Hf2, Ht2. simpl.
  destruct (id f1 <? id f2); simpl; trivial.
  destruct (id f1 =? id f2); reflexivity.
Qed.

(** What [Arc__create] returns on two tags that exist. *)
Lemma Arc__create_some (a b : Tag__Struct) (ta d tb q : double) :
  Arc__create (Some a) ta d (Some b) tb q =
  if id a >? id b
  then
    let arc := Arc__create_load (Some b) tb d (Some a) ta q in
    Ok (arc, [Tag__arc_append (Some b) arc; Tag__arc_append (Some a) arc;
              Map__arc_append (map b) arc])
  else
    let arc := Arc__create_load (Some a) ta d (Some b) tb q in
    Ok (arc, [Tag__arc_append (Some a) arc; Tag__arc_append (Some b) arc;
              Map__arc_append (map a) arc]).
Proof.
  unfold Arc__create. simpl. destruct (id a >? id b); reflexivity.
Qed.

Lemma Arc__create_ends (a b : Tag__Struct) (ta d tb q : double)
    (arc : Arc) (calls : list Call) :
  Arc__create (Some a) ta d (Some b) tb q = Ok (arc, calls) ->
  if id a >? id b then ends arc b a else ends arc a b.
Proof.
  rewrite Arc__create_some.
  destruct (id a >? id b); simpl; intros H; inversion H; subst;
    split; reflexivity.
Qed.

(** ** Equality of arcs *)

(** C7. [Arc__equal] is true exactly when the ids of the two from ends
    agree and the ids of the two to ends agree (from with from, to with
    to, never across). On arcs whose ends are set it always returns, and
    it is reflexive, symmetric and transitive. Two arcs created from the
    same two tags are equal whichever of the two tags is given first,
    whatever the measurements. *)
Theorem Arc__equal_pairwise_equivalence
    (arc1 arc2 arc3 : Arc) (f1 t1 f2 t2 f3 t3 : Tag__Struct)
    (E1 : ends arc1 f1 t1) (E2 : ends arc2 f2 t2) (E3 : ends arc3 f3 t3) :
  (Arc__equal arc1 arc2 = Ok true <-> id f1 = id f2 /\ id t1 = id t2) /\
  (Arc__equal arc1 arc2 = Ok false <-> ~ (id f1 = id f2 /\ id t1 = id t2)) /\
  Arc__equal arc1 arc1 = Ok true /\
  (Arc__equal arc1 arc2 = Ok true -> Arc__equal arc2 arc1 = Ok true) /\
  (Arc__equal arc1 arc2 = Ok true -> Arc__equal arc2 arc3 = Ok true ->
   Arc__equal arc1 arc3 = Ok true) /\
  (forall (ta tb d q ta' tb' d' q' : double),
    exists created1 calls1 created2 calls2,
      Arc__create (Some f1) ta d (Some t1) tb q = Ok (created1, calls1) /\
      Arc__create (Some t1) tb' d' (Some f1) ta' q' = Ok (created2, calls2) /\
      Arc__equal created1 created2 = Ok true).
Proof.
  rewrite (Arc__equal_ends _ _ _ _ _ _ E1 E2),
          (Arc__equal_ends _ _ _ _ _ _ E1 E1),
          (Arc__equal_ends _ _ _ _ _ _ E2 E1),
          (Arc__equal_ends _ _ _ _ _ _ E2 E3),
          (Arc__equal_ends _ _ _ _ _ _ E1 E3).
  assert (ok : forall b c : bool, Ok b = Ok c <-> b = c).
  { split; [intros H; injection H; trivial | intros ->; trivial]. }
  rewrite !ok.
  repeat split; try lia.
  - intros ta tb d q ta' tb' d' q'.
    rewrite (Arc__create_some f1 t1), (Arc__create_some t1 f1).
    destruct (id f1 >? id t1) eqn:G, (id t1 >? id f1) eqn:G'; simpl;
      do 4 eexists; (split; [reflexivity|]); (split; [reflexivity|]);
      unfold Arc__equal, Tag__equal; simpl.
    + lia.
    + rewrite !Z.eqb_refl. reflexivity.
    + rewrite !Z.eqb_refl. reflexivity.
    + assert (id f1 = id t1) as -> by lia. rewrite !Z.eqb_refl. reflexivity.
Qed.

(** An arc is equal to itself and differs from an arc to another tag. *)
Lemma Arc__equal_pairwise_equivalence_witness :
  ends arc_2_5 (tag_of_id 2) (tag_of_id 5) /\
  ends arc_2_7 (tag_of_id 2) (tag_of_id 7) /\
  Arc__equal arc_2_5 arc_2_5 = Ok true /\
  Arc__equal arc_2_5 arc_2_7 = Ok false.
Proof.
  assert (E5 : ends arc_2_5 (tag_of_id 2) (tag_of_id 5))
    by (split; reflexivity).
  assert (E7 : ends arc_2_7 (tag_of_id 2) (tag_of_id 7))
    by (split; reflexivity).
  pose proof (Arc__equal_pairwise_equivalence arc_2_5 arc_2_7 arc_2_5
                _ _ _ _ _ _ E5 E7 E5) as (_ & [_ Differ] & Refl & _).
  split; [exact E5|]. split; [exact E7|]. split; [exact Refl|].
  apply Differ. simpl. lia.
Defined.

(** ** The identity order of arcs *)

(** C6. [Arc__less] is the lexicographic order on the ids of the two
    ends, from end first. On arcs whose ends are set it always returns;
    it is irreflexive, asymmetric (hence antisymmetric) and transitive,
    total on arcs whose pairs of ids differ, and it reads nothing but the
    ids of the ends. *)
Theorem Arc__less_strict_total_order
    (arc1 arc2 arc3 : Arc) (f1 t1 f2 t2 f3 t3 : Tag__Struct)
    (E1 : ends arc1 f1 t1) (E2 : ends arc2 f2 t2) (E3 : ends arc3 f3 t3) :
  (Arc__less arc1 arc2 = Ok true <->
   id f1 < id f2 \/ id f1 = id f2 /\ id t1 < id t2) /\
  (Arc__less arc1 arc2 = Ok false <->
   ~ (id f1 < id f2 \/ id f1 = id f2 /\ id t1 < id t2)) /\
  Arc__less arc1 arc1 = Ok false /\
  (Arc__less arc1 arc2 = Ok true -> Arc__less arc2 arc1 = Ok false) /\
  (Arc__less arc1 arc2 = Ok true -> Arc__less arc2 arc3 = Ok true ->
   Arc__less arc1 arc3 = Ok true) /\
  ((id f1, id t1) <> (id f2, id t2) ->
   Arc__less arc1 arc2 = Ok true \/ Arc__less arc2 arc1 = Ok true) /\
  (forall (other1 other2 : Arc) (g1 u1 g2 u2 : Tag__Struct),
    ends other1 g1 u1 -> ends other2 g2 u2 ->
    id g1 = id f1 -> id u1 = id t1 -> id g2 = id f2 -> id u2 = id t2 ->
    Arc__less other1 other2 = Arc__less arc1 arc2).
Proof.
  rewrite (Arc__less_ends _ _ _ _ _ _ E1 E2),
          (Arc__less_ends _ _ _ _ _ _ E1 E1),
          (Arc__less_ends _ _ _ _ _ _ E2 E1),
          (Arc__less_ends _ _ _ _ _ _ E2 E3),
          (Arc__less_ends _ _ _ _ _ _ E1 E3).
  assert (ok : forall b c : bool, Ok b = Ok c <-> b = c).
  { split; [intros H; injection H; trivial | intros ->; trivial]. }
  rewrite !ok.
  repeat split; try lia.
  - intros H. destruct (Z.eq_dec (id f1) (id f2)) as [e|n]; [|lia].
    destruct (Z.eq_dec (id t1) (id t2)) as [e'|n']; [|lia].
    exfalso. apply H. congruence.
  - intros other1 other2 g1 u1 g2 u2 O1 O2 H1 H2 H3 H4.
    rewrite (Arc__less_ends _ _ _ _ _ _ O1 O2), H1, H2, H3, H4. reflexivity.
Qed.

(** The arc from 2 to 5 comes before the arc from 2 to 7, and not after. *)
Lemma Arc__less_strict_total_order_witness :
  ends arc_2_5 (tag_of_id 2) (tag_of_id 5) /\
  ends arc_2_7 (tag_of_id 2) (tag_of_id 7) /\
  Arc__less arc_2_5 arc_2_7 = Ok true /\
  Arc__less arc_2_7 arc_2_5 = Ok false.
Proof.
  assert (E5 : ends arc_2_5 (tag_of_id 2) (tag_of_id 5))
    by (split; reflexivity).
  assert (E7 : ends arc_2_7 (tag_of_id 2) (tag_of_id 7))
    by (split; reflexivity).
  pose proof (Arc__less_strict_total_order arc_2_5 arc_2_7 arc_2_5
                _ _ _ _ _ _ E5 E7 E5) as ([_ Less] & _).
  pose proof (Arc__less_strict_total_order arc_2_7 arc_2_5 arc_2_5
                _ _ _ _ _ _ E7 E5 E5) as (_ & [_ NotLess] & _).
  split; [exact E5|]. split; [exact E7|]. split.
  - apply Less. simpl. lia.
  - apply NotLess. simpl. lia.
Defined.

(** ** Canonical construction *)

(** C2, as stated, fails when the two tags have the same id: nothing is
    exchanged, the two ids of the arc are equal, and the two twists stay
    in the order given. *)
Lemma Arc__create_same_id_not_canonical :
  ~ create_canonical_symmetric (tag_of_id 7) (tag_of_id 7)
      (of_Z 1) (of_Z 2) (of_Z 3) (of_Z 50).
Proof.
  intros (arc & calls & arc' & calls' & H & _ & (f & t & [Hf Ht] & L) & _).
  rewrite Arc__create_some in H. simpl in H.
  inversion H; subst; clear H. simpl in Hf, Ht.
  inversion Hf; subst. inversion Ht; subst.
  simpl in L. lia.
Qed.

(** C2, amended. For two tags of different ids [Arc__create] returns an
    arc whose from id is strictly below its to id, and exchanging the two
    tags together with their twists gives the same arc: same ends, same
    twists, same distance and goodness. *)
Theorem Arc__create_canonical (a b : Tag__Struct) (ta d tb q : double)
    (D : id a <> id b) :
  create_canonical_symmetric a b ta d tb q.
Proof.
  unfold create_canonical_symmetric.
  rewrite (Arc__create_some a b), (Arc__create_some b a).
  destruct (id a >? id b) eqn:G, (id b >? id a) eqn:G'; simpl;
    try lia; do 4 eexists;
    (split; [reflexivity|]); (split; [reflexivity|]);
    (split; [|reflexivity]).
  - exists b, a. unfold ends. simpl. repeat split. lia.
  - exists a, b. unfold ends. simpl. repeat split. lia.
Qed.

(** The scenario of the specification: tag 5 given first, tag 2 second. *)
Lemma Arc__create_canonical_witness :
  create_canonical_symmetric (tag_of_id 5) (tag_of_id 2)
    (of_Z 30) (of_Z 2) (of_Z 10) (of_Z 50).
Proof.
  apply (Arc__create_canonical (tag_of_id 5) (tag_of_id 2)).
  simpl. lia.
Defined.

(** In every case the from id is at most the to id, and the measurements
    are stored as given. *)
Lemma Arc__create_ordered (a b : Tag__Struct) (ta d tb q : double) :
  exists arc calls f t,
    Arc__create (Some a) ta d (Some b) tb q = Ok (arc, calls) /\
    ends arc f t /\ id f <= id t /\
    distance arc = d /\ goodness arc = q.
Proof.
  rewrite Arc__create_some.
  destruct (id a >? id b) eqn:G; simpl.
  - do 2 eexists. exists b, a. unfold ends. simpl. repeat split. lia.
  - do 2 eexists. exists a, b. unfold ends. simpl. repeat split. lia.
Qed.

(** ** The update *)

Lemma Arc__update_ok (arc : Arc) (f t : Tag__Struct) (ft d tt g : double) :
  ends arc f t -> id f < id t -> gtb d zero = true ->
  Arc__update arc ft d tt g = Ok (loaded arc ft d tt g).
Proof.
  intros [Hf Ht] L P. unfold Arc__update. rewrite Hf, Ht. simpl.
  apply Z.ltb_lt in L. rewrite L, P. simpl.
  unfold loaded. rewrite Hf, Ht. reflexivity.
Qed.

Lemma Arc__update_inv (arc arc' : Arc) (ft d tt g : double) :
  Arc__update arc ft d tt g = Ok arc' ->
  exists f t,
    ends arc f t /\ id f < id t /\ gtb d zero = true /\
    arc' = loaded arc ft d tt g.
Proof.
  unfold Arc__update, ends, loaded.
  destruct (from_tag arc) as [f|] eqn:Hf; simpl; try discriminate.
  destruct (to_tag arc) as [t|] eqn:Ht; simpl; try discriminate.
  destruct (id f <? id t) eqn:L; simpl; try discriminate.
  destruct (gtb d zero) eqn:P; simpl; try discriminate.
  intros H. inversion H. exists f, t. apply Z.ltb_lt in L. auto.
Qed.

(** C8. A call of [Arc__update] that returns has overwritten the two
    twists, the distance and the goodness and nothing else. On an arc
    whose ends are set it stops on a failed assertion when the incoming
    distance is [<= 0] or when the from id is not below the to id, and it
    returns when the distance is [> 0] and the from id is below the to
    id. *)
Theorem Arc__update_overwrites_or_asserts
    (arc : Arc) (f t : Tag__Struct) (ft d tt g : double)
    (E : ends arc f t) :
  (forall arc', Arc__update arc ft d tt g = Ok arc' ->
     from_twist arc' = ft /\ distance arc' = d /\
     to_twist arc' = tt /\ goodness arc' = g /\
     from_tag arc' = from_tag arc /\ to_tag arc' = to_tag arc /\
     in_tree arc' = in_tree arc /\ visit arc' = visit arc) /\
  (leb d zero = true \/ id f >= id t ->
     exists expression,
       Arc__update arc ft d tt g = Stop (Assertion_failed expression)) /\
  (gtb d zero = true -> id f < id t ->
     Arc__update arc ft d tt g = Ok (loaded arc ft d tt g)).
Proof.
  repeat split.
  1-8: apply Arc__update_inv in H; destruct H as (? & ? & _ & _ & _ & ->);
    reflexivity.
  - intros H. destruct E as [Hf Ht]. unfold Arc__update.
    rewrite Hf, Ht. simpl.
    destruct (id f <? id t) eqn:L; simpl; [|eauto].
    destruct H as [H|H]; [|apply Z.ltb_lt in L; lia].
    rewrite (DoubleFacts.leb_not_gtb _ _ H). simpl. eauto.
  - intros P L. exact (Arc__update_ok arc f t ft d tt g E L P).
Qed.

Lemma Arc__update_overwrites_or_asserts_witness :
  ends arc_2_5 (tag_of_id 2) (tag_of_id 5) /\
  leb (of_Z 0) zero = true /\
  gtb (of_Z 4) zero = true /\
  (exists expression,
     Arc__update arc_2_5 zero (of_Z 0) zero (of_Z 10) =
     Stop (Assertion_failed expression)) /\
  Arc__update arc_2_5 zero (of_Z 4) zero (of_Z 10) =
  Ok (loaded arc_2_5 zero (of_Z 4) zero (of_Z 10)).
Proof.
  assert (E : ends arc_2_5 (tag_of_id 2) (tag_of_id 5))
    by (split; reflexivity).
  split; [exact E|]. split; [reflexivity|]. split; [reflexivity|]. split.
  - apply (proj1 (proj2 (Arc__update_overwrites_or_asserts
      arc_2_5 (tag_of_id 2) (tag_of_id 5) zero (of_Z 0) zero (of_Z 10) E))).
    left. reflexivity.
  - apply (proj2 (proj2 (Arc__update_overwrites_or_asserts
      arc_2_5 (tag_of_id 2) (tag_of_id 5) zero (of_Z 4) zero (of_Z 10) E))).
    + reflexivity.
    + simpl. lia.
Defined.

(** [Arc__update] itself does not look at the goodness: the gate is the
    test that [Arc__read] makes before it calls [Arc__update]. Here an arc
    of goodness 50 takes goodness 80. *)
Lemma Arc__update_has_no_gate :
  goodness arc_2_5 = of_Z 50 /\
  exists arc',
    Arc__update arc_2_5 zero (of_Z 4) zero (of_Z 80) = Ok arc' /\
    goodness arc' = of_Z 80.
Proof. split; [reflexivity|]. eexists. split; reflexivity. Qed.

(** ** The goodness-gated load of [Arc__read] *)

Section ReadFacts.

Variable tag_lookup : Map -> Z -> Tag.
Variable arc_lookup : Map -> Tag -> Tag -> Arc.
Variable in_file : Arc__Attributes.
Variable map0 : Map.

Let arc := stored_arc tag_lookup arc_lookup in_file map0.
Let read := Arc__read tag_lookup arc_lookup in_file map0.

Lemma Arc__read_closed_gate :
  gtb (goodness arc) (Goodness in_file) = false -> read = Ok (arc, []).
Proof.
  intros G. unfold read, Arc__read. fold arc. cbv zeta.
  unfold stored_arc in arc. fold arc. rewrite G. reflexivity.
Qed.

Lemma Arc__read_open_gate (f t : Tag__Struct) :
  gtb (goodness arc) (Goodness in_file) = true ->
  ends arc f t -> id f < id t -> gtb (Distance in_file) zero = true ->
  read = Ok (merged arc in_file, [Map__arc_announce map0 (merged arc in_file)]).
Proof.
  intros G E L P. unfold read, Arc__read. cbv zeta.
  unfold stored_arc in arc. fold arc. rewrite G.
  rewrite (Arc__update_ok arc f t _ _ _ _ E L P). reflexivity.
Qed.

Lemma Arc__read_inv (arc' : Arc) (calls : list Call) :
  read = Ok (arc', calls) ->
  gtb (goodness arc) (Goodness in_file) = false /\
    arc' = arc /\ calls = []
  \/
  gtb (goodness arc) (Goodness in_file) = true /\
    gtb (Distance in_file) zero = true /\
    (exists f t, ends arc f t /\ id f < id t) /\
    arc' = merged arc in_file /\
    calls = [Map__arc_announce map0 (merged arc in_file)].
Proof.
  unfold read, Arc__read. cbv zeta.
  unfold stored_arc in arc. fold arc.
  destruct (gtb (goodness arc) (Goodness in_file)) eqn:G.
  - destruct (Arc__update arc _ _ _ _) as [arc1|] eqn:U; simpl;
      try discriminate.
    apply Arc__update_inv in U. destruct U as (f & t & E & L & P & ->).
    intros H. inversion H. right. repeat split; trivial.
    exists f, t. auto.
  - intros H. inversion H. left. auto.
Qed.

End ReadFacts.

(** C1. [Arc__read] loads the record into the arc it looks up only when
    the goodness of the record is strictly below the stored one. Whenever
    it returns, the stored goodness is the smaller of the old one and the
    one of the record; when the goodness of the record is [>=] the old
    one the arc is returned as it was, no field changed; an arc that was
    changed had a strictly smaller goodness offered. It does return when
    the gate is closed, and when the gate is open on an arc with ordered
    ends and a positive distance in the record. *)
Theorem Arc__read_merge_gate
    (tag_lookup : Map -> Z -> Tag) (arc_lookup : Map -> Tag -> Tag -> Arc)
    (in_file : Arc__Attributes) (map0 : Map) (arc : Arc)
    (Stored : stored_arc tag_lookup arc_lookup in_file map0 = arc) :
  let q := Goodness in_file in
  let read := Arc__read tag_lookup arc_lookup in_file map0 in
  (forall arc' calls, read = Ok (arc', calls) ->
     goodness arc' = min (goodness arc) q) /\
  (geb q (goodness arc) = true -> read = Ok (arc, [])) /\
  (forall arc' calls, read = Ok (arc', calls) -> arc' <> arc ->
     ltb q (goodness arc) = true) /\
  (forall f t, ltb q (goodness arc) = true ->
     ends arc f t -> id f < id t -> gtb (Distance in_file) zero = true ->
     exists arc', read = Ok (arc', [Map__arc_announce map0 arc']) /\
       goodness arc' = q).
Proof.
  intros q read. subst arc. repeat split.
  - intros arc' calls H. apply Arc__read_inv in H. unfold min, ltb.
    fold q in H. unfold gtb in H.
    destruct H as [(G & -> & _) | (G & _ & _ & -> & _)]; rewrite G;
      reflexivity.
  - intros H. apply Arc__read_closed_gate.
    apply DoubleFacts.geb_not_gtb. exact H.
  - intros arc' calls H N. apply Arc__read_inv in H.
    destruct H as [(_ & -> & _) | (G & _)]; [contradiction | exact G].
  - intros f t G E L P. eexists. split.
    + exact (Arc__read_open_gate _ _ _ _ f t G E L P).
    + reflexivity.
Qed.

(** The scenario of the specification: an arc of goodness 50 is offered
    goodness 80, then goodness 10 with distance 1.5. *)
Lemma Arc__read_merge_gate_witness :
  Arc__read lookup_tag (lookup_arc arc_2_5) (record_2_5 (of_Z 4) (of_Z 80) 1) 0
    = Ok (arc_2_5, []) /\
  exists arc',
    Arc__read lookup_tag (lookup_arc arc_2_5)
      (record_2_5 (div (of_Z 3) (of_Z 2)) (of_Z 10) 1) 0
      = Ok (arc', [Map__arc_announce 0 arc']) /\
    goodness arc' = of_Z 10.
Proof.
  split.
  - apply (Arc__read_merge_gate lookup_tag (lookup_arc arc_2_5)
             (record_2_5 (of_Z 4) (of_Z 80) 1) 0 arc_2_5 eq_refl).
    reflexivity.
  - apply (Arc__read_merge_gate lookup_tag (lookup_arc arc_2_5)
             (record_2_5 (div (of_Z 3) (of_Z 2)) (of_Z 10) 1) 0 arc_2_5
             eq_refl) with (f := tag_of_id 2) (t := tag_of_id 5).
    + reflexivity.
    + split; reflexivity.
    + simpl. lia.
    + reflexivity.
Defined.

(** C10. When the goodness of the record is not strictly below the
    stored one, [Arc__read] returns the arc as it was: [in_tree] keeps its
    value whatever the [In_Tree] attribute says, and the map is not told.
    [in_tree] is set from the record, and [Map__arc_announce] is called,
    exactly when the gate is passed. *)
Theorem Arc__read_in_tree_frame
    (tag_lookup : Map -> Z -> Tag) (arc_lookup : Map -> Tag -> Tag -> Arc)
    (in_file : Arc__Attributes) (map0 : Map) (arc : Arc)
    (Stored : stored_arc tag_lookup arc_lookup in_file map0 = arc) :
  let q := Goodness in_file in
  let read := Arc__read tag_lookup arc_lookup in_file map0 in
  (gtb (goodness arc) q = false -> read = Ok (arc, [])) /\
  (forall arc' calls, read = Ok (arc', calls) ->
     gtb (goodness arc) q = false ->
     in_tree arc' = in_tree arc /\ calls = []) /\
  (forall arc' calls, read = Ok (arc', calls) ->
     gtb (goodness arc) q = true ->
     in_tree arc' = to_bool (In_Tree in_file) /\
     calls = [Map__arc_announce map0 arc']) /\
  (forall arc' calls, read = Ok (arc', calls) ->
     ((exists a, In (Map__arc_announce map0 a) calls) <->
      gtb (goodness arc) q = true)) /\
  (forall f t, gtb (goodness arc) q = true ->
     ends arc f t -> id f < id t -> gtb (Distance in_file) zero = true ->
     exists arc', read = Ok (arc', [Map__arc_announce map0 arc']) /\
       in_tree arc' = to_bool (In_Tree in_file)).
Proof.
  intros q read. subst arc. repeat split.
  - apply Arc__read_closed_gate.
  - apply Arc__read_inv in H. fold q in H.
    destruct H as [(_ & -> & _) | (G & _)]; [reflexivity | congruence].
  - apply Arc__read_inv in H. fold q in H.
    destruct H as [(_ & _ & ->) | (G & _)]; [reflexivity | congruence].
  - apply Arc__read_inv in H. fold q in H.
    destruct H as [(G & _) | (_ & _ & _ & -> & _)];
      [congruence | reflexivity].
  - apply Arc__read_inv in H. fold q in H.
    destruct H as [(G & _) | (_ & _ & _ & -> & ->)];
      [congruence | reflexivity].
  - intros [a I]. apply Arc__read_inv in H. fold q in H.
    destruct H as [(_ & _ & ->) | (G & _)]; [destruct I | exact G].
  - intros G. apply Arc__read_inv in H. fold q in H.
    destruct H as [(G' & _) | (_ & _ & _ & _ & ->)]; [congruence|].
    eexists. left. reflexivity.
  - intros f t G E L P. eexists. split.
    + exact (Arc__read_open_gate _ _ _ _ f t G E L P).
    + reflexivity.
Qed.

(** The stored arc is not in the tree and has goodness 50; a record of
    goodness 80 that says [In_Tree=1] leaves it out of the tree, a record
    of goodness 10 puts it in. *)
Lemma Arc__read_in_tree_frame_witness :
  (in_tree arc_2_5 = false /\
   Arc__read lookup_tag (lookup_arc arc_2_5) (record_2_5 (of_Z 4) (of_Z 80) 1) 0
     = Ok (arc_2_5, [])) /\
  exists arc',
    Arc__read lookup_tag (lookup_arc arc_2_5)
      (record_2_5 (of_Z 4) (of_Z 10) 1) 0
      = Ok (arc', [Map__arc_announce 0 arc']) /\
    in_tree arc' = true.
Proof.
  split.
  - split; [reflexivity|].
    apply (Arc__read_in_tree_frame lookup_tag (lookup_arc arc_2_5)
             (record_2_5 (of_Z 4) (of_Z 80) 1) 0 arc_2_5 eq_refl).
    reflexivity.
  - apply (Arc__read_in_tree_frame lookup_tag (lookup_arc arc_2_5)
             (record_2_5 (of_Z 4) (of_Z 10) 1) 0 arc_2_5 eq_refl)
      with (f := tag_of_id 2) (t := tag_of_id 5).
    + reflexivity.
    + split; reflexivity.
    + simpl. lia.
    + reflexivity.
Defined.

(** ** The distance of an arc *)

(** C3, as stated, fails on the arc that [Arc__new] returns: its
    distance is [-1.0]. *)
Lemma Arc__new_distance_not_positive :
  ~ (gtb (distance (Arc__new "Arc__create:Arc__new:arc")) zero = true).
Proof. vm_compute. discriminate. Qed.

(** [Arc__create] checks nothing either: it stores the distance given. *)
Lemma Arc__create_distance_not_positive :
  exists arc calls,
    Arc__create (Some (tag_of_id 2)) zero (of_Z (-5))
                (Some (tag_of_id 5)) zero (of_Z 50) = Ok (arc, calls) /\
    gtb (distance arc) zero = false.
Proof. do 2 eexists. split; reflexivity. Qed.

(** C3, amended. The distance of an arc is strictly positive once
    [Arc__update] has returned on it, and [Arc__read] keeps a strictly
    positive distance strictly positive; [Arc__create] stores the distance
    it is given, so its arc has a positive distance exactly when it was
    given one. *)
Theorem distance_positive_after_update
    (arc : Arc) (ft d tt g : double)
    (tag_lookup : Map -> Z -> Tag) (arc_lookup : Map -> Tag -> Tag -> Arc)
    (in_file : Arc__Attributes) (map0 : Map)
    (a b : Tag__Struct) (ta tb : double) :
  (forall arc', Arc__update arc ft d tt g = Ok arc' ->
     gtb (distance arc') zero = true) /\
  (forall arc' calls,
     Arc__read tag_lookup arc_lookup in_file map0 = Ok (arc', calls) ->
     gtb (distance (stored_arc tag_lookup arc_lookup in_file map0)) zero
       = true ->
     gtb (distance arc') zero = true) /\
  (exists arc' calls,
     Arc__create (Some a) ta d (Some b) tb g = Ok (arc', calls) /\
     distance arc' = d).
Proof.
  repeat split.
  - intros arc' H. apply Arc__update_inv in H.
    destruct H as (_ & _ & _ & _ & P & ->). exact P.
  - intros arc' calls H P. apply Arc__read_inv in H.
    destruct H as [(_ & -> & _) | (_ & P' & _ & -> & _)]; assumption.
  - destruct (Arc__create_ordered a b ta d tb g)
      as (arc' & calls & _ & _ & H & _ & _ & D & _).
    exists arc', calls. auto.
Qed.

Lemma distance_positive_after_update_witness :
  Arc__update arc_2_5 zero (of_Z 4) zero (of_Z 10)
    = Ok (loaded arc_2_5 zero (of_Z 4) zero (of_Z 10)) /\
  gtb (distance (loaded arc_2_5 zero (of_Z 4) zero (of_Z 10))) zero = true.
Proof.
  assert (U : Arc__update arc_2_5 zero (of_Z 4) zero (of_Z 10)
              = Ok (loaded arc_2_5 zero (of_Z 4) zero (of_Z 10)))
    by reflexivity.
  split; [exact U|].
  exact (proj1 (distance_positive_after_update arc_2_5 zero (of_Z 4) zero
                  (of_Z 10) lookup_tag (lookup_arc arc_2_5)
                  (record_2_5 (of_Z 4) (of_Z 10) 1) 0
                  (tag_of_id 2) (tag_of_id 5) zero zero) _ U).
Defined.

(** ** The growth order of arcs *)

Lemma std_min_spec (a b : Z) : std_min a b = Z.min a b.
Proof. unfold std_min. destruct (b <? a) eqn:L; lia. Qed.

(** C4. On two arcs whose ends are set [Arc__distance_less] returns, and
    it returns true exactly when the first distance is the larger one, or
    the two distances are equal and the smaller hop count of the ends of
    the first arc is larger than that of the second; nothing else is
    compared. *)
Theorem Arc__distance_less_rule
    (arc1 arc2 : Arc) (f1 t1 f2 t2 : Tag__Struct)
    (E1 : ends arc1 f1 t1) (E2 : ends arc2 f2 t2) :
  let rule :=
    gtb (distance arc1) (distance arc2) = true \/
    eqb (distance arc1) (distance arc2) = true /\
    Z.min (hop_count f1) (hop_count t1) > Z.min (hop_count f2) (hop_count t2)
  in
  (Arc__distance_less arc1 arc2 = Ok true <-> rule) /\
  (Arc__distance_less arc1 arc2 = Ok false <-> ~ rule).
Proof.
  destruct E1 as [Hf1 Ht1], E2 as [Hf2 Ht2].
  unfold Arc__distance_less. rewrite Hf1, Ht1, Hf2, Ht2. simpl.
  rewrite !std_min_spec.
  destruct (gtb (distance arc1) (distance arc2)) eqn:G.
  { intuition discriminate. }
  destruct (eqb (distance arc1) (distance arc2)) eqn:Q.
  2: { intuition discriminate. }
  destruct (Z.gtb_spec (Z.min (hop_count f1) (hop_count t1))
                       (Z.min (hop_count f2) (hop_count t2))) as [L|L].
  - assert (Z.min (hop_count f1) (hop_count t1)
            > Z.min (hop_count f2) (hop_count t2)) by lia.
    intuition discriminate.
  - intuition (try discriminate; try lia).
Qed.

(** The examples of the specification: distance 10 before distance 5
    whatever the hop counts; at distance 7, smallest hop count 3 before
    smallest hop count 1; and no order between equals. *)
Lemma Arc__distance_less_rule_witness :
  Arc__distance_less (arc_of_hops (of_Z 10) 0 0) (arc_of_hops (of_Z 5) 9 9)
    = Ok true /\
  Arc__distance_less (arc_of_hops (of_Z 7) 3 4) (arc_of_hops (of_Z 7) 8 1)
    = Ok true /\
  Arc__distance_less (arc_of_hops (of_Z 7) 3 4) (arc_of_hops (of_Z 7) 5 3)
    = Ok false.
Proof.
  split; [|split].
  - apply (Arc__distance_less_rule
             (arc_of_hops (of_Z 10) 0 0) (arc_of_hops (of_Z 5) 9 9)
             (tag_of_hops 1 0) (tag_of_hops 2 0)
             (tag_of_hops 1 9) (tag_of_hops 2 9));
      [split; reflexivity | split; reflexivity |].
    left. reflexivity.
  - apply (Arc__distance_less_rule
             (arc_of_hops (of_Z 7) 3 4) (arc_of_hops (of_Z 7) 8 1)
             (tag_of_hops 1 3) (tag_of_hops 2 4)
             (tag_of_hops 1 8) (tag_of_hops 2 1));
      [split; reflexivity | split; reflexivity |].
    right. split; [reflexivity | simpl; lia].
  - apply (Arc__distance_less_rule
             (arc_of_hops (of_Z 7) 3 4) (arc_of_hops (of_Z 7) 5 3)
             (tag_of_hops 1 3) (tag_of_hops 2 4)
             (tag_of_hops 1 5) (tag_of_hops 2 3));
      [split; reflexivity | split; reflexivity |].
    intros [H|[_ H]]; [discriminate | simpl in H; lia].
Defined.

(** ** Drawing *)

(** C9. On an arc whose ends are set [Arc__svg_write] makes one call, of
    [SVG__line], from the position of the from tag to the position of the
    to tag, in a colour fixed by [in_tree] alone: red in the tree, green
    out of it. Two arcs with the same [in_tree] and the same end positions
    are drawn the same, whatever their other fields. *)
Theorem Arc__svg_write_line
    (arc1 arc2 : Arc) (f1 t1 f2 t2 : Tag__Struct)
    (E1 : ends arc1 f1 t1) (E2 : ends arc2 f2 t2) :
  Arc__svg_write arc1 =
    Ok (tt, [SVG__line (x f1) (y f1) (x t1) (y t1) (color_of (in_tree arc1))])
  /\ color_of true <> color_of false
  /\ (in_tree arc1 = in_tree arc2 ->
      x f1 = x f2 -> y f1 = y f2 -> x t1 = x t2 -> y t1 = y t2 ->
      Arc__svg_write arc1 = Arc__svg_write arc2).
Proof.
  destruct E1 as [Hf1 Ht1], E2 as [Hf2 Ht2].
  unfold Arc__svg_write. rewrite Hf1, Ht1, Hf2, Ht2. simpl.
  repeat split.
  - discriminate.
  - intros -> -> -> -> ->. reflexivity.
Qed.

(** Two arcs that agree on [in_tree] and on the positions of their ends
    and on nothing else are drawn by the same call. *)
Lemma Arc__svg_write_line_witness :
  let arc1 :=
    set_in_tree
      (Arc__create_load (Some (tag_at 2 (of_Z 1) (of_Z 2) 0 0)) (of_Z 1)
         (of_Z 2) (Some (tag_at 5 (of_Z 3) (of_Z 4) 0 0)) (of_Z 3) (of_Z 50))
      true in
  let arc2 :=
    set_in_tree
      (Arc__create_load (Some (tag_at 7 (of_Z 1) (of_Z 2) 4 1)) (of_Z 9)
         (of_Z 8) (Some (tag_at 9 (of_Z 3) (of_Z 4) 6 1)) (of_Z 7) (of_Z 6))
      true in
  arc1 <> arc2 /\
  Arc__svg_write arc1 =
    Ok (tt, [SVG__line (of_Z 1) (of_Z 2) (of_Z 3) (of_Z 4) "red"]) /\
  Arc__svg_write arc1 = Arc__svg_write arc2.
Proof.
  intros arc1 arc2.
  pose proof (Arc__svg_write_line arc1 arc2
                (tag_at 2 (of_Z 1) (of_Z 2) 0 0)
                (tag_at 5 (of_Z 3) (of_Z 4) 0 0)
                (tag_at 7 (of_Z 1) (of_Z 2) 4 1)
                (tag_at 9 (of_Z 3) (of_Z 4) 6 1)
                (conj eq_refl eq_refl) (conj eq_refl eq_refl))
    as (Line & _ & Same).
  split; [discriminate|]. split; [exact Line|].
  apply Same; reflexivity.
Defined.

(** ** Rounding through the text

    What the six decimals of [%f] and the reading back do to a value. *)

Module RoundingText.

Import Rounding.

(** The rounded quotient is within half a unit of the quotient. *)
Lemma round_half_even_spec (N D : Z) :
  0 <= N -> 0 < D ->
  0 <= round_half_even N D /\
  2 * Z.abs (round_half_even N D * D - N) <= D.
Proof.
  intros HN HD. unfold round_half_even.
  pose proof (Z.div_mod N D ltac:(lia)) as E.
  pose proof (Z.mod_pos_bound N D HD) as B.
  pose proof (Z.div_pos N D HN HD) as Q.
  set (q := N / D) in *. set (r := N mod D) in *.
  assert (X : q * D = N - r) by lia.
  assert (Y : (q + 1) * D = N - r + D) by lia.
  destruct (Z.compare_spec (2 * r) D) as [C|C|C];
    [destruct (Z.even q)| |]; rewrite ?X, ?Y; lia.
Qed.

(** The number written is within half a millionth of the value. *)
Lemma micro_of_spec (m : positive) (e K : Z) :
  0 <= K -> - K <= e ->
  0 <= micro_of m e /\
  2 * Z.abs (micro_of m e * 2 ^ K - 10 ^ 6 * (Zpos m * 2 ^ (e + K))) <= 2 ^ K.
Proof.
  intros PK HK. unfold micro_of. destruct e as [|p|p].
  - rewrite Z.add_0_l. change (2 ^ 0) with 1.
    assert (0 < 2 ^ K) by (apply Z.pow_pos_nonneg; lia).
    split; [lia|].
    replace (Zpos m * 1 * 10 ^ 6 * 2 ^ K - 10 ^ 6 * (Zpos m * 2 ^ K))
      with 0 by ring. change (Z.abs 0) with 0. lia.
  - assert (0 < 2 ^ Zpos p) by (apply Z.pow_pos_nonneg; lia).
    assert (0 < 2 ^ K) by (apply Z.pow_pos_nonneg; lia).
    split; [lia|].
    rewrite Z.pow_add_r by lia.
    replace (Zpos m * 2 ^ Zpos p * 10 ^ 6 * 2 ^ K
             - 10 ^ 6 * (Zpos m * (2 ^ Zpos p * 2 ^ K)))
      with 0 by ring. change (Z.abs 0) with 0. lia.
  - set (D := 2 ^ Zpos p). set (N := Zpos m * 10 ^ 6).
    assert (PD : 0 < D) by (apply Z.pow_pos_nonneg; lia).
    destruct (round_half_even_spec N D ltac:(unfold N; lia) PD) as [P R].
    split; [exact P|].
    set (n := round_half_even N D) in *.
    set (G := 2 ^ (Zneg p + K)).
    assert (PG : 0 < G) by (apply Z.pow_pos_nonneg; lia).
    assert (DG : 2 ^ K = D * G).
    { unfold D, G. rewrite <- Z.pow_add_r by lia. f_equal. lia. }
    rewrite DG.
    replace (n * (D * G) - 10 ^ 6 * (Zpos m * G)) with ((n * D - N) * G)
      by (unfold N; ring).
    rewrite Z.abs_mul, (Z.abs_eq G) by lia.
    clearbody n N D G. nia.
Qed.

Lemma round_half_even_cases (N D : Z) :
  round_half_even N D = N / D \/ round_half_even N D = N / D + 1.
Proof.
  unfold round_half_even.
  destruct (2 * (N mod D) ?= D); [destruct (Z.even (N / D)) | |]; auto.
Qed.

(** Halving the unit: the quotient and the remainder by [2 * Y]. *)
Lemma div_mod_twice (X Y : Z) :
  0 <= X -> 0 < Y ->
  X / (2 * Y) = X / Y / 2 /\
  X mod (2 * Y) = (X / Y) mod 2 * Y + X mod Y.
Proof.
  intros HX HY.
  pose proof (Z.div_mod X Y ltac:(lia)) as E.
  pose proof (Z.mod_pos_bound X Y HY) as B.
  pose proof (Z.div_mod (X / Y) 2 ltac:(lia)) as E2.
  pose proof (Z.mod_pos_bound (X / Y) 2 ltac:(lia)) as B2.
  set (q := X / Y) in *. set (r := X mod Y) in *.
  set (h := q / 2) in *. set (b := q mod 2) in *.
  assert (R : 0 <= b * Y + r < 2 * Y) by nia.
  assert (D : X = 2 * Y * h + (b * Y + r)) by nia.
  clearbody q r h b.
  split; symmetry.
  - apply (Z.div_unique X (2 * Y) h (b * Y + r)); [left; exact R | exact D].
  - apply (Z.mod_unique X (2 * Y) h (b * Y + r)); [left; exact R | exact D].
Qed.

(** What the round and sticky bits say about the remainder. *)
Lemma located_remainder (X Y : Z) (mrs : shr_record) :
  0 < Y -> located X Y mrs ->
  0 <= X mod Y < Y /\
  (orb (shr_r mrs) (shr_s mrs) = false <-> X mod Y = 0) /\
  (shr_r mrs = false -> 2 * (X mod Y) < Y) /\
  (shr_r mrs = true -> shr_s mrs = false -> 2 * (X mod Y) = Y) /\
  (shr_r mrs = true -> shr_s mrs = true -> Y < 2 * (X mod Y)).
Proof.
  intros HY [_ L]. pose proof (Z.mod_pos_bound X Y HY) as B.
  split; [exact B|]. unfold location_of in L.
  destruct mrs as [m r st]. cbn [shr_r shr_s loc_of_shr_record] in *.
  destruct (Z.eqb_spec (X mod Y) 0) as [Z0|NZ].
  - destruct r, st; try discriminate. rewrite Z0. cbn [orb].
    repeat split; intros; try discriminate; lia.
  - destruct (Z.compare_spec (2 * (X mod Y)) Y) as [C|C|C];
      destruct r, st; try discriminate; cbn [orb];
      repeat split; intros; try discriminate; try lia.
Qed.

(** One shift to the right keeps the record on the quotient. *)
Lemma shr_1_located (X Y : Z) (mrs : shr_record) :
  0 <= X -> 0 < Y -> located X Y mrs -> located X (2 * Y) (shr_1 mrs).
Proof.
  intros HX HY L.
  destruct (located_remainder X Y mrs HY L) as (B & S0 & R0 & R1 & R2).
  destruct L as [Lm _].
  destruct (div_mod_twice X Y HX HY) as [Dq Dr].
  pose proof (Z.div_pos X Y HX HY) as Pq.
  unfold located, location_of. rewrite Dq, Dr. rewrite <- Lm in *.
  clear Dq Dr Lm.
  set (r := X mod Y) in *. clearbody r. clear HX.
  destruct mrs as [m rd st]. cbn [shr_m shr_r shr_s] in *.
  assert (Hm : shr_m (shr_1 {| shr_m := m; shr_r := rd; shr_s := st |}) = m / 2
               /\ shr_r (shr_1 {| shr_m := m; shr_r := rd; shr_s := st |})
                  = Z.odd m
               /\ shr_s (shr_1 {| shr_m := m; shr_r := rd; shr_s := st |})
                  = orb rd st).
  { destruct m as [|[p|p|]|p]; cbn [shr_1 shr_m shr_r shr_s]; try lia;
      repeat split.
    - rewrite (Pos2Z.inj_xI p). apply Z.div_unique with 1; lia.
    - rewrite (Pos2Z.inj_xO p). apply Z.div_unique with 0; lia. }
  destruct Hm as (H1 & H2 & H3).
  destruct (shr_1 {| shr_m := m; shr_r := rd; shr_s := st |}) as [m' r' s'].
  cbn [shr_m shr_r shr_s loc_of_shr_record] in *.
  split; [exact H1|].
  rewrite (Zmod_odd m). subst r' s'.
  destruct (Z.odd m).
  - rewrite Z.mul_1_l.
    destruct (Z.eqb_spec (Y + r) 0) as [Z0|NZ]; [lia|].
    destruct (orb rd st) eqn:O.
    + assert (r <> 0) by (intros Z0; apply S0 in Z0; congruence).
      destruct (Z.compare_spec (2 * (Y + r)) (2 * Y));
        [lia | lia | reflexivity].
    + assert (r = 0) by (apply S0; reflexivity).
      destruct (Z.compare_spec (2 * (Y + r)) (2 * Y));
        [reflexivity | lia | lia].
  - rewrite Z.mul_0_l, Z.add_0_l.
    destruct (orb rd st) eqn:O.
    + assert (r <> 0) by (intros Z0; apply S0 in Z0; congruence).
      destruct (Z.eqb_spec r 0) as [Z0|NZ]; [lia|].
      destruct (Z.compare_spec (2 * r) (2 * Y)); [lia | reflexivity | lia].
    + assert (r = 0) by (apply S0; reflexivity).
      destruct (Z.eqb_spec r 0) as [Z0|NZ]; [reflexivity | lia].
Qed.

Lemma iter_pos_shr_located (p : positive) :
  forall X Y mrs, 0 <= X -> 0 < Y -> located X Y mrs ->
  located X (Y * 2 ^ Zpos p) (iter_pos shr_1 p mrs).
Proof.
  induction p as [p IH|p IH|]; intros X Y mrs HX HY L; simpl iter_pos.
  - assert (P : 0 < 2 ^ Zpos p) by (apply Z.pow_pos_nonneg; lia).
    pose proof (shr_1_located X Y mrs HX HY L) as L1.
    pose proof (IH X (2 * Y) _ HX ltac:(lia) L1) as L2.
    pose proof (IH X (2 * Y * 2 ^ Zpos p) _ HX ltac:(nia) L2) as L3.
    replace (Y * 2 ^ Zpos p~1) with (2 * Y * 2 ^ Zpos p * 2 ^ Zpos p);
      [exact L3|].
    rewrite (Pos2Z.inj_xI p).
    replace (2 * Zpos p + 1) with (Zpos p + Zpos p + 1) by lia.
    rewrite !Z.pow_add_r by lia. change (2 ^ 1) with 2. ring.
  - assert (P : 0 < 2 ^ Zpos p) by (apply Z.pow_pos_nonneg; lia).
    pose proof (IH X Y _ HX HY L) as L2.
    pose proof (IH X (Y * 2 ^ Zpos p) _ HX ltac:(nia) L2) as L3.
    replace (Y * 2 ^ Zpos p~0) with (Y * 2 ^ Zpos p * 2 ^ Zpos p);
      [exact L3|].
    rewrite (Pos2Z.inj_xO p).
    replace (2 * Zpos p) with (Zpos p + Zpos p) by lia.
    rewrite !Z.pow_add_r by lia. ring.
  - replace (Y * 2 ^ 1) with (2 * Y) by (change (2 ^ 1) with 2; ring).
    apply shr_1_located; assumption.
Qed.

(** Rounding a located record is rounding the quotient. *)
Lemma round_nearest_even_located (X Y : Z) (mrs : shr_record) :
  0 < Y -> located X Y mrs ->
  round_nearest_even (shr_m mrs) (loc_of_shr_record mrs)
  = round_half_even X Y.
Proof.
  intros HY [Lm Ll]. rewrite Lm, Ll. unfold location_of, round_half_even.
  destruct (Z.eqb_spec (X mod Y) 0) as [Z0|NZ].
  - rewrite Z0. destruct Y; [lia | reflexivity | lia].
  - destruct (2 * (X mod Y) ?= Y); reflexivity.
Qed.

(** One [shr_fexp] on a quotient [X / Y] with its location. *)
Lemma shr_fexp_located (X Y e : Z) :
  0 <= X -> 0 < Y ->
  let q := X / Y in
  let e1 := Z.max e (fexp prec emax (Zdigits2 q + e)) in
  snd (shr_fexp prec emax q e (location_of X Y)) = e1 /\
  located X (Y * 2 ^ (e1 - e))
    (fst (shr_fexp prec emax q e (location_of X Y))).
Proof.
  intros HX HY q e1. unfold shr_fexp, shr.
  assert (L0 : located X Y (shr_record_of_loc q (location_of X Y))).
  { split.
    - destruct (location_of X Y) as [|[]]; reflexivity.
    - destruct (location_of X Y) as [|[]]; reflexivity. }
  fold q in e1.
  destruct (fexp prec emax (Zdigits2 q + e) - e) as [|p|p] eqn:N;
    simpl fst; simpl snd.
  - replace e1 with e by lia. rewrite Z.sub_diag.
    change (2 ^ 0) with 1. rewrite Z.mul_1_r. auto.
  - replace e1 with (e + Zpos p) by lia. split; [reflexivity|].
    replace (e + Zpos p - e) with (Zpos p) by lia.
    apply iter_pos_shr_located; assumption.
  - replace e1 with e by lia. rewrite Z.sub_diag.
    change (2 ^ 0) with 1. rewrite Z.mul_1_r. auto.
Qed.

(** [binary_round_aux] on a quotient with its location: the mantissa is
    the quotient at the exponent [e1], rounded to nearest, ties to even. *)
Lemma binary_round_aux_located (s : bool) (X Y e : Z) :
  0 <= X -> 0 < Y ->
  let e1 := Z.max e (fexp prec emax (Zdigits2 (X / Y) + e)) in
  binary_round_aux prec emax s (X / Y) e (location_of X Y)
  = renormalized s (round_half_even X (Y * 2 ^ (e1 - e))) e1.
Proof.
  intros HX HY e1. unfold binary_round_aux, renormalized.
  pose proof (shr_fexp_located X Y e HX HY) as S1. cbv zeta in S1.
  fold e1 in S1.
  destruct (shr_fexp prec emax (X / Y) e (location_of X Y)) as [mrs1 e1'].
  simpl fst in S1; simpl snd in S1. destruct S1 as [-> L1].
  rewrite (round_nearest_even_located X (Y * 2 ^ (e1 - e)) mrs1); trivial.
  apply Z.mul_pos_pos; [exact HY | apply Z.pow_pos_nonneg; lia].
Qed.

(** A canonical mantissa is left as it is. *)
Lemma renormalized_canonical (s : bool) (m : positive) (e : Z) :
  valid (S754_finite s m e) = true ->
  renormalized s (Zpos m) e = S754_finite s m e.
Proof.
  unfold valid. cbn [valid_binary]. unfold bounded, canonical_mantissa.
  intros V. apply andb_prop in V. destruct V as [C B].
  apply Z.eqb_eq in C.
  unfold renormalized, shr_fexp. cbn [Zdigits2]. rewrite C, Z.sub_diag.
  cbn [shr shr_record_of_loc shr_m]. rewrite B. reflexivity.
Qed.

(** A mantissa of at most [2^53] keeps its value: [2^53] itself moves up
    by one exponent. *)
Lemma renormalized_value (s : bool) (M e K : Z) :
  0 <= M <= 2 ^ 53 -> -1074 <= e <= 970 -> 0 <= e + K ->
  finite_below s (e + 1) (renormalized s M e) /\
  magnitude K (renormalized s M e) = M * 2 ^ (e + K).
Proof.
  intros HM He HK. unfold renormalized.
  pose proof (shr_fexp_spec M e loc_Exact ltac:(lia)) as S2.
  destruct (shr_fexp prec emax M e loc_Exact) as [mrs2 e2].
  simpl fst in S2; simpl snd in S2. destruct S2 as [He2 Hm2].
  rewrite fexp_eq in He2, Hm2.
  destruct (Z.eq_dec M (2 ^ 53)) as [Top|NT].
  - subst M. change (Zdigits2 (2 ^ 53)) with 54 in *.
    replace (Z.max e (Z.max (54 + e - 53) (-1074))) with (e + 1) in * by lia.
    replace (e + 1 - e) with 1 in Hm2 by lia.
    change (2 ^ 53 / 2 ^ 1) with (Zpos (2 ^ 52)) in Hm2.
    rewrite Hm2, He2.
    assert ((e + 1 <=? emax - prec) = true) as ->
      by (apply Z.leb_le; unfold emax, prec; lia).
    cbn [finite_below magnitude]. split; [split; [reflexivity | lia]|].
    replace (e + 1 + K) with (e + K + 1) by lia.
    rewrite pow2_succ by lia. change (2 ^ 53) with (2 * Zpos (2 ^ 52)). ring.
  - assert (D : Zdigits2 M <= 53).
    { destruct (Z.eq_dec M 0) as [->|NZ]; [simpl; lia|].
      pose proof (digits_scaled M 0 53 ltac:(lia) ltac:(lia)) as D.
      rewrite Z.mul_1_r in D. lia. }
    replace (Z.max e (Z.max (Zdigits2 M + e - 53) (-1074))) with e in * by lia.
    rewrite Z.sub_diag in Hm2. change (2 ^ 0) with 1 in Hm2.
    rewrite Z.div_1_r in Hm2. rewrite Hm2, He2.
    destruct M as [|m|m]; [| |lia].
    + cbn [finite_below magnitude]. split; [reflexivity | ring].
    + assert ((e <=? emax - prec) = true) as ->
        by (apply Z.leb_le; unfold emax, prec; lia).
      cbn [finite_below magnitude]. split; [split; [reflexivity | lia]|].
      reflexivity.
Qed.

(** The quotient that [SFdiv] rounds when it divides the integer [n] by
    [10^6], and its location. *)
Lemma div_core_million (n : positive) :
  let e' := Z.min (Z.max (Zdigits2 (Zpos n) - 73) (-1074)) 0 in
  let X := Zpos n * 2 ^ (- e') in
  SFdiv_core_binary prec emax (Zpos n) 0 1000000 0
  = (X / 1000000, e', location_of X 1000000).
Proof.
  intros e' X. unfold SFdiv_core_binary.
  change (Zdigits2 1000000) with 20.
  rewrite !Z.add_0_r, Z.sub_0_r, fexp_eq.
  replace (Zdigits2 (Zpos n) - 20 - 53) with (Zdigits2 (Zpos n) - 73) by lia.
  fold e'.
  assert (Le : e' <= 0) by (unfold e'; lia).
  assert (M : match 0 - e' with
              | Zpos _ => Z.shiftl (Zpos n) (0 - e')
              | 0 => Zpos n
              | Zneg _ => 0
              end = X).
  { unfold X. replace (0 - e') with (- e') by lia.
    destruct (- e') as [|p|p] eqn:S; [| |lia].
    - change (2 ^ 0) with 1. lia.
    - rewrite Z.shiftl_mul_pow2 by lia. reflexivity. }
  rewrite M. clear M. clearbody X.
  unfold location_of, Z.modulo, Z.div.
  destruct (Z.div_eucl X 1000000) as [q r]. reflexivity.
Qed.

(** The double read from the decimal number [n / 10^6]. *)
Lemma decimal_to_double_rounds (s : bool) (n : positive) :
  let e' := Z.min (Z.max (Zdigits2 (Zpos n) - 73) (-1074)) 0 in
  let X := Zpos n * 2 ^ (- e') in
  let e1 := Z.max e' (fexp prec emax (Zdigits2 (X / 1000000) + e')) in
  decimal_to_double s (Zpos n)
  = renormalized s (round_half_even X (1000000 * 2 ^ (e1 - e'))) e1.
Proof.
  intros e' X e1. cbn [decimal_to_double]. unfold div, SFdiv.
  rewrite (div_core_million n). rewrite xorb_false_r. fold e' X.
  assert (PX : 0 <= X).
  { unfold X. apply Z.mul_nonneg_nonneg; [lia | apply Z.pow_nonneg; lia]. }
  exact (binary_round_aux_located s X 1000000 e' PX ltac:(lia)).
Qed.

Lemma finite_below_le (s : bool) (a b : Z) (x : double) :
  a <= b -> finite_below s a x -> finite_below s b x.
Proof.
  intros L. destruct x; cbn [finite_below]; trivial. intros [E B].
  split; [exact E | lia].
Qed.

Lemma digits_below (q j : Z) :
  0 <= q -> 0 <= j -> q < 2 ^ j -> Zdigits2 q <= j.
Proof.
  intros Hq Hj H. destruct (Z.eq_dec q 0) as [->|NZ]; [simpl; lia|].
  pose proof (digits_scaled q 0 j ltac:(lia) ltac:(lia)) as D.
  rewrite Z.mul_1_r in D. lia.
Qed.

Lemma digits_above (q j : Z) :
  0 <= j -> 2 ^ j <= q -> j + 1 <= Zdigits2 q.
Proof.
  intros Hj H. assert (0 < 2 ^ j) by (apply Z.pow_pos_nonneg; lia).
  destruct q as [|p|p]; try lia. cbn [Zdigits2].
  pose proof (digits2_pos_bounds p) as [_ U].
  assert (T : 2 ^ j < 2 ^ Zpos (digits2_pos p)) by lia.
  apply Z.pow_lt_mono_r_iff in T; lia.
Qed.

Lemma below_digits (q : Z) : 0 <= q -> q < 2 ^ Zdigits2 q.
Proof.
  intros H. destruct q as [|p|p]; try lia; [reflexivity|].
  cbn [Zdigits2]. apply digits2_pos_bounds.
Qed.

(** The mantissa that the reader rounds to has at most 53 bits, or is
    [2^53]. *)
Lemma rounded_mantissa_bound (X Y e e1 : Z) :
  0 <= X -> 0 < Y -> e <= e1 -> Zdigits2 (X / Y) + e - 53 <= e1 ->
  0 <= round_half_even X (Y * 2 ^ (e1 - e)) <= 2 ^ 53.
Proof.
  intros HX HY L D.
  assert (PB : 0 < 2 ^ (e1 - e)) by (apply Z.pow_pos_nonneg; lia).
  assert (PY : 0 < Y * 2 ^ (e1 - e)) by (apply Z.mul_pos_pos; trivial).
  destruct (round_half_even_spec X _ HX PY) as [P _].
  split; [exact P|].
  pose proof (Z.div_pos X Y HX HY) as Pq.
  pose proof (below_digits (X / Y) Pq) as Bq.
  assert (T : 2 ^ Zdigits2 (X / Y) <= 2 ^ (53 + (e1 - e))).
  { apply Z.pow_le_mono_r; lia. }
  rewrite Z.pow_add_r in T by lia.
  assert (Q : X / (Y * 2 ^ (e1 - e)) < 2 ^ 53).
  { rewrite <- Z.div_div by lia.
    apply Z.div_lt_upper_bound; [exact PB|]. lia. }
  destruct (round_half_even_cases X (Y * 2 ^ (e1 - e))) as [-> | ->]; lia.
Qed.

(** Reading the decimal number [n / 10^6], below [2^k]: the double is
    within half a unit of the last place of [2^k]. *)
Lemma decimal_to_double_nearest (s : bool) (n : positive) (k K : Z) :
  1074 <= K -> -20 <= k <= 1000 ->
  Zpos n * 2 ^ K < 10 ^ 6 * 2 ^ (k + K) ->
  let x := decimal_to_double s (Zpos n) in
  finite_below s (last_place k + 1) x /\
  2 * Z.abs (10 ^ 6 * magnitude K x - Zpos n * 2 ^ K)
  <= 10 ^ 6 * 2 ^ (last_place k + K).
Proof.
  intros HK Hk HV x. unfold x. clear x.
  rewrite decimal_to_double_rounds.
  assert (HE : last_place k = Z.max (k - 53) (-1074)) by reflexivity.
  assert (Dn : Zdigits2 (Zpos n) + K <= k + 20 + K).
  { apply digits_scaled; [lia | lia |].
    apply Z.lt_trans with (10 ^ 6 * 2 ^ (k + K)); trivial.
    replace (k + 20 + K) with (20 + (k + K)) by lia.
    rewrite (Z.pow_add_r 2 20) by lia.
    assert (0 < 2 ^ (k + K)) by (apply Z.pow_pos_nonneg; lia).
    apply Z.mul_lt_mono_pos_r; [trivial | reflexivity]. }
  set (e' := Z.min (Z.max (Zdigits2 (Zpos n) - 73) (-1074)) 0).
  assert (B' : -1074 <= e' <= 0 /\ e' <= last_place k) by lia.
  clearbody e'. clear Dn.
  set (X := Zpos n * 2 ^ (- e')).
  assert (PX : 0 <= X).
  { unfold X. apply Z.mul_nonneg_nonneg; [lia | apply Z.pow_nonneg; lia]. }
  set (G := 2 ^ (e' + K)).
  assert (PG : 0 < G) by (apply Z.pow_pos_nonneg; lia).
  assert (XG : X * G = Zpos n * 2 ^ K).
  { unfold X, G. rewrite <- Z.mul_assoc, <- Z.pow_add_r by lia.
    f_equal. f_equal. lia. }
  destruct (floor_scaled X 1000000 PX ltac:(lia)) as [Fq Pq].
  set (q := X / 1000000) in *.
  assert (QV : q * G < 2 ^ (k + K)).
  { assert (q * G * 1000000 <= X * G).
    { replace (q * G * 1000000) with (q * 1000000 * G) by ring.
      apply Z.mul_le_mono_nonneg_r; lia. }
    rewrite XG in H. change (10 ^ 6) with 1000000 in HV.
    clear - H HV. set (a := q * G) in *. set (b := 2 ^ (k + K)) in *.
    set (c := Zpos n * 2 ^ K) in *. clearbody a b c. lia. }
  assert (Dq : Zdigits2 q + e' <= k).
  { destruct (Z.eq_dec q 0) as [->|NZ]; [simpl; lia|].
    pose proof (digits_scaled q (e' + K) (k + K) ltac:(lia) ltac:(lia) QV).
    lia. }
  rewrite (fexp_eq (Zdigits2 q + e')).
  set (e1 := Z.max e' (Z.max (Zdigits2 q + e' - 53) (-1074))).
  assert (B1 : e' <= e1 /\ -1074 <= e1 /\ e1 <= last_place k
               /\ Zdigits2 q + e' - 53 <= e1) by (unfold e1; lia).
  clearbody e1. destruct B1 as (L1 & L2 & L3 & L4).
  set (Y := 1000000 * 2 ^ (e1 - e')).
  assert (PY : 0 < Y).
  { unfold Y. apply Z.mul_pos_pos; [lia | apply Z.pow_pos_nonneg; lia]. }
  pose proof (rounded_mantissa_bound X 1000000 e' e1 PX ltac:(lia) L1 L4)
    as BM.
  destruct (round_half_even_spec X Y PX PY) as [_ Err].
  fold Y in BM. set (M := round_half_even X Y) in *. clearbody M.
  destruct (renormalized_value s M e1 K BM ltac:(lia) ltac:(lia)) as [F V].
  split.
  - apply (finite_below_le s (e1 + 1)); [lia | exact F].
  - rewrite V.
    assert (YG : Y * G = 1000000 * 2 ^ (e1 + K)).
    { unfold Y, G. rewrite <- Z.mul_assoc, <- Z.pow_add_r by lia.
      f_equal. f_equal. lia. }
    assert (TE : 2 ^ (e1 + K) <= 2 ^ (last_place k + K))
      by (apply Z.pow_le_mono_r; lia).
    change (10 ^ 6) with 1000000.
    replace (1000000 * (M * 2 ^ (e1 + K)) - Zpos n * 2 ^ K)
      with ((M * Y - X) * G).
    2:{ rewrite Z.mul_sub_distr_r, XG, <- Z.mul_assoc, YG. ring. }
    rewrite Z.abs_mul, (Z.abs_eq G) by lia.
    apply Z.le_trans with (Y * G).
    + rewrite Z.mul_assoc. apply Z.mul_le_mono_nonneg_r; lia.
    + rewrite YG. apply Z.mul_le_mono_nonneg_l; lia.
Qed.

(** A quotient above one half is rounded to one at least. *)
Lemma round_half_even_positive (N D : Z) :
  0 <= N -> 0 < D -> D < 2 * N -> 1 <= round_half_even N D.
Proof.
  intros HN HD H. unfold round_half_even.
  pose proof (Z.div_mod N D ltac:(lia)) as E.
  pose proof (Z.mod_pos_bound N D HD) as B.
  pose proof (Z.div_pos N D HN HD) as Q.
  set (q := N / D) in *. set (r := N mod D) in *. clearbody q r.
  destruct (Z.compare_spec (2 * r) D) as [C|C|C];
    [destruct (Z.even q)| |]; nia.
Qed.

(** The mantissa and the exponent of a valid double. *)
Lemma valid_mantissa (s : bool) (m : positive) (e : Z) :
  valid (S754_finite s m e) = true ->
  Zpos m < 2 ^ 53 /\ -1074 <= e <= 971 /\
  (-1074 < e -> 2 ^ 52 <= Zpos m).
Proof.
  unfold valid. cbn [valid_binary]. unfold bounded, canonical_mantissa.
  intros V. apply andb_prop in V. destruct V as [C B].
  apply Z.eqb_eq in C. apply Z.leb_le in B. rewrite fexp_eq in C.
  unfold emax, prec in B.
  pose proof (digits2_pos_bounds m) as [L U].
  assert (D : Zpos (digits2_pos m) <= 53) by lia.
  split; [|split; [lia|]].
  - apply Z.lt_le_trans with (2 ^ Zpos (digits2_pos m)); [exact U|].
    apply Z.pow_le_mono_r; lia.
  - intros N. replace (Zpos (digits2_pos m)) with 53 in L by lia. exact L.
Qed.

(** A double whose last place is [2^-19] or more comes back as it was:
    the number written is within half a millionth of it, nearer than any
    other double. *)
Lemma six_decimals_exact (s : bool) (m : positive) (e : Z) :
  valid (S754_finite s m e) = true -> -19 <= e ->
  six_decimals (S754_finite s m e) = S754_finite s m e.
Proof.
  intros V He. cbn [six_decimals].
  destruct (valid_mantissa s m e V) as (Um & Ue & Lm).
  specialize (Lm ltac:(lia)).
  destruct (micro_of_spec m e 20 ltac:(lia) ltac:(lia)) as [Pn Sn].
  set (P := 2 ^ (e + 20)) in *.
  assert (PP : 2 <= P).
  { unfold P. change 2 with (2 ^ 1) at 1. apply Z.pow_le_mono_r; lia. }
  set (J := 2 ^ (52 + e)).
  assert (PJ : 0 < J) by (apply Z.pow_pos_nonneg; lia).
  assert (EJ : 2 ^ 52 * P = 2 ^ 20 * J).
  { unfold P, J. rewrite <- !Z.pow_add_r by lia. f_equal. lia. }
  assert (N1 : 10 ^ 6 * J <= micro_of m e < 2 * (10 ^ 6 * J)).
  { assert (L1 : 2 ^ 52 * P <= Zpos m * P)
      by (apply Z.mul_le_mono_nonneg_r; lia).
    assert (L2 : Zpos m * P <= (2 ^ 53 - 1) * P)
      by (apply Z.mul_le_mono_nonneg_r; lia).
    replace ((2 ^ 53 - 1) * P) with (2 * (2 ^ 52 * P) - P) in L2
      by (change (2 ^ 53) with (2 * 2 ^ 52); ring).
    rewrite EJ in L1, L2.
    change (10 ^ 6) with 1000000 in *. change (2 ^ 20) with 1048576 in *.
    set (n := micro_of m e) in *. set (mP := Zpos m * P) in *.
    clearbody n mP P J. lia. }
  destruct (micro_of m e) as [|n|n]; [lia | | lia].
  rewrite decimal_to_double_rounds.
  (* the digits of the number read *)
  assert (Dn : 72 + e <= Zdigits2 (Zpos n) <= 73 + e).
  { split.
    - replace (72 + e) with (71 + e + 1) by lia.
      apply digits_above; [lia|].
      replace (71 + e) with (19 + (52 + e)) by lia.
      rewrite Z.pow_add_r by lia. fold J.
      apply Z.le_trans with (10 ^ 6 * J); [|lia].
      apply Z.mul_le_mono_nonneg_r; [lia | discriminate].
    - apply digits_below; [lia | lia |].
      replace (73 + e) with (21 + (52 + e)) by lia.
      rewrite Z.pow_add_r by lia. fold J.
      apply Z.lt_le_trans with (2 * (10 ^ 6 * J)); [lia|].
      rewrite Z.mul_assoc. apply Z.mul_le_mono_nonneg_r; [lia | discriminate]. }
  set (e' := Z.min (Z.max (Zdigits2 (Zpos n) - 73) (-1074)) 0).
  assert (B' : -20 <= e' <= 0 /\ e' <= e) by (unfold e'; lia).
  clearbody e'. clear Dn. destruct B' as [[B1 B2] B3].
  set (X := Zpos n * 2 ^ (- e')).
  assert (PX : 0 <= X).
  { unfold X. apply Z.mul_nonneg_nonneg; [lia | apply Z.pow_nonneg; lia]. }
  set (H := 2 ^ (- e')).
  assert (PH : 0 < H) by (apply Z.pow_pos_nonneg; lia).
  assert (JH : J * H = 2 ^ (52 + e - e')).
  { unfold J, H. rewrite <- Z.pow_add_r by lia. f_equal; lia. }
  assert (PJH : 0 < 2 ^ (52 + e - e')) by (apply Z.pow_pos_nonneg; lia).
  assert (Q1 : 2 ^ (52 + e - e') <= X / 1000000).
  { apply Z.div_le_lower_bound; [lia|]. rewrite <- JH. unfold X. fold H.
    change (10 ^ 6) with 1000000 in N1.
    replace (1000000 * (J * H)) with (1000000 * J * H) by ring.
    apply Z.mul_le_mono_nonneg_r; lia. }
  assert (Q2 : X / 1000000 < 2 ^ (53 + e - e')).
  { apply Z.div_lt_upper_bound; [lia|].
    replace (53 + e - e') with (52 + e - e' + 1) by lia.
    rewrite pow2_succ by lia. rewrite <- JH. unfold X. fold H.
    change (10 ^ 6) with 1000000 in N1.
    replace (1000000 * (2 * (J * H))) with (2 * (1000000 * J) * H) by ring.
    apply Z.mul_lt_mono_pos_r; lia. }
  assert (Dq : Zdigits2 (X / 1000000) = 53 + e - e').
  { pose proof (digits_above (X / 1000000) (52 + e - e') ltac:(lia) Q1).
    pose proof (digits_below (X / 1000000) (53 + e - e') ltac:(lia)
                  ltac:(lia) Q2).
    lia. }
  rewrite Dq, fexp_eq.
  replace (Z.max e' (Z.max (53 + e - e' + e' - 53) (-1074))) with e by lia.
  (* the mantissa *)
  set (Y := 1000000 * 2 ^ (e - e')).
  assert (PY : 0 < Y).
  { unfold Y. apply Z.mul_pos_pos; [lia | apply Z.pow_pos_nonneg; lia]. }
  destruct (round_half_even_spec X Y PX PY) as [PM Err].
  set (M := round_half_even X Y) in *. clearbody M.
  set (G := 2 ^ (e' + 20)).
  assert (PG : 0 < G) by (apply Z.pow_pos_nonneg; lia).
  assert (XG : X * G = Zpos n * 2 ^ 20).
  { unfold X, G. rewrite <- Z.mul_assoc, <- Z.pow_add_r by lia.
    f_equal; f_equal; lia. }
  assert (YG : Y * G = 1000000 * P).
  { unfold Y, G, P. rewrite <- Z.mul_assoc, <- Z.pow_add_r by lia.
    f_equal; f_equal; lia. }
  assert (Err' : 2 * Z.abs (M * (1000000 * P) - Zpos n * 2 ^ 20)
                 <= 1000000 * P).
  { rewrite <- YG, <- XG.
    replace (M * (Y * G) - X * G) with ((M * Y - X) * G) by ring.
    rewrite Z.abs_mul, (Z.abs_eq G) by lia.
    rewrite Z.mul_assoc. apply Z.mul_le_mono_nonneg_r; lia. }
  assert (EM : M = Zpos m).
  { change (10 ^ 6) with 1000000 in Sn. change (2 ^ 20) with 1048576 in *.
    set (A := 1000000 * P) in *.
    assert (PA : 1048576 < A) by (unfold A; lia).
    replace (1000000 * (Zpos m * P)) with (Zpos m * A) in Sn
      by (unfold A; ring).
    clear - Sn Err' PA.
    destruct (Z.lt_trichotomy M (Zpos m)) as [L|[E|L]]; [|exact E|].
    - assert (M * A + A <= Zpos m * A) by nia.
      set (a := M * A) in *. set (c := Zpos m * A) in *.
      set (b := Zpos n * 1048576) in *. clearbody a b c. lia.
    - assert (Zpos m * A + A <= M * A) by nia.
      set (a := M * A) in *. set (c := Zpos m * A) in *.
      set (b := Zpos n * 1048576) in *. clearbody a b c. lia. }
  rewrite EM. apply renormalized_canonical. exact V.
Qed.

(** A finite double below [2^k] printed with six decimals and read back:
    the value moves by half a unit of the sixth decimal, and by the
    rounding of the reader. *)
Lemma six_decimals_bound (s : bool) (m : positive) (e k K : Z) :
  1074 <= K -> - K <= e -> -19 <= k <= 999 ->
  Zpos m * 2 ^ (e + K) < 2 ^ (k + K) ->
  let x := six_decimals (S754_finite s m e) in
  finite_below s (last_place (k + 1) + 1) x /\
  2 * 10 ^ 6 * Z.abs (magnitude K x - Zpos m * 2 ^ (e + K))
  <= 2 ^ K + 10 ^ 6 * 2 ^ (last_place (k + 1) + K).
Proof.
  intros HK He Hk HV. cbn [six_decimals].
  destruct (micro_of_spec m e K ltac:(lia) He) as [Pn Sn].
  set (M := Zpos m * 2 ^ (e + K)) in *.
  assert (PM : 0 < M).
  { unfold M. apply Z.mul_pos_pos; [lia | apply Z.pow_pos_nonneg; lia]. }
  assert (PE : 0 < 2 ^ (last_place (k + 1) + K)).
  { apply Z.pow_pos_nonneg; unfold last_place; lia. }
  assert (PK : 0 < 2 ^ K) by (apply Z.pow_pos_nonneg; lia).
  destruct (micro_of m e) as [|n|n]; [| |lia].
  - cbn [decimal_to_double finite_below magnitude]. split; [reflexivity|].
    rewrite Z.mul_0_l in Sn. change (10 ^ 6) with 1000000 in *.
    clearbody M. lia.
  - assert (T : 2 ^ K <= 2 ^ 20 * 2 ^ (k + K)).
    { rewrite <- Z.pow_add_r by lia. apply Z.pow_le_mono_r; lia. }
    assert (T1 : 2 ^ (k + 1 + K) = 2 * 2 ^ (k + K)).
    { replace (k + 1 + K) with (k + K + 1) by lia. apply pow2_succ. lia. }
    assert (NV : Zpos n * 2 ^ K < 10 ^ 6 * 2 ^ (k + 1 + K)).
    { rewrite T1. change (10 ^ 6) with 1000000 in *.
      change (2 ^ 20) with 1048576 in T.
      set (a := Zpos n * 2 ^ K) in *. set (b := 2 ^ (k + K)) in *.
      clearbody a b M. lia. }
    destruct (decimal_to_double_nearest s n (k + 1) K HK ltac:(lia) NV)
      as [F Err].
    split; [exact F|].
    set (X := magnitude K (decimal_to_double s (Zpos n))) in *.
    set (a := Zpos n * 2 ^ K) in *.
    set (E := 2 ^ (last_place (k + 1) + K)) in *.
    change (10 ^ 6) with 1000000 in *.
    clearbody X a E M. lia.
Qed.

(** A double whose last place is [2^-20] or less: it comes back within
    [2^-21] of the number written, which is within half a millionth of
    it, and what is not written as zero is not read as zero. *)
Lemma six_decimals_small (s : bool) (m : positive) (e : Z) :
  valid (S754_finite s m e) = true -> e <= -20 ->
  let x := six_decimals (S754_finite s m e) in
  finite_below s (-19) x /\
  2 * 10 ^ 6 * Z.abs (magnitude 1074 x - Zpos m * 2 ^ (e + 1074))
  <= 2 ^ 1074 + 10 ^ 6 * 2 ^ 1054 /\
  (0 < micro_of m e -> 0 < magnitude 1074 x).
Proof.
  intros V He. cbn [six_decimals].
  destruct (valid_mantissa s m e V) as (Um & Ue & _).
  destruct (micro_of_spec m e 1074 ltac:(lia) ltac:(lia)) as [Pn Sn].
  assert (PE : 0 < 2 ^ (e + 1074)) by (apply Z.pow_pos_nonneg; lia).
  assert (LE : 2 ^ (e + 1074) <= 2 ^ 1054) by (apply Z.pow_le_mono_r; lia).
  assert (BT : Zpos m * 2 ^ (e + 1074) <= (2 ^ 53 - 1) * 2 ^ 1054).
  { apply Z.mul_le_mono_nonneg; lia. }
  set (T := Zpos m * 2 ^ (e + 1074)) in *.
  assert (PT : 0 < T) by (unfold T; apply Z.mul_pos_pos; lia).
  assert (Q20 : 2 ^ 1074 = 2 ^ 20 * 2 ^ 1054) by reflexivity.
  assert (Q33 : 2 ^ (33 + 1074) = 2 ^ 53 * 2 ^ 1054) by reflexivity.
  set (R := 2 ^ 1054) in *.
  assert (PR : 0 < R) by (apply Z.pow_pos_nonneg; lia).
  destruct (micro_of m e) as [|n|n]; [| |lia].
  - cbn [decimal_to_double finite_below magnitude].
    split; [reflexivity|]. split; [|lia].
    rewrite Z.mul_0_l in Sn. rewrite Q20 in *.
    change (10 ^ 6) with 1000000 in *. change (2 ^ 20) with 1048576 in *.
    clearbody T R. lia.
  - assert (NV : Zpos n * 2 ^ 1074 < 10 ^ 6 * 2 ^ (33 + 1074)).
    { rewrite Q33, Q20 in *.
      change (10 ^ 6) with 1000000 in *. change (2 ^ 20) with 1048576 in *.
      change (2 ^ 53) with 9007199254740992 in *.
      set (a := Zpos n * (1048576 * R)) in *. clearbody a T R. lia. }
    destruct (decimal_to_double_nearest s n 33 1074 ltac:(lia) ltac:(lia) NV)
      as [F Err].
    change (last_place 33 + 1) with (-19) in F.
    change (last_place 33 + 1074) with 1054 in Err. fold R in Err.
    split; [exact F|].
    set (X := magnitude 1074 (decimal_to_double s (Zpos n))) in *.
    assert (N1 : 2 ^ 1074 <= Zpos n * 2 ^ 1074).
    { rewrite <- (Z.mul_1_l (2 ^ 1074)) at 1.
      apply Z.mul_le_mono_nonneg_r; lia. }
    rewrite Q20 in *.
    change (10 ^ 6) with 1000000 in *. change (2 ^ 20) with 1048576 in *.
    set (a := Zpos n * (1048576 * R)) in *.
    clearbody X a T R. split; [lia|]. intros _. lia.
Qed.

Lemma magnitude_scaled_1074 (s : bool) (top : Z) (a : double) :
  finite_below s top a ->
  is_finite a = true /\
  magnitude 1074 a = Z.abs (scaled a) /\
  scaled a = (if s then - Z.abs (scaled a) else Z.abs (scaled a)).
Proof.
  destruct a as [s'|s'| |s' m e]; cbn [finite_below magnitude scaled];
    try contradiction.
  - intros _. destruct s; simpl; auto.
  - intros [-> [L _]]. rewrite Z.shiftl_mul_pow2 by lia.
    assert (0 < 2 ^ (e + 1074)) by (apply Z.pow_pos_nonneg; lia).
    assert (0 < Zpos m * 2 ^ (e + 1074)) by (apply Z.mul_pos_pos; lia).
    split; [reflexivity|]. destruct s; split; lia.
Qed.

(** What is written with six decimals comes back within [10^-6],
    whatever its size. *)
Lemma six_decimals_within_1e6 (d : double) :
  valid d = true -> is_finite d = true -> within_1e6 (six_decimals d) d.
Proof.
  intros V F. unfold within_1e6. rewrite F.
  destruct d as [s|s| |s m e]; try discriminate.
  { simpl. repeat split. lia. }
  destruct (Z.le_gt_cases (-19) e) as [Big|Small].
  - rewrite (six_decimals_exact s m e V Big).
    split; [reflexivity|]. split; [reflexivity|].
    rewrite Z.sub_diag. change (Z.abs 0) with 0. rewrite Z.mul_0_r.
    apply Z.pow_nonneg. lia.
  - destruct (valid_mantissa s m e V) as (_ & Le & _).
    destruct (six_decimals_small s m e V ltac:(lia)) as (Fx & Err & _).
    destruct (magnitude_scaled_1074 s _ _ Fx) as (Fin & Mx & Sx).
    split; [exact Fin|]. split; [reflexivity|].
    rewrite Sx. rewrite Mx in Err.
    assert (St : scaled (S754_finite s m e)
                 = if s then - (Zpos m * 2 ^ (e + 1074))
                   else Zpos m * 2 ^ (e + 1074)).
    { cbn [scaled]. rewrite Z.shiftl_mul_pow2 by lia. reflexivity. }
    rewrite St. clear St.
    assert (0 <= Z.abs (scaled (six_decimals (S754_finite s m e))))
      by apply Z.abs_nonneg.
    set (a := Z.abs (scaled (six_decimals (S754_finite s m e)))) in *.
    set (T := Zpos m * 2 ^ (e + 1074)) in *.
    assert (PT : 0 < T).
    { unfold T. apply Z.mul_pos_pos; [lia | apply Z.pow_pos_nonneg; lia]. }
    assert (Q20 : 2 ^ 1074 = 2 ^ 20 * 2 ^ 1054) by reflexivity.
    rewrite Q20 in *. set (R := 2 ^ 1054) in *.
    assert (0 < R) by (apply Z.pow_pos_nonneg; lia).
    change (2 ^ 20) with 1048576 in *. change (10 ^ 6) with 1000000 in *.
    clearbody a R T. destruct s; lia.
Qed.

(** A distance above half a millionth is still positive when it is read
    back. *)
Lemma six_decimals_positive (d : double) :
  valid d = true -> is_finite d = true -> above_half_millionth d ->
  gtb (six_decimals d) zero = true.
Proof.
  intros V F L. unfold above_half_millionth in L.
  destruct d as [s|s| |s m e]; try discriminate.
  destruct (valid_mantissa s m e V) as (_ & Le & _).
  cbn [scaled] in L. rewrite Z.shiftl_mul_pow2 in L by lia.
  assert (PE : 0 < 2 ^ (e + 1074)) by (apply Z.pow_pos_nonneg; lia).
  assert (PT : 0 < Zpos m * 2 ^ (e + 1074)) by (apply Z.mul_pos_pos; lia).
  assert (PQ : 0 < 2 ^ 1074) by (apply Z.pow_pos_nonneg; lia).
  destruct s.
  { change (10 ^ 6) with 1000000 in L.
    set (T := Zpos m * 2 ^ (e + 1074)) in *. set (Q := 2 ^ 1074) in *.
    clearbody T Q. lia. }
  destruct (Z.le_gt_cases (-19) e) as [Big|Small].
  - rewrite (six_decimals_exact false m e V Big). reflexivity.
  - destruct (six_decimals_small false m e V ltac:(lia)) as (Fx & _ & Pos).
    assert (Pn : 0 < micro_of m e).
    { destruct e as [|p|p]; try lia. cbn [micro_of].
      assert (PD : 0 < 2 ^ Zpos p) by (apply Z.pow_pos_nonneg; lia).
      apply Z.lt_le_trans with 1; [lia|].
      apply round_half_even_positive; [lia | exact PD |].
      assert (Q : 2 ^ 1074 = 2 ^ Zpos p * 2 ^ (Zneg p + 1074)).
      { rewrite <- Z.pow_add_r by lia. f_equal; lia. }
      rewrite Q in L. clear - L PE PD.
      set (G := 2 ^ (Zneg p + 1074)) in *. set (D := 2 ^ Zpos p) in *.
      change (10 ^ 6) with 1000000 in *. clearbody G D. nia. }
    specialize (Pos Pn).
    destruct (six_decimals (S754_finite false m e)) as [s'|s'| |s' m' e'];
      cbn [finite_below magnitude] in *; try contradiction; try lia.
    destruct Fx as [-> _]. reflexivity.
Qed.

(** A twist of at most 1024 radians that is written in degrees with six
    decimals and read back comes back within [10^-8] radians. *)
Lemma twist_through_text (t : double) :
  valid t = true -> at_most_1024 t ->
  within_1e8
    (mul (six_decimals (mul t radians_to_degrees)) degrees_to_radians) t.
Proof.
  rewrite radians_to_degrees_value, degrees_to_radians_value.
  intros V [F B]. unfold within_1e8. rewrite F.
  destruct t as [s|s| |s mt et]; try discriminate.
  { simpl. repeat split. lia. }
  clear F. cbn [scaled] in B.
  destruct (valid_mantissa s mt et V) as (_ & [Le _] & _).
  rewrite Z.shiftl_mul_pow2 in B by lia.
  set (T := Zpos mt * 2 ^ (et + 1074)) in *.
  assert (PT : 0 < T).
  { unfold T. apply Z.mul_pos_pos; [lia | apply Z.pow_pos_nonneg; lia]. }
  change (1024 * 2 ^ 1074) with (2 ^ 1084) in B.
  assert (BT : T <= 2 ^ 1084) by (destruct s; lia).
  assert (Et : -1074 <= et <= -42).
  { assert (X : T < 2 ^ (11 + 1074)).
    { apply Z.le_lt_trans with (2 ^ 1084); trivial.
      apply Z.pow_lt_mono_r; lia. }
    pose proof (valid_exponent s mt et 11 V X). lia. }
  (* the product with radians_to_degrees *)
  set (mr := 8063664102031864%positive).
  set (md := 5030569068109113%positive).
  set (P := 2 ^ 1137).
  assert (PP : 0 < P) by (apply Z.pow_pos_nonneg; lia).
  assert (T' : Zpos mt * 2 ^ (et + 1179) = 2 ^ 105 * T).
  { unfold T. replace (et + 1179) with (et + 1074 + 105) by lia.
    rewrite Z.pow_add_r by lia. ring. }
  assert (p1084 : 2 ^ 1084 * 2 ^ 105 = 2 ^ 52 * P).
  { unfold P. rewrite <- !Z.pow_add_r by lia. reflexivity. }
  assert (V1 : 2 ^ 47 * (Zpos (mt * mr) * 2 ^ (et - 47 + 1179))
               = 2 ^ 105 * T * Zpos mr).
  { rewrite <- T'. rewrite Pos2Z.inj_mul.
    replace (et + 1179) with (et - 47 + 1179 + 47) by lia.
    rewrite (Z.pow_add_r 2 (et - 47 + 1179) 47) by lia. ring. }
  set (u := mul (S754_finite s mt et) (S754_finite false mr (-47))).
  assert (R1 : finite_below s (-36) u /\
               Z.abs (magnitude 1179 u - Zpos (mt * mr) * 2 ^ (et - 47 + 1179))
               <= 3 * (32 * P)).
  { assert (p : 32 * P = 2 ^ (last_place 16 + 1179)).
    { unfold P. change 32 with (2 ^ 5). rewrite <- Z.pow_add_r by lia.
      reflexivity. }
    rewrite p. unfold u, mul, SFmul. rewrite xorb_false_r.
    apply (binary_round_aux_bound s (mt * mr) (et - 47) 16 1179).
    - lia.
    - lia.
    - change (last_place 16) with (-37). lia.
    - assert (q : 2 ^ 47 * 2 ^ (16 + 1179) = 2 ^ 53 * (2 ^ 52 * P)).
      { unfold P. rewrite <- !Z.pow_add_r by lia. reflexivity. }
      unfold mr in V1. rewrite Pos2Z.inj_mul. unfold mr.
      assert (2 ^ 105 * T <= 2 ^ 52 * P) by lia.
      lia. }
  destruct R1 as [F1 D1].
  set (Q := 2 ^ 1074) in *.
  assert (PQ : P = 2 ^ 63 * Q).
  { unfold P, Q. rewrite <- Z.pow_add_r by lia. reflexivity. }
  assert (BQ : T <= 2 ^ 10 * Q).
  { unfold Q. rewrite <- Z.pow_add_r by lia. exact BT. }
  assert (St : scaled (S754_finite s mt et) = if s then - T else T).
  { cbn [scaled]. rewrite Z.shiftl_mul_pow2 by lia. reflexivity. }
  rewrite St. clear St.
  unfold mr in V1, D1.
  set (X := Zpos (mt * 8063664102031864) * 2 ^ (et - 47 + 1179)) in *.
  assert (K2 : 2 ^ 1179 = 2 ^ 42 * P).
  { unfold P. rewrite <- Z.pow_add_r by lia. reflexivity. }
  (* the text of the degrees *)
  set (v := six_decimals u).
  assert (R15 : finite_below s (-34) v /\
                2 * 10 ^ 6 * Z.abs (magnitude 1179 v - magnitude 1179 u)
                <= 2 ^ 42 * P + 10 ^ 6 * (128 * P)).
  { unfold v. destruct u as [su|su| |su mu eu]; cbn [finite_below] in F1;
      try contradiction.
    - cbn [six_decimals finite_below magnitude]. split; [exact F1|].
      change (Z.abs (0 - 0)) with 0. lia.
    - destruct F1 as [-> Eu].
      assert (p : 128 * P = 2 ^ (last_place (17 + 1) + 1179)).
      { unfold P. change 128 with (2 ^ 7). rewrite <- Z.pow_add_r by lia.
        reflexivity. }
      rewrite p, <- K2.
      apply (six_decimals_bound s mu eu 17 1179); try lia.
      cbn [magnitude] in D1.
      assert (q : 2 ^ (17 + 1179) = 2 ^ 59 * P).
      { unfold P. rewrite <- Z.pow_add_r by lia. reflexivity. }
      rewrite q.
      assert (2 ^ 105 * T <= 2 ^ 52 * P) by lia.
      set (U := Zpos mu * 2 ^ (eu + 1179)) in *. clearbody U X P. lia. }
  destruct R15 as [F15 D15].
  set (U := magnitude 1179 u) in *. clearbody U. clear F1.
  change (mul (six_decimals u) (S754_finite false md (-58)))
    with (mul v (S754_finite false md (-58))).
  clearbody v. clear u.
  destruct v as [sv|sv| |sv mv ev]; cbn [finite_below] in F15;
    try contradiction.
  - (* the degrees are written as zero *)
    cbn [magnitude] in D15. simpl mul. cbn [scaled is_finite].
    repeat split. change (10 ^ 6) with 1000000 in *.
    change (10 ^ 8) with 100000000.
    clearbody X P Q T. destruct s; lia.
  - destruct F15 as [-> Ev].
    set (Vv := magnitude 1179 (S754_finite s mv ev)) in *.
    assert (V2 : 2 ^ 58 * (Zpos (mv * md) * 2 ^ (ev - 58 + 1179))
                 = Vv * Zpos md).
    { unfold Vv. cbn [magnitude]. rewrite Pos2Z.inj_mul.
      replace (ev + 1179) with (ev - 58 + 1179 + 58) by lia.
      rewrite (Z.pow_add_r 2 (ev - 58 + 1179) 58) by lia. ring. }
    unfold md in V2.
    set (Y := Zpos (mv * 5030569068109113) * 2 ^ (ev - 58 + 1179)) in *.
    set (w := mul (S754_finite s mv ev) (S754_finite false md (-58))).
    assert (PVv : 0 <= Vv).
    { unfold Vv. cbn [magnitude]. apply Z.mul_nonneg_nonneg;
        [lia | apply Z.pow_nonneg; lia]. }
    assert (R2 : finite_below s (-39) w /\
                 Z.abs (magnitude 1179 w - Y) <= 3 * (4 * P)).
    { assert (p : 4 * P = 2 ^ (last_place 13 + 1179)).
      { unfold P. change 4 with (2 ^ 2). rewrite <- Z.pow_add_r by lia.
        reflexivity. }
      rewrite p. unfold w, mul, SFmul. rewrite xorb_false_r.
      apply (binary_round_aux_bound s (mv * md) (ev - 58) 13 1179).
      - lia.
      - lia.
      - change (last_place 13) with (-40). lia.
      - unfold md. fold Y.
        assert (q : 2 ^ (13 + 1179) = 2 ^ 55 * P).
        { unfold P. rewrite <- Z.pow_add_r by lia. reflexivity. }
        rewrite q.
        assert (2 ^ 105 * T <= 2 ^ 52 * P) by lia.
        change (10 ^ 6) with 1000000 in *.
        clearbody Vv Y X P Q T. lia. }
    destruct R2 as [F2 D2].
    destruct (magnitude_scaled s (-39) w F2) as [W Sw].
    split; [|split; [reflexivity|]].
    + destruct w; cbn [finite_below] in F2; try contradiction; reflexivity.
    + rewrite Sw. rewrite W in D2.
      assert (0 <= Z.abs (scaled w)) by apply Z.abs_nonneg.
      set (a := Z.abs (scaled w)) in *.
      change (10 ^ 6) with 1000000 in *.
      change (10 ^ 8) with 100000000.
      clearbody a Vv Y X P Q T. destruct s; lia.
Qed.

End RoundingText.

(** ** Writing an arc and reading it back *)

Lemma Arc__write_ends (e : Arc) (f t : Tag__Struct) :
  ends e f t ->
  Arc__write e =
  Ok (tt,
      [File__format " <Arc" No_Argument;
       File__format " From_Tag_Id=%d" (Integer_Argument (id f));
       File__format " From_Twist=%f"
         (Double_Argument (mul (from_twist e) radians_to_degrees));
       File__format " Distance=%f" (Double_Argument (distance e));
       File__format " To_Tag_Id=%d" (Integer_Argument (id t));
       File__format " To_Twist=%f"
         (Double_Argument (mul (to_twist e) radians_to_degrees));
       File__format " Goodness=%f" (Double_Argument (goodness e));
       File__format " In_Tree=%d"
         (Integer_Argument (if in_tree e then 1 else 0));
       File__format "/>" No_Argument]).
Proof.
  intros [Hf Ht]. unfold Arc__write. rewrite Hf, Ht. reflexivity.
Qed.

Lemma File__reread_write (reread : double -> double) (e : Arc)
    (f t : Tag__Struct) (calls : list Call) :
  ends e f t -> Arc__write e = Ok (tt, calls) ->
  File__reread reread calls = Some (record_of reread e f t).
Proof.
  intros E W. rewrite (Arc__write_ends e f t E) in W.
  injection W as <-. reflexivity.
Qed.

(** What a successful round trip says about the record that is read. *)
Lemma round_trip_reproduces_inv (reread : double -> double)
    (tag_lookup : Map -> Z -> Tag) (arc_lookup : Map -> Tag -> Tag -> Arc)
    (map0 : Map) (e : Arc) (f t : Tag__Struct) :
  ends e f t ->
  round_trip_reproduces reread tag_lookup arc_lookup map0 e ->
  exists arc' calls',
    Arc__read tag_lookup arc_lookup (record_of reread e f t) map0 =
      Ok (arc', calls') /\
    distance arc' = distance e /\
    goodness arc' = goodness e /\
    within_1e9 (from_twist arc') (from_twist e) /\
    within_1e9 (to_twist arc') (to_twist e).
Proof.
  intros E (calls & in_file & arc' & calls' & W & R & Rd & D & G & Tf & Tt).
  rewrite (File__reread_write reread e f t calls E W) in R.
  injection R as <-. exists arc', calls'.
  exact (conj Rd (conj D (conj G (conj Tf Tt)))).
Qed.

Lemma round_trip_to_six_decimals_inv (reread : double -> double)
    (tag_lookup : Map -> Z -> Tag) (arc_lookup : Map -> Tag -> Tag -> Arc)
    (map0 : Map) (e : Arc) (f t : Tag__Struct) :
  ends e f t ->
  round_trip_to_six_decimals reread tag_lookup arc_lookup map0 e ->
  exists arc' calls',
    Arc__read tag_lookup arc_lookup (record_of reread e f t) map0 =
      Ok (arc', calls') /\
    within_1e6 (distance arc') (distance e) /\
    within_1e6 (goodness arc') (goodness e) /\
    within_1e8 (from_twist arc') (from_twist e) /\
    within_1e8 (to_twist arc') (to_twist e).
Proof.
  intros E (calls & in_file & arc' & calls' & W & R & Rd & D & G & Tf & Tt).
  rewrite (File__reread_write reread e f t calls E W) in R.
  injection R as <-. exists arc', calls'.
  exact (conj Rd (conj D (conj G (conj Tf Tt)))).
Qed.

(** The arc of distance 1.2345678 and twists of one radian, written and
    read back into a map that holds a worse arc for its tags: the read
    returns, the distance is 1.234568, the goodness is unchanged, and the
    twists are off by more than [8 * 10^-9]. *)
Lemma arc_fine_read_back :
  exists arc' calls',
    Arc__read lookup_tag (lookup_arc arc_2_5)
      (record_of six_decimals arc_fine (tag_of_id 2) (tag_of_id 5)) 0 =
      Ok (arc', calls') /\
    distance arc' = div (of_Z 1234568) (of_Z 1000000) /\
    goodness arc' = goodness arc_fine /\
    8 * 2 ^ 1074 <
      10 ^ 9 * Z.abs (scaled (from_twist arc') - scaled (from_twist arc_fine)).
Proof.
  eexists; eexists; split; [| split; [| split]].
  - apply (Arc__read_open_gate lookup_tag (lookup_arc arc_2_5) _ 0
             (tag_of_id 2) (tag_of_id 5)).
    + vm_compute; reflexivity.
    + split; reflexivity.
    + simpl; lia.
    + vm_compute; reflexivity.
  - vm_compute; reflexivity.
  - vm_compute; reflexivity.
  - apply Z.ltb_lt. vm_compute; reflexivity.
Qed.

(** The distance 0.0000004 is written as [0.000000]: the record holds
    the distance zero, and [Arc__read], whose gate is open, stops at the
    assertion [distance > 0.0] of [Arc__update]. *)
Lemma arc_tiny_read_stops :
  Distance (record_of six_decimals arc_tiny (tag_of_id 2) (tag_of_id 5))
    = zero /\
  Arc__read lookup_tag (lookup_arc arc_2_5)
    (record_of six_decimals arc_tiny (tag_of_id 2) (tag_of_id 5)) 0
    = Stop (Assertion_failed "distance > 0.0").
Proof. split; vm_compute; reflexivity. Qed.

(** The twist of 1000000001 radians is read back, the gate being open,
    and comes back off by more than [10^-7]. *)
Lemma arc_far_read_back :
  exists arc' calls',
    Arc__read lookup_tag (lookup_arc arc_2_5)
      (record_of six_decimals arc_far (tag_of_id 2) (tag_of_id 5)) 0 =
      Ok (arc', calls') /\
    distance arc' = distance arc_far /\
    2 ^ 1074 <
      10 ^ 7 * Z.abs (scaled (from_twist arc') - scaled (from_twist arc_far)).
Proof.
  eexists; eexists; split; [| split].
  - apply (Arc__read_open_gate lookup_tag (lookup_arc arc_2_5) _ 0
             (tag_of_id 2) (tag_of_id 5)).
    + vm_compute; reflexivity.
    + split; reflexivity.
    + simpl; lia.
    + vm_compute; reflexivity.
  - vm_compute; reflexivity.
  - apply Z.ltb_lt. vm_compute; reflexivity.
Qed.

(** C5, as stated, fails in five ways. The record is written with [%f],
    six decimals: with the gate of [Arc__read] open (the stored arc has
    goodness 50, the record 10) the distance 1.2345678 comes back as
    1.234568; a twist of one radian comes back off by more than
    [10^-9], the distance 2 and the goodness 10 being kept; a record whose
    goodness is not strictly below the stored one is dropped by the gate,
    the stored distance 3 stays where 2 was written; the distance
    0.0000004 is written as [0.000000], on which [Arc__read] stops at its
    assertion; and a twist of 1000000001 radians comes back off by more
    than [10^-8], so that the statement to six decimals fails on it as
    well. *)
Lemma round_trip_not_reproduced :
  ~ round_trip_reproduces six_decimals lookup_tag (lookup_arc arc_2_5) 0
      arc_fine /\
  ~ round_trip_reproduces six_decimals lookup_tag (lookup_arc arc_2_5) 0
      arc_one_radian /\
  ~ round_trip_reproduces six_decimals lookup_tag (lookup_arc arc_better) 0
      arc_45 /\
  ~ round_trip_reproduces six_decimals lookup_tag (lookup_arc arc_2_5) 0
      arc_tiny /\
  ~ round_trip_reproduces six_decimals lookup_tag (lookup_arc arc_2_5) 0
      arc_far /\
  ~ round_trip_to_six_decimals six_decimals lookup_tag (lookup_arc arc_2_5) 0
      arc_far.
Proof.
  assert (E : forall e, from_tag e = Some (tag_of_id 2) ->
                        to_tag e = Some (tag_of_id 5) ->
                        ends e (tag_of_id 2) (tag_of_id 5))
    by (intros e F T; split; assumption).
  assert (Open : forall in_file,
            gtb (goodness arc_2_5) (Goodness in_file) = true ->
            gtb (Distance in_file) zero = true ->
            From_Tag_Id in_file = 2 -> To_Tag_Id in_file = 5 ->
            Arc__read lookup_tag (lookup_arc arc_2_5) in_file 0
            = Ok (merged arc_2_5 in_file,
                  [Map__arc_announce 0 (merged arc_2_5 in_file)])).
  { intros in_file G P F T.
    apply (Arc__read_open_gate lookup_tag (lookup_arc arc_2_5) in_file 0
             (tag_of_id 2) (tag_of_id 5)).
    - exact G.
    - split; reflexivity.
    - simpl; lia.
    - exact P. }
  split; [| split; [| split; [| split; [| split]]]]; intros H.
  - destruct (round_trip_reproduces_inv six_decimals lookup_tag
                (lookup_arc arc_2_5) 0 arc_fine (tag_of_id 2) (tag_of_id 5)
                (E arc_fine eq_refl eq_refl) H)
      as (arc' & calls' & Rd & D & _).
    rewrite Open in Rd by (vm_compute; reflexivity).
    injection Rd as <- _. vm_compute in D. discriminate D.
  - destruct (round_trip_reproduces_inv six_decimals lookup_tag
                (lookup_arc arc_2_5) 0 arc_one_radian
                (tag_of_id 2) (tag_of_id 5)
                (E arc_one_radian eq_refl eq_refl) H)
      as (arc' & calls' & Rd & _ & _ & (_ & _ & B) & _).
    rewrite Open in Rd by (vm_compute; reflexivity).
    injection Rd as <- _. apply Z.leb_le in B. vm_compute in B.
    discriminate B.
  - destruct (round_trip_reproduces_inv six_decimals lookup_tag
                (lookup_arc arc_better) 0 arc_45 (tag_of_id 2) (tag_of_id 5)
                (E arc_45 eq_refl eq_refl) H)
      as (arc' & calls' & Rd & D & _).
    rewrite Arc__read_closed_gate in Rd by (vm_compute; reflexivity).
    injection Rd as <- _. vm_compute in D. discriminate D.
  - destruct (round_trip_reproduces_inv six_decimals lookup_tag
                (lookup_arc arc_2_5) 0 arc_tiny (tag_of_id 2) (tag_of_id 5)
                (E arc_tiny eq_refl eq_refl) H)
      as (arc' & calls' & Rd & _).
    vm_compute in Rd. discriminate Rd.
  - destruct (round_trip_reproduces_inv six_decimals lookup_tag
                (lookup_arc arc_2_5) 0 arc_far (tag_of_id 2) (tag_of_id 5)
                (E arc_far eq_refl eq_refl) H)
      as (arc' & calls' & Rd & _ & _ & (_ & _ & B) & _).
    rewrite Open in Rd by (vm_compute; reflexivity).
    injection Rd as <- _. apply Z.leb_le in B. vm_compute in B.
    discriminate B.
  - destruct (round_trip_to_six_decimals_inv six_decimals lookup_tag
                (lookup_arc arc_2_5) 0 arc_far (tag_of_id 2) (tag_of_id 5)
                (E arc_far eq_refl eq_refl) H)
      as (arc' & calls' & Rd & _ & _ & (_ & _ & B) & _).
    rewrite Open in Rd by (vm_compute; reflexivity).
    injection Rd as <- _. apply Z.leb_le in B. vm_compute in B.
    discriminate B.
Qed.

(** C5, amended. Let [e] be an arc with both ends set, whose distance and
    goodness are finite doubles, the distance above [0.0000005], and whose
    twists are finite and of at most 1024 radians; let the map hold for
    its tags an arc with [low.id < high.id] whose goodness is strictly
    greater than the goodness of [e] as it is read back. Then writing [e]
    with [Arc__write], six decimals under [%f], and reading the record
    with [Arc__read] returns an arc whose distance and goodness are within
    [10^-6] of those of [e] and whose twists are within [10^-8] radians
    of those of [e]; the record holds the twists in degrees,
    [radians * 180 / pi], and [Arc__read] converts them back. *)
Theorem Arc__write_read_six_decimals
    (tag_lookup : Map -> Z -> Tag) (arc_lookup : Map -> Tag -> Tag -> Arc)
    (map0 : Map) (e stored : Arc) (f t fs ts : Tag__Struct)
    (Ends : ends e f t)
    (Stored : arc_lookup map0 (tag_lookup map0 (to_unsigned (id f)))
                (tag_lookup map0 (to_unsigned (id t))) = stored)
    (Ordered : ends stored fs ts /\ id fs < id ts)
    (Gate : gtb (goodness stored) (six_decimals (goodness e)) = true)
    (Distance_ok : valid (distance e) = true /\
                   is_finite (distance e) = true /\
                   above_half_millionth (distance e))
    (Goodness_ok : valid (goodness e) = true /\
                   is_finite (goodness e) = true)
    (From_twist : valid (from_twist e) = true /\ at_most_1024 (from_twist e))
    (To_twist : valid (to_twist e) = true /\ at_most_1024 (to_twist e)) :
  round_trip_to_six_decimals six_decimals tag_lookup arc_lookup map0 e /\
  exists calls,
    Arc__write e = Ok (tt, calls) /\
    In (File__format " From_Twist=%f"
          (Double_Argument (mul (from_twist e) (div (of_Z 180) pi)))) calls /\
    In (File__format " To_Twist=%f"
          (Double_Argument (mul (to_twist e) (div (of_Z 180) pi)))) calls.
Proof.
  pose proof (Arc__write_ends e f t Ends) as W.
  pose proof (File__reread_write six_decimals e f t _ Ends W) as R.
  destruct Ordered as [Es Lt].
  destruct Distance_ok as (Vd & Fd & Ld).
  destruct Goodness_ok as (Vg & Fg).
  destruct From_twist as (Vf & Bf). destruct To_twist as (Vt & Bt).
  set (in_file := record_of six_decimals e f t) in *.
  assert (Sa : stored_arc tag_lookup arc_lookup in_file map0 = stored)
    by exact Stored.
  pose proof (Arc__read_open_gate tag_lookup arc_lookup in_file map0 fs ts)
    as Rd.
  rewrite Sa in Rd.
  specialize (Rd Gate Es Lt
                (RoundingText.six_decimals_positive (distance e) Vd Fd Ld)).
  split.
  - eexists. exists in_file. do 2 eexists.
    split; [exact W |]. split; [exact R |]. split; [exact Rd |].
    split; [| split; [| split]].
    + apply RoundingText.six_decimals_within_1e6; assumption.
    + apply RoundingText.six_decimals_within_1e6; assumption.
    + apply RoundingText.twist_through_text; assumption.
    + apply RoundingText.twist_through_text; assumption.
  - eexists. split; [exact W |].
    split; simpl; unfold radians_to_degrees; tauto.
Qed.

(** The arc of distance 1.2345678 and twists of one radian is written and
    read back into a map that holds its tags with goodness 50. *)
Lemma Arc__write_read_six_decimals_witness :
  round_trip_to_six_decimals six_decimals lookup_tag (lookup_arc arc_2_5) 0
    arc_fine /\
  exists calls,
    Arc__write arc_fine = Ok (tt, calls) /\
    In (File__format " From_Twist=%f"
          (Double_Argument (mul (from_twist arc_fine) (div (of_Z 180) pi))))
       calls /\
    In (File__format " To_Twist=%f"
          (Double_Argument (mul (to_twist arc_fine) (div (of_Z 180) pi))))
       calls.
Proof.
  apply (Arc__write_read_six_decimals lookup_tag (lookup_arc arc_2_5) 0
           arc_fine arc_2_5 (tag_of_id 2) (tag_of_id 5)
           (tag_of_id 2) (tag_of_id 5)).
  - split; reflexivity.
  - reflexivity.
  - split; [split; reflexivity | simpl; lia].
  - vm_compute; reflexivity.
  - split; [vm_compute; reflexivity |].
    split; [reflexivity | apply Z.ltb_lt; vm_compute; reflexivity].
  - split; [vm_compute; reflexivity | reflexivity].
  - split; [vm_compute; reflexivity |].
    split; [reflexivity | apply Z.leb_le; vm_compute; reflexivity].
  - split; [vm_compute; reflexivity |].
    split; [reflexivity | apply Z.leb_le; vm_compute; reflexivity].
Defined.

(** The twist of [arc_45], 45 degrees, is [0.785398...] radians. *)
Lemma quarter_pi_value :
  785398 * 2 ^ 1074 <= 10 ^ 6 * scaled quarter_pi < 785399 * 2 ^ 1074.
Proof.
  split; [apply Z.leb_le | apply Z.ltb_lt]; vm_compute; reflexivity.
Qed.

(** * Further properties of the routines *)

(** ** More order facts on doubles *)

Module DoubleOrder.

Ltac compare_cases :=
  repeat match goal with
  | H : context [Z.compare ?a ?b] |- _ =>
      destruct (Z.compare_spec a b); try subst
  | H : context [Pos.compare_cont Eq ?a ?b] |- _ =>
      change (Pos.compare_cont Eq a b) with (Pos.compare a b) in *;
      destruct (Pos.compare_spec a b); try subst
  | |- context [Z.compare ?a ?b] =>
      destruct (Z.compare_spec a b); try subst
  | |- context [Pos.compare_cont Eq ?a ?b] =>
      change (Pos.compare_cont Eq a b) with (Pos.compare a b) in *;
      destruct (Pos.compare_spec a b); try subst
  end.

Ltac three_doubles a b c :=
  destruct a as [?s|?s| |?s ?m ?e], b as [?s|?s| |?s ?m ?e],
    c as [?s|?s| |?s ?m ?e]; simpl; try discriminate;
  repeat match goal with s : bool |- _ => destruct s end; simpl;
  let H1 := fresh in let H2 := fresh in
  intros H1 H2; try congruence;
  injection H1 as H1; injection H2 as H2; f_equal;
  compare_cases; simpl in *; try congruence; try lia.

Lemma compare_trans (a b c : double) (r : comparison) :
  SFcompare a b = Some r -> SFcompare b c = Some r -> SFcompare a c = Some r.
Proof. three_doubles a b c. Qed.

Lemma compare_eq_r (a b c : double) (r : comparison) :
  SFcompare a b = Some r -> SFcompare b c = Some Eq -> SFcompare a c = Some r.
Proof. three_doubles a b c. Qed.

Lemma compare_eq_l (a b c : double) (r : comparison) :
  SFcompare a b = Some Eq -> SFcompare b c = Some r -> SFcompare a c = Some r.
Proof. three_doubles a b c. Qed.

Lemma gtb_compare (a b : double) :
  gtb a b = true <-> SFcompare a b = Some Gt.
Proof.
  unfold gtb, SFltb. rewrite (DoubleFacts.compare_antisym a b).
  destruct (SFcompare a b) as [[]|]; simpl; split; congruence.
Qed.

Lemma eqb_compare (a b : double) :
  eqb a b = true <-> SFcompare a b = Some Eq.
Proof.
  unfold eqb, SFeqb. destruct (SFcompare a b) as [[]|]; split; congruence.
Qed.

Lemma gtb_irrefl (a : double) : gtb a a = false.
Proof.
  apply not_true_is_false. rewrite gtb_compare. intros H.
  pose proof (DoubleFacts.compare_antisym a a) as S. rewrite H in S.
  discriminate S.
Qed.

Lemma gtb_asym (a b : double) : gtb a b = true -> gtb b a = false.
Proof.
  intros H. apply not_true_is_false. rewrite gtb_compare in *.
  rewrite (DoubleFacts.compare_antisym a b), H. discriminate.
Qed.

Lemma gtb_not_eqb (a b : double) :
  gtb a b = true -> eqb a b = false /\ eqb b a = false.
Proof.
  intros H. rewrite gtb_compare in H.
  split; apply not_true_is_false; rewrite eqb_compare;
    [|rewrite (DoubleFacts.compare_antisym a b)]; rewrite H; discriminate.
Qed.

Lemma eqb_not_gtb (a b : double) :
  eqb a b = true -> gtb a b = false /\ gtb b a = false.
Proof.
  intros H. rewrite eqb_compare in H.
  split; apply not_true_is_false; rewrite gtb_compare;
    [|rewrite (DoubleFacts.compare_antisym a b)]; rewrite H; discriminate.
Qed.

Lemma gtb_trans (a b c : double) :
  gtb a b = true -> gtb b c = true -> gtb a c = true.
Proof. rewrite !gtb_compare. apply compare_trans. Qed.

Lemma gtb_eqb_trans (a b c : double) :
  gtb a b = true -> eqb b c = true -> gtb a c = true.
Proof. rewrite !gtb_compare, eqb_compare. apply compare_eq_r. Qed.

Lemma eqb_gtb_trans (a b c : double) :
  eqb a b = true -> gtb b c = true -> gtb a c = true.
Proof. rewrite !gtb_compare, eqb_compare. apply compare_eq_l. Qed.

Lemma eqb_trans (a b c : double) :
  eqb a b = true -> eqb b c = true -> eqb a c = true.
Proof. rewrite !eqb_compare. apply compare_trans. Qed.

(** A NaN compares false with everything, on either side. *)
Lemma nan_compares_false (a b : double) :
  is_nan a = true \/ is_nan b = true ->
  gtb a b = false /\ gtb b a = false /\ eqb a b = false.
Proof.
  unfold gtb, eqb, SFltb, SFeqb.
  intros [H|H]; [destruct a | destruct b]; try discriminate H;
    [destruct b | destruct a]; auto.
Qed.

End DoubleOrder.

(** ** The two comparators together *)

(** X11. [Arc__less] and [Arc__equal] split the pairs of arcs three ways: of
    "before", "equal" and "after" exactly one holds, so a container
    ordered by [Arc__less] finds an arc exactly when [Arc__equal] says it
    is there. *)
Theorem Arc__less_equal_trichotomy
    (arc1 arc2 : Arc) (f1 t1 f2 t2 : Tag__Struct)
    (E1 : ends arc1 f1 t1) (E2 : ends arc2 f2 t2) :
  (Arc__less arc1 arc2 = Ok true /\ Arc__equal arc1 arc2 = Ok false /\
   Arc__less arc2 arc1 = Ok false) \/
  (Arc__less arc1 arc2 = Ok false /\ Arc__equal arc1 arc2 = Ok true /\
   Arc__less arc2 arc1 = Ok false) \/
  (Arc__less arc1 arc2 = Ok false /\ Arc__equal arc1 arc2 = Ok false /\
   Arc__less arc2 arc1 = Ok true).
Proof.
  rewrite (Arc__less_ends _ _ _ _ _ _ E1 E2),
          (Arc__less_ends _ _ _ _ _ _ E2 E1),
          (Arc__equal_ends _ _ _ _ _ _ E1 E2).
  destruct (Z.lt_total (id f1) (id f2)) as [L|[L|L]];
    [|destruct (Z.lt_total (id t1) (id t2)) as [M|[M|M]]|].
  - left. repeat split; f_equal; lia.
  - left. repeat split; f_equal; lia.
  - right. left. repeat split; f_equal; lia.
  - right. right. repeat split; f_equal; lia.
  - right. right. repeat split; f_equal; lia.
Qed.

Lemma Arc__less_equal_trichotomy_witness :
  ends arc_2_5 (tag_of_id 2) (tag_of_id 5) /\
  ends arc_2_7 (tag_of_id 2) (tag_of_id 7) /\
  Arc__less arc_2_5 arc_2_7 = Ok true /\
  Arc__equal arc_2_5 arc_2_7 = Ok false /\
  Arc__less arc_2_7 arc_2_5 = Ok false.
Proof.
  assert (E5 : ends arc_2_5 (tag_of_id 2) (tag_of_id 5))
    by (split; reflexivity).
  assert (E7 : ends arc_2_7 (tag_of_id 2) (tag_of_id 7))
    by (split; reflexivity).
  split; [exact E5|]. split; [exact E7|].
  destruct (Arc__less_equal_trichotomy arc_2_5 arc_2_7 _ _ _ _ E5 E7)
    as [H|[(H & _)|(H & _)]]; [exact H | discriminate H | discriminate H].
Defined.

(** ** The growth order as an order *)

Lemma Arc__distance_less_ends (arc1 arc2 : Arc) (f1 t1 f2 t2 : Tag__Struct) :
  ends arc1 f1 t1 -> ends arc2 f2 t2 ->
  Arc__distance_less arc1 arc2 =
  Ok (gtb (distance arc1) (distance arc2) ||
      eqb (distance arc1) (distance arc2) &&
      (Z.min (hop_count f1) (hop_count t1)
       >? Z.min (hop_count f2) (hop_count t2))).
Proof.
  intros [Hf1 Ht1] [Hf2 Ht2]. unfold Arc__distance_less.
  rewrite Hf1, Ht1, Hf2, Ht2. simpl. rewrite !std_min_spec.
  destruct (gtb (distance arc1) (distance arc2)); simpl; trivial.
  destruct (eqb (distance arc1) (distance arc2)); simpl; trivial.
  destruct (_ >? _); reflexivity.
Qed.

(** X12. [Arc__distance_less] is a strict order on arcs whose ends are set: no
    arc comes before itself, two arcs never come before each other, and
    "before" is transitive, NaN distances included. *)
Theorem Arc__distance_less_strict_order
    (arc1 arc2 arc3 : Arc) (f1 t1 f2 t2 f3 t3 : Tag__Struct)
    (E1 : ends arc1 f1 t1) (E2 : ends arc2 f2 t2) (E3 : ends arc3 f3 t3) :
  Arc__distance_less arc1 arc1 = Ok false /\
  (Arc__distance_less arc1 arc2 = Ok true ->
   Arc__distance_less arc2 arc1 = Ok false) /\
  (Arc__distance_less arc1 arc2 = Ok true ->
   Arc__distance_less arc2 arc3 = Ok true ->
   Arc__distance_less arc1 arc3 = Ok true).
Proof.
  rewrite (Arc__distance_less_ends _ _ _ _ _ _ E1 E1),
          (Arc__distance_less_ends _ _ _ _ _ _ E1 E2),
          (Arc__distance_less_ends _ _ _ _ _ _ E2 E1),
          (Arc__distance_less_ends _ _ _ _ _ _ E2 E3),
          (Arc__distance_less_ends _ _ _ _ _ _ E1 E3).
  set (d1 := distance arc1). set (d2 := distance arc2).
  set (d3 := distance arc3).
  set (h1 := Z.min (hop_count f1) (hop_count t1)).
  set (h2 := Z.min (hop_count f2) (hop_count t2)).
  set (h3 := Z.min (hop_count f3) (hop_count t3)).
  assert (ok : forall b c : bool, Ok b = Ok c <-> b = c).
  { split; [intros H; injection H; trivial | intros ->; trivial]. }
  rewrite !ok. split; [|split].
  - rewrite DoubleOrder.gtb_irrefl. simpl.
    assert ((h1 >? h1) = false) as -> by lia. apply andb_false_r.
  - intros H. apply orb_true_iff in H. destruct H as [G|Q].
    + rewrite (DoubleOrder.gtb_asym _ _ G).
      destruct (DoubleOrder.gtb_not_eqb _ _ G) as [_ ->]. reflexivity.
    + apply andb_true_iff in Q. destruct Q as [Q L].
      destruct (DoubleOrder.eqb_not_gtb _ _ Q) as [_ ->]. simpl.
      apply andb_false_iff. right. lia.
  - intros H H'. apply orb_true_iff in H, H'. apply orb_true_iff.
    destruct H as [G|Q], H' as [G'|Q'].
    + left. exact (DoubleOrder.gtb_trans _ _ _ G G').
    + apply andb_true_iff in Q'. destruct Q' as [Q' _].
      left. exact (DoubleOrder.gtb_eqb_trans _ _ _ G Q').
    + apply andb_true_iff in Q. destruct Q as [Q _].
      left. exact (DoubleOrder.eqb_gtb_trans _ _ _ Q G').
    + apply andb_true_iff in Q, Q'.
      destruct Q as [Q L], Q' as [Q' L'].
      right. apply andb_true_iff. split.
      * exact (DoubleOrder.eqb_trans _ _ _ Q Q').
      * lia.
Qed.

Lemma Arc__distance_less_strict_order_witness :
  Arc__distance_less (arc_of_hops (of_Z 10) 0 0) (arc_of_hops (of_Z 7) 3 4)
    = Ok true /\
  Arc__distance_less (arc_of_hops (of_Z 7) 3 4) (arc_of_hops (of_Z 7) 8 1)
    = Ok true /\
  Arc__distance_less (arc_of_hops (of_Z 10) 0 0) (arc_of_hops (of_Z 7) 8 1)
    = Ok true.
Proof.
  assert (A : Arc__distance_less (arc_of_hops (of_Z 10) 0 0)
                (arc_of_hops (of_Z 7) 3 4) = Ok true) by reflexivity.
  assert (B : Arc__distance_less (arc_of_hops (of_Z 7) 3 4)
                (arc_of_hops (of_Z 7) 8 1) = Ok true) by reflexivity.
  split; [exact A|]. split; [exact B|].
  exact (proj2 (proj2 (Arc__distance_less_strict_order
           (arc_of_hops (of_Z 10) 0 0) (arc_of_hops (of_Z 7) 3 4)
           (arc_of_hops (of_Z 7) 8 1)
           (tag_of_hops 1 0) (tag_of_hops 2 0)
           (tag_of_hops 1 3) (tag_of_hops 2 4)
           (tag_of_hops 1 8) (tag_of_hops 2 1)
           (conj eq_refl eq_refl) (conj eq_refl eq_refl)
           (conj eq_refl eq_refl))) A B).
Defined.

(** X13. When the two distances are not equal, and so whenever one of them
    is a NaN, [Arc__distance_less] answers from the distances alone: it
    does not read the tags, which may be null. An arc whose distance is a
    NaN comes neither before nor after any arc. *)
Theorem Arc__distance_less_unequal_distances (arc1 arc2 : Arc) :
  (eqb (distance arc1) (distance arc2) = false ->
   Arc__distance_less arc1 arc2
     = Ok (gtb (distance arc1) (distance arc2))) /\
  (is_nan (distance arc1) = true \/ is_nan (distance arc2) = true ->
   Arc__distance_less arc1 arc2 = Ok false /\
   Arc__distance_less arc2 arc1 = Ok false).
Proof.
  split.
  - intros Q. unfold Arc__distance_less. rewrite Q.
    destruct (gtb _ _); reflexivity.
  - intros N.
    destruct (DoubleOrder.nan_compares_false _ _ N) as (G & G' & Q).
    assert (Q' : eqb (distance arc2) (distance arc1) = false).
    { apply (DoubleOrder.nan_compares_false (distance arc2) (distance arc1)).
      tauto. }
    unfold Arc__distance_less. rewrite G, G', Q, Q'. auto.
Qed.

Lemma Arc__distance_less_unequal_distances_witness :
  Arc__distance_less (arc_without_ends (of_Z 10)) (arc_without_ends (of_Z 5))
    = Ok true /\
  Arc__distance_less (arc_without_ends S754_nan) (arc_without_ends (of_Z 5))
    = Ok false /\
  Arc__distance_less (arc_without_ends (of_Z 5)) (arc_without_ends S754_nan)
    = Ok false.
Proof.
  split.
  - apply (proj1 (Arc__distance_less_unequal_distances
             (arc_without_ends (of_Z 10)) (arc_without_ends (of_Z 5)))).
    reflexivity.
  - apply (proj2 (Arc__distance_less_unequal_distances
             (arc_without_ends S754_nan) (arc_without_ends (of_Z 5)))).
    left. reflexivity.
Defined.

(** ** More on creation *)

(** X1. [Arc__create] keeps each twist with the tag it was given for: the
    arc holds the two pairs as given when the first id is at most the
    second, and exchanged, tag and twist together, otherwise. The distance
    and the goodness are stored as given, and the arc starts out of the
    tree and unvisited. *)
Theorem Arc__create_keeps_pairs (a b : Tag__Struct) (ta d tb q : double) :
  exists arc calls,
    Arc__create (Some a) ta d (Some b) tb q = Ok (arc, calls) /\
    distance arc = d /\ goodness arc = q /\
    in_tree arc = false /\ visit arc = 0 /\
    (id a <= id b /\
       from_tag arc = Some a /\ from_twist arc = ta /\
       to_tag arc = Some b /\ to_twist arc = tb
     \/
     id b < id a /\
       from_tag arc = Some b /\ from_twist arc = tb /\
       to_tag arc = Some a /\ to_twist arc = ta).
Proof.
  rewrite Arc__create_some.
  destruct (Z.gtb_spec (id a) (id b)) as [G|G]; cbv zeta;
    do 2 eexists; (split; [reflexivity|]); cbn;
    repeat (split; [reflexivity|]).
  - right. repeat split. exact G.
  - left. repeat split. exact G.
Qed.

(** X2. [Arc__create] makes three calls, in this order: it appends the new
    arc to the arcs of its from tag, to the arcs of its to tag, and to the
    arcs of the map of its from tag. After an exchange that map is the
    one of the second tag given, not of the first. *)
Theorem Arc__create_registers (a b : Tag__Struct) (ta d tb q : double) :
  exists arc calls f t,
    Arc__create (Some a) ta d (Some b) tb q = Ok (arc, calls) /\
    ends arc f t /\
    calls = [Tag__arc_append (Some f) arc;
             Tag__arc_append (Some t) arc;
             Map__arc_append (map f) arc] /\
    (id b < id a -> map f = map b) /\
    (id a <= id b -> map f = map a).
Proof.
  rewrite Arc__create_some.
  destruct (Z.gtb_spec (id a) (id b)) as [G|G]; cbv zeta.
  - do 2 eexists. exists b, a. split; [reflexivity|].
    split; [split; reflexivity|]. split; [reflexivity|].
    split; [reflexivity | lia].
  - do 2 eexists. exists a, b. split; [reflexivity|].
    split; [split; reflexivity|]. split; [reflexivity|].
    split; [lia | reflexivity].
Qed.

Lemma Arc__create_registers_witness :
  exists arc calls,
    Arc__create (Some tag_5_elsewhere) zero (of_Z 2)
                (Some (tag_of_id 2)) zero (of_Z 50) = Ok (arc, calls) /\
    In (Map__arc_append 0 arc) calls /\
    map tag_5_elsewhere = 3.
Proof.
  destruct (Arc__create_registers tag_5_elsewhere (tag_of_id 2)
              zero (of_Z 2) zero (of_Z 50))
    as (arc & calls & f & t & C & _ & L & M & _).
  exists arc, calls. split; [exact C|]. split; [|reflexivity].
  rewrite L, (M ltac:(simpl; lia)). simpl. auto.
Defined.

(** ** Creation, then updates *)

(** X3. On an arc that [Arc__create] made from two tags of different ids,
    [Arc__update] returns for every positive distance. On an arc made
    from two tags of the same id it never returns: the first assertion
    fails whatever the measurements are. *)
Theorem Arc__create_then_update
    (a b : Tag__Struct) (ta d tb q ft d' tt g : double) :
  exists arc calls,
    Arc__create (Some a) ta d (Some b) tb q = Ok (arc, calls) /\
    (id a <> id b -> gtb d' zero = true ->
     Arc__update arc ft d' tt g = Ok (loaded arc ft d' tt g)) /\
    (id a = id b ->
     Arc__update arc ft d' tt g
       = Stop (Assertion_failed "arc->from_tag->id < arc->to_tag->id")).
Proof.
  rewrite Arc__create_some.
  destruct (Z.gtb_spec (id a) (id b)) as [G|G]; cbv zeta;
    do 2 eexists; (split; [reflexivity|]); split.
  - intros _ P. apply (Arc__update_ok _ b a); trivial. split; reflexivity.
  - intros Same. lia.
  - intros D P. apply (Arc__update_ok _ a b); [split; reflexivity | lia | trivial].
  - intros Same. unfold Arc__update. cbn.
    rewrite Same, Z.ltb_irrefl. reflexivity.
Qed.

Lemma Arc__create_then_update_witness :
  (exists arc calls,
     Arc__create (Some (tag_of_id 5)) zero (of_Z 2)
                 (Some (tag_of_id 2)) zero (of_Z 50) = Ok (arc, calls) /\
     Arc__update arc zero (of_Z 4) zero (of_Z 10)
       = Ok (loaded arc zero (of_Z 4) zero (of_Z 10))) /\
  (exists arc calls,
     Arc__create (Some (tag_of_id 3)) zero (of_Z 2)
                 (Some (tag_of_id 3)) zero (of_Z 50) = Ok (arc, calls) /\
     Arc__update arc zero (of_Z 4) zero (of_Z 10)
       = Stop (Assertion_failed "arc->from_tag->id < arc->to_tag->id")).
Proof.
  split.
  - destruct (Arc__create_then_update (tag_of_id 5) (tag_of_id 2)
                zero (of_Z 2) zero (of_Z 50) zero (of_Z 4) zero (of_Z 10))
      as (arc & calls & C & U & _).
    exists arc, calls. split; [exact C|].
    apply U; [simpl; lia | reflexivity].
  - destruct (Arc__create_then_update (tag_of_id 3) (tag_of_id 3)
                zero (of_Z 2) zero (of_Z 50) zero (of_Z 4) zero (of_Z 10))
      as (arc & calls & C & _ & U).
    exists arc, calls. split; [exact C|].
    apply U. reflexivity.
Defined.

(** X4. The last [Arc__update] wins: after an update that returned, a second
    update does exactly what it would have done on the original arc, and
    repeating the same update changes nothing. *)
Theorem Arc__update_last_wins
    (arc arc1 : Arc) (ft d tt g ft' d' tt' g' : double)
    (First : Arc__update arc ft d tt g = Ok arc1) :
  Arc__update arc1 ft' d' tt' g' = Arc__update arc ft' d' tt' g' /\
  Arc__update arc1 ft d tt g = Ok arc1.
Proof.
  apply Arc__update_inv in First.
  destruct First as (f & t & [Hf Ht] & L & P & ->).
  assert (R : forall ft0 d0 tt0 g0 ft1 d1 tt1 g1,
            Arc__update (loaded arc ft0 d0 tt0 g0) ft1 d1 tt1 g1
            = Arc__update arc ft1 d1 tt1 g1).
  { intros. unfold Arc__update, loaded. cbn. rewrite Hf, Ht. reflexivity. }
  split; [apply R|].
  rewrite R. rewrite (Arc__update_ok arc f t) by (trivial; split; trivial).
  unfold loaded. cbn. reflexivity.
Qed.

Lemma Arc__update_last_wins_witness :
  Arc__update arc_2_5 zero (of_Z 4) zero (of_Z 10)
    = Ok (loaded arc_2_5 zero (of_Z 4) zero (of_Z 10)) /\
  Arc__update (loaded arc_2_5 zero (of_Z 4) zero (of_Z 10))
    (of_Z 1) (of_Z 6) (of_Z 1) (of_Z 80)
    = Arc__update arc_2_5 (of_Z 1) (of_Z 6) (of_Z 1) (of_Z 80).
Proof.
  assert (U : Arc__update arc_2_5 zero (of_Z 4) zero (of_Z 10)
              = Ok (loaded arc_2_5 zero (of_Z 4) zero (of_Z 10)))
    by reflexivity.
  split; [exact U|].
  exact (proj1 (Arc__update_last_wins arc_2_5 _ zero (of_Z 4) zero (of_Z 10)
                  (of_Z 1) (of_Z 6) (of_Z 1) (of_Z 80) U)).
Defined.

(** ** The state that the assertions keep *)

(** X5. Ordered ends and a positive distance, the two facts the assertions
    of [Arc__update] check, hold of every arc that [Arc__update] returns,
    are kept by [Arc__read], and hold of the arc that [Arc__create] makes
    from two tags of different ids and a positive distance. *)
Theorem well_formed_kept
    (arc : Arc) (ft d tt g : double)
    (tag_lookup : Map -> Z -> Tag) (arc_lookup : Map -> Tag -> Tag -> Arc)
    (in_file : Arc__Attributes) (map0 : Map)
    (a b : Tag__Struct) (ta tb : double) :
  (forall arc', Arc__update arc ft d tt g = Ok arc' -> well_formed arc') /\
  (forall arc' calls,
     Arc__read tag_lookup arc_lookup in_file map0 = Ok (arc', calls) ->
     well_formed (stored_arc tag_lookup arc_lookup in_file map0) ->
     well_formed arc') /\
  (id a <> id b -> gtb d zero = true ->
   exists arc' calls,
     Arc__create (Some a) ta d (Some b) tb g = Ok (arc', calls) /\
     well_formed arc').
Proof.
  split; [|split].
  - intros arc' H. apply Arc__update_inv in H.
    destruct H as (f & t & [Hf Ht] & L & P & ->).
    exists f, t. repeat split; assumption.
  - intros arc' calls H W. apply Arc__read_inv in H.
    destruct H as [(_ & -> & _) | (_ & P & (f & t & [Hf Ht] & L) & -> & _)];
      [exact W|].
    exists f, t. repeat split; assumption.
  - intros D P. rewrite Arc__create_some.
    destruct (Z.gtb_spec (id a) (id b)) as [G|G]; cbv zeta;
      do 2 eexists; (split; [reflexivity|]).
    + exists b, a. repeat split; trivial.
    + exists a, b. repeat split; trivial. lia.
Qed.

Lemma well_formed_kept_witness :
  exists arc' calls,
    Arc__create (Some (tag_of_id 5)) zero (of_Z 2)
                (Some (tag_of_id 2)) zero (of_Z 50) = Ok (arc', calls) /\
    well_formed arc'.
Proof.
  apply (well_formed_kept arc_2_5 zero (of_Z 2) zero (of_Z 50)
           lookup_tag (lookup_arc arc_2_5) (record_2_5 (of_Z 4) (of_Z 10) 1)
           0 (tag_of_id 5) (tag_of_id 2) zero zero).
  - simpl. lia.
  - reflexivity.
Defined.

(** ** When [Arc__read] returns *)

(** X6. [Arc__read] returns exactly when the record is not better than the
    stored arc, or the stored arc has ordered ends and the distance of the
    record is positive. A record that is not better is never checked: its
    distance may be anything. *)
Theorem Arc__read_returns_iff
    (tag_lookup : Map -> Z -> Tag) (arc_lookup : Map -> Tag -> Tag -> Arc)
    (in_file : Arc__Attributes) (map0 : Map) :
  let arc := stored_arc tag_lookup arc_lookup in_file map0 in
  (exists arc' calls,
     Arc__read tag_lookup arc_lookup in_file map0 = Ok (arc', calls))
  <->
  gtb (goodness arc) (Goodness in_file) = false \/
  (exists f t, ends arc f t /\ id f < id t) /\
  gtb (Distance in_file) zero = true.
Proof.
  intros arc. split.
  - intros (arc' & calls & H). apply Arc__read_inv in H.
    destruct H as [(G & _) | (_ & P & E & _)]; [left | right]; auto.
  - destruct (gtb (goodness arc) (Goodness in_file)) eqn:G.
    + intros [H|[(f & t & E & L) P]]; [discriminate H|].
      do 2 eexists. exact (Arc__read_open_gate _ _ _ _ f t G E L P).
    + intros _. do 2 eexists. exact (Arc__read_closed_gate _ _ _ _ G).
Qed.

(** On the arc of goodness 50, a record of goodness 80 and distance -3
    is passed over, and a record of goodness 10 and distance -3 stops
    the routine. *)
Lemma Arc__read_returns_iff_witness :
  (exists arc' calls,
     Arc__read lookup_tag (lookup_arc arc_2_5)
       (record_2_5 (of_Z (-3)) (of_Z 80) 1) 0 = Ok (arc', calls)) /\
  ~ (exists arc' calls,
     Arc__read lookup_tag (lookup_arc arc_2_5)
       (record_2_5 (of_Z (-3)) (of_Z 10) 1) 0 = Ok (arc', calls)).
Proof.
  split.
  - apply (Arc__read_returns_iff lookup_tag (lookup_arc arc_2_5)
             (record_2_5 (of_Z (-3)) (of_Z 80) 1) 0).
    left. reflexivity.
  - intros H.
    apply (Arc__read_returns_iff lookup_tag (lookup_arc arc_2_5)
             (record_2_5 (of_Z (-3)) (of_Z 10) 1) 0) in H.
    destruct H as [H|[_ H]]; discriminate H.
Defined.

(** X7. Reading the same record a second time changes nothing: whatever the
    first [Arc__read] returned, a second one on the arc it left returns
    that arc as it is and does not tell the map. *)
Theorem Arc__read_twice
    (tag_lookup : Map -> Z -> Tag) (arc_lookup : Map -> Tag -> Tag -> Arc)
    (tag_lookup' : Map -> Z -> Tag) (arc_lookup' : Map -> Tag -> Tag -> Arc)
    (in_file : Arc__Attributes) (map0 : Map) (arc' : Arc) (calls : list Call)
    (First : Arc__read tag_lookup arc_lookup in_file map0 = Ok (arc', calls))
    (Kept : stored_arc tag_lookup' arc_lookup' in_file map0 = arc') :
  Arc__read tag_lookup' arc_lookup' in_file map0 = Ok (arc', []).
Proof.
  rewrite <- Kept. apply Arc__read_closed_gate. rewrite Kept.
  apply Arc__read_inv in First.
  destruct First as [(G & -> & _) | (_ & _ & _ & -> & _)]; [exact G|].
  cbn. apply DoubleOrder.gtb_irrefl.
Qed.

Lemma Arc__read_twice_witness :
  let record := record_2_5 (of_Z 4) (of_Z 10) 1 in
  exists arc',
    Arc__read lookup_tag (lookup_arc arc_2_5) record 0
      = Ok (arc', [Map__arc_announce 0 arc']) /\
    arc' <> arc_2_5 /\
    Arc__read lookup_tag (lookup_arc arc') record 0 = Ok (arc', []).
Proof.
  intros record.
  assert (F : Arc__read lookup_tag (lookup_arc arc_2_5) record 0
              = Ok (merged arc_2_5 record,
                    [Map__arc_announce 0 (merged arc_2_5 record)]))
    by reflexivity.
  exists (merged arc_2_5 record). split; [exact F|].
  split; [discriminate|].
  exact (Arc__read_twice lookup_tag (lookup_arc arc_2_5) lookup_tag
           (lookup_arc (merged arc_2_5 record)) record 0 _ _ F eq_refl).
Defined.

(** X8. [Arc__read] never touches the ends or the visit mark of the arc, and
    it either returns the arc unchanged or leaves it with a goodness
    strictly below the one it had. *)
Theorem Arc__read_frame_and_progress
    (tag_lookup : Map -> Z -> Tag) (arc_lookup : Map -> Tag -> Tag -> Arc)
    (in_file : Arc__Attributes) (map0 : Map) (arc' : Arc) (calls : list Call)
    (Read : Arc__read tag_lookup arc_lookup in_file map0 = Ok (arc', calls)) :
  let arc := stored_arc tag_lookup arc_lookup in_file map0 in
  from_tag arc' = from_tag arc /\
  to_tag arc' = to_tag arc /\
  visit arc' = visit arc /\
  (arc' = arc \/ ltb (goodness arc') (goodness arc) = true).
Proof.
  intros arc. apply Arc__read_inv in Read. fold arc in Read.
  destruct Read as [(_ & -> & _) | (G & _ & _ & -> & _)].
  - repeat split. left. reflexivity.
  - repeat split. right. exact G.
Qed.

Lemma Arc__read_frame_and_progress_witness :
  let record := record_2_5 (of_Z 4) (of_Z 10) 1 in
  exists arc',
    Arc__read lookup_tag (lookup_arc arc_2_5) record 0
      = Ok (arc', [Map__arc_announce 0 arc']) /\
    from_tag arc' = from_tag arc_2_5 /\
    ltb (goodness arc') (goodness arc_2_5) = true.
Proof.
  intros record.
  assert (F : Arc__read lookup_tag (lookup_arc arc_2_5) record 0
              = Ok (merged arc_2_5 record,
                    [Map__arc_announce 0 (merged arc_2_5 record)]))
    by reflexivity.
  exists (merged arc_2_5 record). split; [exact F|].
  destruct (Arc__read_frame_and_progress lookup_tag (lookup_arc arc_2_5)
              record 0 _ _ F) as (Hf & _ & _ & [U|P]).
  - discriminate U.
  - split; [exact Hf | exact P].
Defined.

(** ** From degrees to radians and back *)

Module RoundingDegrees.

Import Rounding.

(** A twist of at most 65536 degrees that goes to radians and back, as
    [Arc__read] and [Arc__write] convert it, comes back within [10^-9]. *)
Lemma degrees_round_trip (t : double) :
  valid t = true -> at_most_65536 t ->
  within_1e9 (mul (mul t degrees_to_radians) radians_to_degrees) t.
Proof.
  rewrite radians_to_degrees_value, degrees_to_radians_value.
  intros V [F B]. unfold within_1e9. rewrite F.
  destruct t as [s|s| |s mt et]; try discriminate.
  { simpl. repeat split. lia. }
  clear F. cbn [scaled] in B.
  assert (Le : -1074 <= et).
  { pose proof V as V'. unfold valid in V'. cbn [valid_binary] in V'.
    unfold bounded, canonical_mantissa in V'.
    apply andb_prop in V'. destruct V' as [V' _].
    apply Z.eqb_eq in V'. rewrite fexp_eq in V'. lia. }
  rewrite Z.shiftl_mul_pow2 in B by lia.
  set (T := Zpos mt * 2 ^ (et + 1074)) in *.
  assert (PT : 0 < T).
  { apply Z.mul_pos_pos; [lia | apply Z.pow_pos_nonneg; lia]. }
  change (65536 * 2 ^ 1074) with (2 ^ 1090) in B.
  assert (BT : T <= 2 ^ 1090) by (destruct s; lia).
  assert (Et : -1074 <= et <= -36).
  { assert (X : T < 2 ^ (17 + 1074)).
    { apply Z.le_lt_trans with (2 ^ 1090); trivial.
      apply Z.pow_lt_mono_r; lia. }
    pose proof (valid_exponent s mt et 17 V X). lia. }
  (* the product with degrees_to_radians *)
  set (mr := 8063664102031864%positive).
  set (md := 5030569068109113%positive).
  set (P := 2 ^ 1137).
  assert (PP : 0 < P) by (apply Z.pow_pos_nonneg; lia).
  assert (T' : Zpos mt * 2 ^ (et + 1179) = 2 ^ 105 * T).
  { unfold T. replace (et + 1179) with (et + 1074 + 105) by lia.
    rewrite Z.pow_add_r by lia. ring. }
  assert (p1090 : 2 ^ 1090 * 2 ^ 105 = 2 ^ 58 * P).
  { unfold P. rewrite <- !Z.pow_add_r by lia. reflexivity. }
  assert (V1 : 2 ^ 58 * (Zpos (mt * md) * 2 ^ (et - 58 + 1179))
               = 2 ^ 105 * T * Zpos md).
  { rewrite <- T'. rewrite Pos2Z.inj_mul.
    replace (et + 1179) with (et - 58 + 1179 + 58) by lia.
    rewrite (Z.pow_add_r 2 (et - 58 + 1179) 58) by lia. ring. }
  set (u := mul (S754_finite s mt et) (S754_finite false md (-58))).
  assert (R1 : finite_below s (-41) u /\
               Z.abs (magnitude 1179 u - Zpos (mt * md) * 2 ^ (et - 58 + 1179))
               <= 3 * P).
  { assert (p : P = 2 ^ (last_place 11 + 1179)) by reflexivity.
    rewrite p. unfold u, mul, SFmul. rewrite xorb_false_r.
    apply (binary_round_aux_bound s (mt * md) (et - 58) 11 1179).
    - lia.
    - lia.
    - change (last_place 11) with (-42). lia.
    - assert (q : 2 ^ 58 * 2 ^ (11 + 1179) = 2 ^ 53 * (2 ^ 58 * P)).
      { unfold P. rewrite <- !Z.pow_add_r by lia. reflexivity. }
      unfold md in V1. rewrite Pos2Z.inj_mul. unfold md.
      assert (2 ^ 105 * T <= 2 ^ 58 * P) by lia.
      lia. }
  destruct R1 as [F1 D1].
  set (Q := 2 ^ 1074) in *.
  assert (PQ : P = 2 ^ 63 * Q).
  { unfold P, Q. rewrite <- Z.pow_add_r by lia. reflexivity. }
  assert (BQ : T <= 2 ^ 16 * Q).
  { unfold Q. rewrite <- Z.pow_add_r by lia. exact BT. }
  assert (St : scaled (S754_finite s mt et) = if s then - T else T).
  { cbn [scaled]. rewrite Z.shiftl_mul_pow2 by lia. reflexivity. }
  rewrite St. clear St.
  unfold md in V1.
  set (X := Zpos (mt * 5030569068109113) * 2 ^ (et - 58 + 1179)) in *.
  destruct u as [su|su| |su mu eu]; cbn [finite_below] in F1;
    try contradiction.
  - (* the first product is rounded to zero *)
    cbn [magnitude] in D1. simpl mul. cbn [scaled is_finite].
    repeat split. destruct s; lia.
  - destruct F1 as [-> Eu].
    set (U := magnitude 1179 (S754_finite s mu eu)) in *.
    assert (V2 : 2 ^ 47 * (Zpos (mu * mr) * 2 ^ (eu - 47 + 1179))
                 = U * Zpos mr).
    { unfold U. cbn [magnitude]. rewrite Pos2Z.inj_mul.
      replace (eu + 1179) with (eu - 47 + 1179 + 47) by lia.
      rewrite (Z.pow_add_r 2 (eu - 47 + 1179) 47) by lia. ring. }
    unfold mr in V2.
    set (Y := Zpos (mu * 8063664102031864) * 2 ^ (eu - 47 + 1179)) in *.
    set (w := mul (S754_finite s mu eu) (S754_finite false mr (-47))).
    assert (R2 : finite_below s (-35) w /\
                 Z.abs (magnitude 1179 w - Y) <= 3 * (64 * P)).
    { assert (p : 64 * P = 2 ^ (last_place 17 + 1179)).
      { unfold P. change 64 with (2 ^ 6). rewrite <- Z.pow_add_r by lia.
        reflexivity. }
      rewrite p. unfold w, mul, SFmul. rewrite xorb_false_r.
      apply (binary_round_aux_bound s (mu * mr) (eu - 47) 17 1179).
      - lia.
      - lia.
      - change (last_place 17) with (-36). lia.
      - fold Y.
        assert (q : 2 ^ (17 + 1179) = 2 ^ 59 * P).
        { unfold P. rewrite <- Z.pow_add_r by lia. reflexivity. }
        rewrite q. lia. }
    destruct R2 as [F2 D2].
    destruct (magnitude_scaled s (-35) w F2) as [W Sw].
    split; [|split; [reflexivity|]].
    + destruct w; cbn [finite_below] in F2; try contradiction; reflexivity.
    + rewrite Sw. rewrite W in D2.
      assert (0 <= Z.abs (scaled w)) by apply Z.abs_nonneg.
      destruct s; lia.
Qed.

End RoundingDegrees.

(** ** Edge cases of [Arc__read] *)

(** X9. A NaN never passes the gate, on either side: a record whose goodness
    is a NaN is passed over, and an arc whose stored goodness is a NaN is
    never loaded again by [Arc__read], whatever the record. *)
Theorem Arc__read_nan_goodness
    (tag_lookup : Map -> Z -> Tag) (arc_lookup : Map -> Tag -> Tag -> Arc)
    (in_file : Arc__Attributes) (map0 : Map) :
  let arc := stored_arc tag_lookup arc_lookup in_file map0 in
  is_nan (Goodness in_file) = true \/ is_nan (goodness arc) = true ->
  Arc__read tag_lookup arc_lookup in_file map0 = Ok (arc, []).
Proof.
  intros arc N. apply Arc__read_closed_gate.
  apply (DoubleOrder.nan_compares_false (goodness arc) (Goodness in_file)).
  tauto.
Qed.

Lemma Arc__read_nan_goodness_witness :
  Arc__read lookup_tag (lookup_arc arc_2_5)
    (record_2_5 (of_Z 4) S754_nan 1) 0 = Ok (arc_2_5, []) /\
  Arc__read lookup_tag (lookup_arc (loaded arc_2_5 zero (of_Z 2) zero S754_nan))
    (record_2_5 (of_Z 4) (of_Z 10) 1) 0
    = Ok (loaded arc_2_5 zero (of_Z 2) zero S754_nan, []).
Proof.
  split.
  - apply (Arc__read_nan_goodness lookup_tag (lookup_arc arc_2_5)
             (record_2_5 (of_Z 4) S754_nan 1) 0).
    left. reflexivity.
  - apply (Arc__read_nan_goodness lookup_tag
             (lookup_arc (loaded arc_2_5 zero (of_Z 2) zero S754_nan))
             (record_2_5 (of_Z 4) (of_Z 10) 1) 0).
    right. reflexivity.
Defined.

Lemma to_unsigned_add (z k : Z) :
  to_unsigned (z + k * UINT_MODULUS) = to_unsigned z.
Proof. unfold to_unsigned. apply Z.mod_add. discriminate. Qed.

Lemma to_unsigned_range (z : Z) : 0 <= to_unsigned z < UINT_MODULUS.
Proof. unfold to_unsigned. apply Z.mod_pos_bound. reflexivity. Qed.

Lemma to_unsigned_small (z : Z) :
  0 <= z < UINT_MODULUS -> to_unsigned z = z.
Proof. unfold to_unsigned. apply Z.mod_small. Qed.

(** X10. [Arc__read] uses the two tag ids of a record only modulo [2^32], and
    its [In_Tree] attribute only as zero or not zero: two records that
    agree up to that are read alike. *)
Theorem Arc__read_casts
    (tag_lookup : Map -> Z -> Tag) (arc_lookup : Map -> Tag -> Tag -> Arc)
    (in_file in_file' : Arc__Attributes) (map0 : Map) (k1 k2 : Z)
    (From_id : From_Tag_Id in_file' = From_Tag_Id in_file + k1 * 2 ^ 32)
    (To_id : To_Tag_Id in_file' = To_Tag_Id in_file + k2 * 2 ^ 32)
    (Flag : In_Tree in_file' = 0 <-> In_Tree in_file = 0)
    (Doubles :
       From_Twist in_file' = From_Twist in_file /\
       Distance in_file' = Distance in_file /\
       To_Twist in_file' = To_Twist in_file /\
       Goodness in_file' = Goodness in_file) :
  Arc__read tag_lookup arc_lookup in_file' map0
  = Arc__read tag_lookup arc_lookup in_file map0.
Proof.
  destruct Doubles as (D1 & D2 & D3 & D4).
  unfold Arc__read. cbv zeta.
  rewrite From_id, To_id, D1, D2, D3, D4.
  change (2 ^ 32) with UINT_MODULUS. rewrite !to_unsigned_add.
  assert (to_bool (In_Tree in_file') = to_bool (In_Tree in_file)) as ->.
  { unfold to_bool. f_equal.
    destruct (Z.eqb_spec (In_Tree in_file') 0),
             (Z.eqb_spec (In_Tree in_file) 0); tauto. }
  reflexivity.
Qed.

Lemma Arc__read_casts_witness :
  Arc__read lookup_tag (lookup_arc arc_2_5)
    {| From_Tag_Id := 2 - 2 ^ 32; From_Twist := of_Z 10;
       Distance := of_Z 4; To_Tag_Id := 5 + 2 ^ 32; To_Twist := of_Z 30;
       Goodness := of_Z 10; In_Tree := -7 |} 0
  = Arc__read lookup_tag (lookup_arc arc_2_5)
      (record_2_5 (of_Z 4) (of_Z 10) 1) 0.
Proof.
  apply (Arc__read_casts lookup_tag (lookup_arc arc_2_5)
           (record_2_5 (of_Z 4) (of_Z 10) 1) _ 0 (-1) 1).
  - reflexivity.
  - reflexivity.
  - simpl. lia.
  - repeat split.
Defined.

(** ** Loading and the identity of an arc *)

Lemma same_tags_same_order (arc arc' other : Arc) :
  from_tag arc' = from_tag arc -> to_tag arc' = to_tag arc ->
  Arc__equal arc' other = Arc__equal arc other /\
  Arc__equal other arc' = Arc__equal other arc /\
  Arc__less arc' other = Arc__less arc other /\
  Arc__less other arc' = Arc__less other arc.
Proof.
  intros Hf Ht. unfold Arc__equal, Arc__less. rewrite Hf, Ht. auto.
Qed.

(** X14. Loading measurements never moves an arc in the identity order: after
    [Arc__update] or [Arc__read], [Arc__equal] and [Arc__less] give the
    same answers against every other arc as before, on either side; and
    [Arc__update] leaves the drawing of the arc as it was. *)
Theorem loading_keeps_identity
    (arc other : Arc) (ft d tt g : double)
    (tag_lookup : Map -> Z -> Tag) (arc_lookup : Map -> Tag -> Tag -> Arc)
    (in_file : Arc__Attributes) (map0 : Map) :
  (forall arc', Arc__update arc ft d tt g = Ok arc' ->
     Arc__equal arc' other = Arc__equal arc other /\
     Arc__equal other arc' = Arc__equal other arc /\
     Arc__less arc' other = Arc__less arc other /\
     Arc__less other arc' = Arc__less other arc /\
     Arc__svg_write arc' = Arc__svg_write arc) /\
  (forall arc' calls,
     Arc__read tag_lookup arc_lookup in_file map0 = Ok (arc', calls) ->
     let stored := stored_arc tag_lookup arc_lookup in_file map0 in
     Arc__equal arc' other = Arc__equal stored other /\
     Arc__equal other arc' = Arc__equal other stored /\
     Arc__less arc' other = Arc__less stored other /\
     Arc__less other arc' = Arc__less other stored).
Proof.
  split.
  - intros arc' H. apply Arc__update_inv in H.
    destruct H as (_ & _ & _ & _ & _ & ->).
    destruct (same_tags_same_order arc (loaded arc ft d tt g) other
                eq_refl eq_refl) as (A & B & C & D).
    repeat split; assumption.
  - intros arc' calls H stored. apply Arc__read_inv in H. fold stored in H.
    destruct H as [(_ & -> & _) | (_ & _ & _ & -> & _)].
    + repeat split.
    + exact (same_tags_same_order stored (merged stored in_file) other
               eq_refl eq_refl).
Qed.

Lemma loading_keeps_identity_witness :
  Arc__update arc_2_5 zero (of_Z 4) zero (of_Z 10)
    = Ok (loaded arc_2_5 zero (of_Z 4) zero (of_Z 10)) /\
  Arc__less (loaded arc_2_5 zero (of_Z 4) zero (of_Z 10)) arc_2_7
    = Arc__less arc_2_5 arc_2_7.
Proof.
  assert (U : Arc__update arc_2_5 zero (of_Z 4) zero (of_Z 10)
              = Ok (loaded arc_2_5 zero (of_Z 4) zero (of_Z 10)))
    by reflexivity.
  split; [exact U|].
  destruct (proj1 (loading_keeps_identity arc_2_5 arc_2_7 zero (of_Z 4) zero
                     (of_Z 10) lookup_tag (lookup_arc arc_2_5)
                     (record_2_5 (of_Z 4) (of_Z 10) 1) 0) _ U)
    as (_ & _ & L & _).
  exact L.
Defined.

(** ** Reading a record, then writing the arc *)

Lemma Arc__write_merged (stored : Arc) (in_file : Arc__Attributes)
    (f t : Tag__Struct) :
  ends stored f t ->
  Arc__write (merged stored in_file) =
  Ok (tt,
      [File__format " <Arc" No_Argument;
       File__format " From_Tag_Id=%d" (Integer_Argument (id f));
       File__format " From_Twist=%f"
         (Double_Argument
            (mul (mul (From_Twist in_file) degrees_to_radians)
               radians_to_degrees));
       File__format " Distance=%f" (Double_Argument (Distance in_file));
       File__format " To_Tag_Id=%d" (Integer_Argument (id t));
       File__format " To_Twist=%f"
         (Double_Argument
            (mul (mul (To_Twist in_file) degrees_to_radians)
               radians_to_degrees));
       File__format " Goodness=%f" (Double_Argument (Goodness in_file));
       File__format " In_Tree=%d"
         (Integer_Argument (if to_bool (In_Tree in_file) then 1 else 0));
       File__format "/>" No_Argument]).
Proof.
  intros E. apply (Arc__write_ends (merged stored in_file) f t). exact E.
Qed.

(** X15. When [Arc__read] has loaded a record, [Arc__write] of the arc writes
    the distance and the goodness of the record as they were read, the
    ids of the ends of the stored arc, [In_Tree] as 1 or 0, and, for
    twists that are binary64 values of at most 65536 degrees, twists
    within [10^-9] degrees of those of the record. *)
Theorem Arc__read_write_round_trip
    (tag_lookup : Map -> Z -> Tag) (arc_lookup : Map -> Tag -> Tag -> Arc)
    (in_file : Arc__Attributes) (map0 : Map) (arc' : Arc) (calls : list Call)
    (Read : Arc__read tag_lookup arc_lookup in_file map0 = Ok (arc', calls))
    (Loaded : gtb (goodness (stored_arc tag_lookup arc_lookup in_file map0))
                (Goodness in_file) = true)
    (From_twist :
       valid (From_Twist in_file) = true /\
       at_most_65536 (From_Twist in_file))
    (To_twist :
       valid (To_Twist in_file) = true /\ at_most_65536 (To_Twist in_file)) :
  exists written from_degrees to_degrees,
    Arc__write arc' = Ok (tt, written) /\
    written_double " Distance=%f" written = Some (Distance in_file) /\
    written_double " Goodness=%f" written = Some (Goodness in_file) /\
    written_double " From_Twist=%f" written = Some from_degrees /\
    within_1e9 from_degrees (From_Twist in_file) /\
    written_double " To_Twist=%f" written = Some to_degrees /\
    within_1e9 to_degrees (To_Twist in_file) /\
    In (File__format " In_Tree=%d"
          (Integer_Argument (if In_Tree in_file =? 0 then 0 else 1)))
       written.
Proof.
  apply Arc__read_inv in Read.
  destruct Read as [(G & _) | (_ & _ & (f & t & E & _) & -> & _)];
    [congruence|].
  eexists. do 2 eexists.
  split; [exact (Arc__write_merged _ in_file f t E)|].
  split; [reflexivity|]. split; [reflexivity|]. split; [reflexivity|].
  split; [apply RoundingDegrees.degrees_round_trip; apply From_twist|].
  split; [reflexivity|].
  split; [apply RoundingDegrees.degrees_round_trip; apply To_twist|].
  do 7 right. left. unfold to_bool.
  destruct (In_Tree in_file =? 0); reflexivity.
Qed.

Lemma Arc__read_write_round_trip_witness :
  let record := record_2_5 (of_Z 4) (of_Z 10) 1 in
  exists arc' written from_degrees,
    Arc__read lookup_tag (lookup_arc arc_2_5) record 0
      = Ok (arc', [Map__arc_announce 0 arc']) /\
    Arc__write arc' = Ok (tt, written) /\
    written_double " Distance=%f" written = Some (of_Z 4) /\
    written_double " From_Twist=%f" written = Some from_degrees /\
    within_1e9 from_degrees (of_Z 10).
Proof.
  intros record.
  assert (F : Arc__read lookup_tag (lookup_arc arc_2_5) record 0
              = Ok (merged arc_2_5 record,
                    [Map__arc_announce 0 (merged arc_2_5 record)]))
    by reflexivity.
  assert (T10 : valid (of_Z 10) = true /\ at_most_65536 (of_Z 10)).
  { split; [reflexivity|]. split; [reflexivity|].
    apply Z.leb_le. vm_compute. reflexivity. }
  assert (T30 : valid (of_Z 30) = true /\ at_most_65536 (of_Z 30)).
  { split; [reflexivity|]. split; [reflexivity|].
    apply Z.leb_le. vm_compute. reflexivity. }
  destruct (Arc__read_write_round_trip lookup_tag (lookup_arc arc_2_5)
              record 0 _ _ F eq_refl T10 T30)
    as (written & fd & td & W & D & _ & Wf & Cf & _).
  exists (merged arc_2_5 record), written, fd.
  repeat (split; [assumption|]). exact Cf.
Defined.

(** ** Writing an arc, then reading the record *)

(** X16. The record written for an arc names the ids of its two ends and its
    [in_tree] flag so that [Arc__read] gets them back: for ids that fit
    an [unsigned int], the arc looked up is the one for those two ids, and
    a load leaves the arc with the [in_tree] flag of the arc written. *)
Theorem Arc__write_read_ids_and_flag
    (reread : double -> double)
    (tag_lookup : Map -> Z -> Tag) (arc_lookup : Map -> Tag -> Tag -> Arc)
    (map0 : Map) (e : Arc) (f t : Tag__Struct)
    (Ends : ends e f t)
    (Fits : 0 <= id f < 2 ^ 32 /\ 0 <= id t < 2 ^ 32) :
  exists written in_file,
    Arc__write e = Ok (tt, written) /\
    File__reread reread written = Some in_file /\
    stored_arc tag_lookup arc_lookup in_file map0
      = arc_lookup map0 (tag_lookup map0 (id f)) (tag_lookup map0 (id t)) /\
    (forall arc' calls,
       Arc__read tag_lookup arc_lookup in_file map0 = Ok (arc', calls) ->
       arc' = stored_arc tag_lookup arc_lookup in_file map0 \/
       in_tree arc' = in_tree e).
Proof.
  destruct Fits as [Ff Ft].
  pose proof (Arc__write_ends e f t Ends) as W.
  eexists. exists (record_of reread e f t).
  split; [exact W|].
  split; [exact (File__reread_write reread e f t _ Ends W)|].
  split.
  - unfold stored_arc, record_of. cbn.
    rewrite !to_unsigned_small by assumption. reflexivity.
  - intros arc' calls H. apply Arc__read_inv in H.
    destruct H as [(_ & -> & _) | (_ & _ & _ & -> & _)];
      [left; reflexivity | right].
    cbn. destruct (in_tree e); reflexivity.
Qed.

Lemma Arc__write_read_ids_and_flag_witness :
  exists written in_file arc',
    Arc__write arc_45 = Ok (tt, written) /\
    File__reread exact_text written = Some in_file /\
    Arc__read lookup_tag (lookup_arc arc_2_5) in_file 0
      = Ok (arc', [Map__arc_announce 0 arc']) /\
    in_tree arc_2_5 = false /\ in_tree arc' = true.
Proof.
  destruct (Arc__write_read_ids_and_flag exact_text lookup_tag
              (lookup_arc arc_2_5) 0 arc_45 (tag_of_id 2) (tag_of_id 5)
              (conj eq_refl eq_refl) ltac:(simpl; lia))
    as (written & in_file & W & R & _ & K).
  pose proof (File__reread_write exact_text arc_45 (tag_of_id 2)
                (tag_of_id 5) written (conj eq_refl eq_refl) W) as R'.
  rewrite R in R'. injection R' as ->.
  assert (Rd : Arc__read lookup_tag (lookup_arc arc_2_5)
                 (record_of exact_text arc_45 (tag_of_id 2) (tag_of_id 5)) 0
               = Ok (merged arc_2_5
                       (record_of exact_text arc_45 (tag_of_id 2)
                          (tag_of_id 5)),
                     [Map__arc_announce 0
                        (merged arc_2_5
                           (record_of exact_text arc_45 (tag_of_id 2)
                              (tag_of_id 5)))])).
  { apply (Arc__read_open_gate lookup_tag (lookup_arc arc_2_5) _ 0
             (tag_of_id 2) (tag_of_id 5));
      [reflexivity | split; reflexivity | simpl; lia | reflexivity]. }
  exists written. do 2 eexists.
  split; [exact W|]. split; [exact R|]. split; [exact Rd|].
  split; [reflexivity|].
  destruct (K _ _ Rd) as [Same|Flag]; [|exact Flag].
  apply (f_equal in_tree) in Same. discriminate Same.
Defined.

(** ** The identity order on created arcs *)

(** X17. Two arcs that [Arc__create] made are [Arc__equal] exactly when they
    join the same two ids, in whatever order the tags were given, and
    [Arc__less] orders them as the pairs (smaller id, larger id), the
    smaller id first. *)
Theorem Arc__create_then_compare
    (a b c d : Tag__Struct) (ta tb tc td d1 d2 q1 q2 : double) :
  exists arc1 calls1 arc2 calls2,
    Arc__create (Some a) ta d1 (Some b) tb q1 = Ok (arc1, calls1) /\
    Arc__create (Some c) tc d2 (Some d) td q2 = Ok (arc2, calls2) /\
    (Arc__equal arc1 arc2 = Ok true <->
     Z.min (id a) (id b) = Z.min (id c) (id d) /\
     Z.max (id a) (id b) = Z.max (id c) (id d)) /\
    (Arc__less arc1 arc2 = Ok true <->
     Z.min (id a) (id b) < Z.min (id c) (id d) \/
     Z.min (id a) (id b) = Z.min (id c) (id d) /\
     Z.max (id a) (id b) < Z.max (id c) (id d)).
Proof.
  assert (ok : forall x y : bool, Ok x = Ok y <-> x = y).
  { split; [intros H; injection H; trivial | intros ->; trivial]. }
  rewrite (Arc__create_some a b), (Arc__create_some c d).
  destruct (Z.gtb_spec (id a) (id b)) as [G|G],
           (Z.gtb_spec (id c) (id d)) as [G'|G']; cbv zeta;
    do 4 eexists; (split; [reflexivity|]); (split; [reflexivity|]).
  - rewrite (Arc__equal_ends _ _ b a d c), (Arc__less_ends _ _ b a d c), !ok
      by (split; reflexivity).
    split; lia.
  - rewrite (Arc__equal_ends _ _ b a c d), (Arc__less_ends _ _ b a c d), !ok
      by (split; reflexivity).
    split; lia.
  - rewrite (Arc__equal_ends _ _ a b d c), (Arc__less_ends _ _ a b d c), !ok
      by (split; reflexivity).
    split; lia.
  - rewrite (Arc__equal_ends _ _ a b c d), (Arc__less_ends _ _ a b c d), !ok
      by (split; reflexivity).
    split; lia.
Qed.
